(** * n8n-bgs-oracledb: the Oracle Database node

    A shallow embedding of [src/nodes/OracleDb/OracleDb.node.ts]: the value
    normalizer [convertToOracleType], the statements that [execute] builds for
    each operation, and the per-record loop of [execute] with its connection
    handling.  JavaScript values are a tree-shaped data type, strings are
    sequences of UTF-16 code units, objects are association lists in property
    iteration order, and the driver and the host are records of functions over
    an abstract world. *)

From Stdlib Require Import String Ascii.
From Stdlib Require Import Bool Arith NArith ZArith Lia List.
From Stdlib Require Decimal DecimalFacts DecimalN DecimalPos.
Import ListNotations.

Set Implicit Arguments.

(* ================================================================== *)
(** * Strings: sequences of UTF-16 code units *)
(* ================================================================== *)

Module JsStr.

(** A JavaScript string is a finite sequence of 16-bit code units. *)
Definition jsstring := list N.

(** The code units of an ASCII literal. *)
Definition str (s : string) : jsstring :=
  map N_of_ascii (list_ascii_of_string s).

Fixpoint eqb (a b : jsstring) : bool :=
  match a, b with
  | [], [] => true
  | x :: a', y :: b' => N.eqb x y && eqb a' b'
  | _, _ => false
  end.

(** [Array.prototype.join]: the pieces separated by [sep]. *)
Fixpoint join (sep : jsstring) (l : list jsstring) : jsstring :=
  match l with
  | [] => []
  | [x] => x
  | x :: rest => x ++ sep ++ join sep rest
  end.

(** [String.prototype.split] with a one-unit separator: the pieces between
    the occurrences of [sep]; the empty string gives one empty piece. *)
Fixpoint split (sep : N) (s : jsstring) : list jsstring :=
  match s with
  | [] => [[]]
  | c :: rest =>
      if N.eqb c sep then [] :: split sep rest
      else match split sep rest with
           | [] => [[c]]
           | p :: ps => (c :: p) :: ps
           end
  end.

(** WhiteSpace and LineTerminator code units, the ones
    [String.prototype.trim] removes. *)
Definition is_trim_space (c : N) : bool :=
  ((9 <=? c) && (c <=? 13) || (c =? 32) || (c =? 160) || (c =? 5760)
   || ((8192 <=? c) && (c <=? 8202)) || (c =? 8232) || (c =? 8233)
   || (c =? 8239) || (c =? 8287) || (c =? 12288) || (c =? 65279))%N.

Fixpoint trim_start (s : jsstring) : jsstring :=
  match s with
  | c :: rest => if is_trim_space c then trim_start rest else s
  | [] => []
  end.

Definition trim_end (s : jsstring) : jsstring := rev (trim_start (rev s)).

Definition trim (s : jsstring) : jsstring := trim_end (trim_start s).

(** Decimal digits. *)
Definition digit_unit (d : DecimalFacts.digits) : N :=
  match d with
  | DecimalFacts.d0 => 48 | DecimalFacts.d1 => 49 | DecimalFacts.d2 => 50
  | DecimalFacts.d3 => 51 | DecimalFacts.d4 => 52 | DecimalFacts.d5 => 53
  | DecimalFacts.d6 => 54 | DecimalFacts.d7 => 55 | DecimalFacts.d8 => 56
  | DecimalFacts.d9 => 57
  end%N.

Definition unit_digit (c : N) : option DecimalFacts.digits :=
  match c with
  | 48 => Some DecimalFacts.d0 | 49 => Some DecimalFacts.d1
  | 50 => Some DecimalFacts.d2 | 51 => Some DecimalFacts.d3
  | 52 => Some DecimalFacts.d4 | 53 => Some DecimalFacts.d5
  | 54 => Some DecimalFacts.d6 | 55 => Some DecimalFacts.d7
  | 56 => Some DecimalFacts.d8 | 57 => Some DecimalFacts.d9
  | _ => None
  end%N.

(** The decimal numeral of a natural number, without leading zeros. *)
Definition dec (n : N) : jsstring :=
  map digit_unit (DecimalFacts.to_list (N.to_uint n)).

Definition dec_nat (n : nat) : jsstring := dec (N.of_nat n).

(** The decimal numeral of an integer. *)
Definition dec_Z (z : Z) : jsstring :=
  if (z <? 0)%Z then 45%N :: dec (Z.abs_N z) else dec (Z.abs_N z).

(** [n] written with at least [w] digits. *)
Definition pad (w : nat) (n : N) : jsstring :=
  let d := dec n in repeat 48%N (w - length d) ++ d.

Definition hex_unit (n : N) : N :=
  if (n <? 10)%N then (48 + n)%N else (87 + n)%N.

(** Four lowercase hexadecimal digits. *)
Definition hex4 (c : N) : jsstring :=
  [ hex_unit ((c / 4096) mod 16); hex_unit ((c / 256) mod 16);
    hex_unit ((c / 16) mod 16); hex_unit (c mod 16) ]%N.

End JsStr.

Import JsStr.

(* ================================================================== *)
(** * Values *)
(* ================================================================== *)

(** Numbers.  A finite Number is kept as the decimal that Number::toString
    prints for it, the shortest one that rounds to it: [NInt z] is the
    integer [z] (zero is [NInt 0], and 2^63 is [NInt 9223372036854776000]),
    and [NDec m e], with [e < 0] and [m] not a multiple of ten, is
    [m * 10^e] (9.99 is [NDec 999 (-2)]).  The program performs no
    arithmetic on the numbers it is given, so the double behind the decimal
    is not needed.  Not every decimal stands for a Number (9007199254740993
    does not): what is proved of all decimals holds of the Numbers among
    them. *)
Inductive JsNum : Type :=
| NInt (z : Z)
| NDec (m e : Z)
| NNegZero
| NNaN
| NInfinity (negative : bool).

#[local] Unset Elimination Schemes.

(** Values are trees: an array holds its elements and an object its
    members.  A member or element that is the array or object that holds it,
    or one further up, is written [JsCircular]: a reference that closes a
    cycle.  Such a reference is an object, and as a value on its own it
    stands for the object it refers to, which lies on a cycle. *)
Inductive JsValue : Type :=
| JsUndefined
| JsNull
| JsBool (b : bool)
| JsNumber (n : JsNum)
| JsString (s : jsstring)
| JsBigInt (z : Z)
| JsSymbol (description : jsstring)
| JsFunction (source : jsstring)
| JsDate (time : option Z)            (* time value in ms; [None]: invalid date *)
| JsBuffer (bytes : list N)
| JsArray (elements : list JsValue)
| JsObject (props : list (jsstring * JsValue))
| JsCircular (up : nat).              (* the enclosing array or object, [up] levels up *)

#[local] Set Elimination Schemes.

(** A plain object: its own enumerable string-keyed properties, in
    iteration order. *)
Definition IDataObject := list (jsstring * JsValue).

Inductive JsType : Type :=
| TUndefined | TObject | TBoolean | TNumber | TString
| TBigInt | TSymbol | TFunction.

Definition JsType_eqb (a b : JsType) : bool :=
  match a, b with
  | TUndefined, TUndefined | TObject, TObject | TBoolean, TBoolean
  | TNumber, TNumber | TString, TString | TBigInt, TBigInt
  | TSymbol, TSymbol | TFunction, TFunction => true
  | _, _ => false
  end.

(** The [typeof] operator. *)
Definition typeof (v : JsValue) : JsType :=
  match v with
  | JsUndefined => TUndefined
  | JsNull => TObject
  | JsBool _ => TBoolean
  | JsNumber _ => TNumber
  | JsString _ => TString
  | JsBigInt _ => TBigInt
  | JsSymbol _ => TSymbol
  | JsFunction _ => TFunction
  | JsDate _ | JsBuffer _ | JsArray _ | JsObject _ | JsCircular _ => TObject
  end.

Definition is_null (v : JsValue) : bool :=
  match v with JsNull => true | _ => false end.

Definition is_undefined (v : JsValue) : bool :=
  match v with JsUndefined => true | _ => false end.

Definition instanceof_Date (v : JsValue) : bool :=
  match v with JsDate _ => true | _ => false end.

Definition instanceof_Buffer (v : JsValue) : bool :=
  match v with JsBuffer _ => true | _ => false end.

Definition Array_isArray (v : JsValue) : bool :=
  match v with JsArray _ => true | _ => false end.

(** ToBoolean. *)
Definition truthy (v : JsValue) : bool :=
  match v with
  | JsUndefined | JsNull => false
  | JsBool b => b
  | JsNumber (NInt z) => negb (Z.eqb z 0)
  | JsNumber NNegZero | JsNumber NNaN => false
  | JsNumber _ => true
  | JsString s => match s with [] => false | _ => true end
  | JsBigInt z => negb (Z.eqb z 0)
  | _ => true
  end.

(** The [??] operator. *)
Definition nullish (a b : JsValue) : JsValue :=
  match a with
  | JsUndefined | JsNull => b
  | _ => a
  end.

(** The [||] operator. *)
Definition js_or (a b : JsValue) : JsValue := if truthy a then a else b.

(* ================================================================== *)
(** * Exceptions *)
(* ================================================================== *)

Inductive ErrorClass : Type :=
| ClsError | ClsTypeError | ClsSyntaxError | ClsNodeOperationError.

(** What a [throw] carries: an [Error] object of some class with its
    message, or any other value. *)
Inductive Exn : Type :=
| ErrorObject (cls : ErrorClass) (message : jsstring)
| Thrown (v : JsValue).

Definition instanceof_Error (e : Exn) : bool :=
  match e with ErrorObject _ _ => true | Thrown _ => false end.

Definition Result (A : Type) : Type := (Exn + A)%type.

Definition ok {A} (a : A) : Result A := inr a.
Definition throw {A} (e : Exn) : Result A := inl e.

Definition rbind {A B} (m : Result A) (f : A -> Result B) : Result B :=
  match m with
  | inl e => inl e
  | inr a => f a
  end.

Declare Scope result_scope.
Delimit Scope result_scope with result.
Notation "'let?' x ':=' m 'in' k" := (rbind m (fun x => k))
  (at level 10, x name, m at level 100, k at level 200) : result_scope.

Open Scope result_scope.

(* ================================================================== *)
(** * Numbers and dates as text *)
(* ================================================================== *)

Module JsNumber.

Definition digits_of (n : N) : list DecimalFacts.digits :=
  DecimalFacts.to_list (N.to_uint n).

Definition units (ds : list DecimalFacts.digits) : jsstring :=
  map digit_unit ds.

Fixpoint drop_zeros (ds : list DecimalFacts.digits) : list DecimalFacts.digits :=
  match ds with
  | DecimalFacts.d0 :: rest => drop_zeros rest
  | _ => ds
  end.

Definition strip_trailing_zeros (ds : list DecimalFacts.digits) :=
  rev (drop_zeros (rev ds)).

(** Number::toString (radix 10) on the [k] significant digits [ds] of a
    positive finite number [0.ds * 10^n]. *)
Definition of_digits (ds : list DecimalFacts.digits) (n : Z) : jsstring :=
  let k := Z.of_nat (length ds) in
  if ((k <=? n) && (n <=? 21))%Z then
    units ds ++ repeat 48%N (Z.to_nat (n - k))
  else if ((0 <? n) && (n <=? 21))%Z then
    units (firstn (Z.to_nat n) ds) ++ str "." ++ units (skipn (Z.to_nat n) ds)
  else if ((-6 <? n) && (n <=? 0))%Z then
    str "0." ++ repeat 48%N (Z.to_nat (- n)) ++ units ds
  else
    let e := (n - 1)%Z in
    let exponent :=
      str "e" ++ (if (e <? 0)%Z then str "-" else str "+") ++ dec (Z.abs_N e) in
    match ds with
    | [] => []
    | [d] => units [d] ++ exponent
    | d :: rest => units [d] ++ str "." ++ units rest ++ exponent
    end.

Definition sign_prefix (z : Z) : jsstring :=
  if (z <? 0)%Z then str "-" else [].

(** Number::toString. *)
Definition toString (n : JsNum) : jsstring :=
  match n with
  | NNaN => str "NaN"
  | NInfinity false => str "Infinity"
  | NInfinity true => str "-Infinity"
  | NNegZero => str "0"
  | NInt z =>
      if (Z.abs z <? 10 ^ 21)%Z then dec_Z z
      else
        let ds := digits_of (Z.abs_N z) in
        sign_prefix z
          ++ of_digits (strip_trailing_zeros ds) (Z.of_nat (length ds))
  | NDec m e =>
      let ds := digits_of (Z.abs_N m) in
      sign_prefix m ++ of_digits ds (Z.of_nat (length ds) + e)
  end.

Definition is_finite (n : JsNum) : bool :=
  match n with
  | NNaN | NInfinity _ => false
  | _ => true
  end.

End JsNumber.

Module JsDate.

(** The civil date (year, month, day) of a day number counted from
    1970-01-01, in the proleptic Gregorian calendar. *)
Definition civil_from_days (days : Z) : Z * Z * Z :=
  let z := (days + 719468)%Z in
  let era := (z / 146097)%Z in
  let doe := (z - era * 146097)%Z in
  let yoe := ((doe - doe / 1460 + doe / 36524 - doe / 146096) / 365)%Z in
  let y := (yoe + era * 400)%Z in
  let doy := (doe - (365 * yoe + yoe / 4 - yoe / 100))%Z in
  let mp := ((5 * doy + 2) / 153)%Z in
  let d := (doy - (153 * mp + 2) / 5 + 1)%Z in
  let m := (if (mp <? 10)%Z then mp + 3 else mp - 9)%Z in
  ((if (m <=? 2)%Z then y + 1 else y)%Z, m, d).

Definition year_text (y : Z) : jsstring :=
  if ((0 <=? y) && (y <=? 9999))%Z then pad 4 (Z.to_N y)
  else (if (y <? 0)%Z then str "-" else str "+") ++ pad 6 (Z.abs_N y).

(** [Date.prototype.toISOString] of a valid time value. *)
Definition toISOString (t : Z) : jsstring :=
  let days := (t / 86400000)%Z in
  let ms := (t mod 86400000)%Z in
  let '(y, m, d) := civil_from_days days in
  year_text y ++ str "-" ++ pad 2 (Z.to_N m) ++ str "-" ++ pad 2 (Z.to_N d)
    ++ str "T" ++ pad 2 (Z.to_N (ms / 3600000))
    ++ str ":" ++ pad 2 (Z.to_N ((ms / 60000) mod 60))
    ++ str ":" ++ pad 2 (Z.to_N ((ms / 1000) mod 60))
    ++ str "." ++ pad 3 (Z.to_N (ms mod 1000)) ++ str "Z".

End JsDate.

(* ================================================================== *)
(** * Objects *)
(* ================================================================== *)

Module JsObj.

(** The own property [k] of an object. *)
Fixpoint own_property (o : IDataObject) (k : jsstring) : option JsValue :=
  match o with
  | [] => None
  | (k', v) :: rest => if JsStr.eqb k' k then Some v else own_property rest k
  end.

Definition has_own (o : IDataObject) (k : jsstring) : bool :=
  match own_property o k with Some _ => true | None => false end.

Definition native_function (name : string) : JsValue :=
  JsFunction (str "function " ++ str name ++ str "() { [native code] }").

Definition Object_prototype_methods : list string :=
  [ "hasOwnProperty"; "isPrototypeOf"; "propertyIsEnumerable";
    "toString"; "toLocaleString"; "valueOf"; "__defineGetter__";
    "__defineSetter__"; "__lookupGetter__"; "__lookupSetter__" ]%string.

(** What a plain object inherits from [Object.prototype]: the
    [__proto__] accessor, which answers [Object.prototype] itself (an
    object without enumerable properties), the [constructor] [Object], and
    its methods. *)
Definition Object_prototype (k : jsstring) : JsValue :=
  if JsStr.eqb k (str "__proto__") then JsObject []
  else if JsStr.eqb k (str "constructor") then native_function "Object"
  else
    match find (fun m => JsStr.eqb k (str m)) Object_prototype_methods with
    | Some m => native_function m
    | None => JsUndefined
    end.

(** The property read [o[k]] on a plain object. *)
Definition get (o : IDataObject) (k : jsstring) : JsValue :=
  match own_property o k with
  | Some v => v
  | None => Object_prototype k
  end.

Fixpoint all_digits (s : jsstring) : option (list DecimalFacts.digits) :=
  match s with
  | [] => Some []
  | c :: rest =>
      match unit_digit c, all_digits rest with
      | Some d, Some ds => Some (d :: ds)
      | _, _ => None
      end
  end.

(** An array index: the canonical numeral of an integer below [2^32 - 1]. *)
Definition array_index (k : jsstring) : option N :=
  match k, all_digits k with
  | _ :: _, Some ds =>
      let n := N.of_uint (DecimalFacts.of_list ds) in
      if JsStr.eqb (dec n) k && (n <? 4294967295)%N then Some n else None
  | _, _ => None
  end.

Fixpoint replace (k : jsstring) (v : JsValue) (o : IDataObject) : IDataObject :=
  match o with
  | [] => []
  | (k', v') :: rest =>
      if JsStr.eqb k' k then (k', v) :: rest else (k', v') :: replace k v rest
  end.

(** Inserting the new index key [n] among the index keys, which come first
    and in ascending order. *)
Fixpoint insert_index (n : N) (k : jsstring) (v : JsValue) (o : IDataObject)
  : IDataObject :=
  match o with
  | [] => [(k, v)]
  | (k', v') :: rest =>
      match array_index k' with
      | Some n' =>
          if (n' <? n)%N then (k', v') :: insert_index n k v rest
          else (k, v) :: o
      | None => (k, v) :: o
      end
  end.

(** CreateDataProperty on a plain object: an existing key keeps its place;
    a new index key goes among the index keys; any other new key goes last. *)
Definition define (k : jsstring) (v : JsValue) (o : IDataObject) : IDataObject :=
  if has_own o k then replace k v o
  else match array_index k with
       | Some n => insert_index n k v o
       | None => o ++ [(k, v)]
       end.

(** The assignment [o[k] = v] on a plain object.  Assigning to [__proto__]
    goes to the accessor inherited from [Object.prototype] and creates no
    own property. *)
Definition set (k : jsstring) (v : JsValue) (o : IDataObject) : IDataObject :=
  if JsStr.eqb k (str "__proto__") && negb (has_own o k) then o
  else define k v o.

Fixpoint indexed {A} (f : A -> JsValue) (i : N) (l : list A) : IDataObject :=
  match l with
  | [] => []
  | x :: rest => (dec i, f x) :: indexed f (N.succ i) rest
  end.

(** [Object.entries]. *)
Definition entries (v : JsValue) : Result IDataObject :=
  match v with
  | JsUndefined | JsNull =>
      throw (ErrorObject ClsTypeError
               (str "Cannot convert undefined or null to object"))
  | JsObject o => ok o
  | JsArray l => ok (indexed (fun x => x) 0 l)
  | JsString s => ok (indexed (fun c => JsString [c]) 0 s)
  | JsBuffer b => ok (indexed (fun c => JsNumber (NInt (Z.of_N c))) 0 b)
  | _ => ok []
  end.

End JsObj.

(* ================================================================== *)
(** * JSON.stringify *)
(* ================================================================== *)

Module JSON.

Definition is_high_surrogate (c : N) : bool := ((55296 <=? c) && (c <=? 56319))%N.
Definition is_low_surrogate (c : N) : bool := ((56320 <=? c) && (c <=? 57343))%N.

Definition unicode_escape (c : N) : jsstring := str "\u" ++ hex4 c.

(** One code unit inside a JSON string literal (surrogates apart). *)
Definition quote_unit (c : N) : jsstring :=
  if (c =? 8)%N then str "\b"
  else if (c =? 9)%N then str "\t"
  else if (c =? 10)%N then str "\n"
  else if (c =? 12)%N then str "\f"
  else if (c =? 13)%N then str "\r"
  else if (c =? 34)%N then [92; 34]%N
  else if (c =? 92)%N then [92; 92]%N
  else if (c <? 32)%N || is_low_surrogate c then unicode_escape c
  else [c].

(** The characters of a string literal: a surrogate pair is copied, a lone
    surrogate is escaped. *)
Fixpoint quote_units (s : jsstring) : jsstring :=
  match s with
  | [] => []
  | c :: rest =>
      if is_high_surrogate c then
        match rest with
        | c2 :: rest2 =>
            if is_low_surrogate c2 then c :: c2 :: quote_units rest2
            else unicode_escape c ++ quote_units rest
        | [] => unicode_escape c
        end
      else quote_unit c ++ quote_units rest
  end.

(** QuoteJSONString. *)
Definition quote (s : jsstring) : jsstring := 34%N :: quote_units s ++ [34%N].

(** What [Buffer.prototype.toJSON] answers. *)
Definition Buffer_toJSON (bytes : list N) : JsValue :=
  JsObject [ (str "type", JsString (str "Buffer"));
             (str "data", JsArray (map (fun b => JsNumber (NInt (Z.of_N b))) bytes)) ].

Definition serialize_bytes (bytes : list N) : jsstring :=
  str "{" ++ quote (str "type") ++ str ":" ++ quote (str "Buffer") ++ str ","
    ++ quote (str "data") ++ str ":[" ++ join (str ",") (map dec bytes)
    ++ str "]}".

Section Composite.

Variable serialize : JsValue -> Result (option jsstring).

(** SerializeJSONArray: the texts of the elements; an element without a
    text is written [null]. *)
Fixpoint serialize_elements (l : list JsValue) : Result (list jsstring) :=
  match l with
  | [] => ok []
  | x :: rest =>
      let? sx := serialize x in
      let? srest := serialize_elements rest in
      ok (match sx with Some t => t | None => str "null" end :: srest)
  end.

(** SerializeJSONObject: the texts of the members; a member without a text
    is left out. *)
Fixpoint serialize_members (o : list (jsstring * JsValue))
  : Result (list jsstring) :=
  match o with
  | [] => ok []
  | (k, x) :: rest =>
      let? sx := serialize x in
      let? srest := serialize_members rest in
      ok (match sx with
          | Some t => (quote k ++ str ":" ++ t) :: srest
          | None => srest
          end)
  end.

End Composite.

(** SerializeJSONProperty, without replacer and indentation, in the runtime
    of the node: [None] stands for [undefined].  n8n-workflow, which the node
    imports, defines [BigInt.prototype.toJSON] as [toString]: a BigInt is
    written as the string of its digits.  An array or object met again
    among its own elements and members raises a TypeError (the engine's
    message goes on to name the path of the cycle). *)
Fixpoint serialize (v : JsValue) : Result (option jsstring) :=
  match v with
  | JsUndefined | JsSymbol _ | JsFunction _ => ok None
  | JsNull => ok (Some (str "null"))
  | JsBool true => ok (Some (str "true"))
  | JsBool false => ok (Some (str "false"))
  | JsNumber n =>
      ok (Some (if JsNumber.is_finite n then JsNumber.toString n else str "null"))
  | JsString s => ok (Some (quote s))
  | JsBigInt z => ok (Some (quote (dec_Z z)))
  | JsDate None => ok (Some (str "null"))
  | JsDate (Some t) => ok (Some (quote (JsDate.toISOString t)))
  | JsBuffer bytes => ok (Some (serialize_bytes bytes))
  | JsArray l =>
      let? parts := serialize_elements serialize l in
      ok (Some (str "[" ++ join (str ",") parts ++ str "]"))
  | JsObject o =>
      let? parts := serialize_members serialize o in
      ok (Some (str "{" ++ join (str ",") parts ++ str "}"))
  | JsCircular _ =>
      throw (ErrorObject ClsTypeError (str "Converting circular structure to JSON"))
  end.

(** [JSON.stringify(value)]. *)
Definition stringify (v : JsValue) : Result JsValue :=
  let? r := serialize v in
  ok (match r with Some s => JsString s | None => JsUndefined end).

(** ** JSON.parse *)

Notation "'let*' p ':=' m 'in' k" :=
  (match m with Some p => k | None => None end)
  (at level 10, p pattern, m at level 100, k at level 200, only parsing).

Definition is_ws (c : N) : bool :=
  ((c =? 32) || (c =? 9) || (c =? 10) || (c =? 13))%N.

Fixpoint skip_ws (s : jsstring) : jsstring :=
  match s with
  | c :: rest => if is_ws c then skip_ws rest else s
  | [] => []
  end.

Definition unhex (c : N) : option N :=
  if ((48 <=? c) && (c <=? 57))%N then Some (c - 48)%N
  else if ((97 <=? c) && (c <=? 102))%N then Some (c - 87)%N
  else if ((65 <=? c) && (c <=? 70))%N then Some (c - 55)%N
  else None.

Definition unhex4 (a b c d : N) : option N :=
  let* x := unhex a in
  let* y := unhex b in
  let* z := unhex c in
  let* w := unhex d in
  Some (x * 4096 + y * 256 + z * 16 + w)%N.

(** The character an escape letter stands for. *)
Definition unescape (e : N) : option N :=
  if (e =? 34)%N then Some 34%N
  else if (e =? 92)%N then Some 92%N
  else if (e =? 47)%N then Some 47%N
  else if (e =? 98)%N then Some 8%N
  else if (e =? 102)%N then Some 12%N
  else if (e =? 110)%N then Some 10%N
  else if (e =? 114)%N then Some 13%N
  else if (e =? 116)%N then Some 9%N
  else None.

Definition cons_unit (c : N) (r : option (jsstring * jsstring))
  : option (jsstring * jsstring) :=
  let* (s, rest) := r in Some (c :: s, rest).

(** The characters of a string literal up to its closing quote, and what
    follows the literal. *)
Fixpoint string_body (s : jsstring) : option (jsstring * jsstring) :=
  match s with
  | [] => None
  | c :: rest =>
      if (c =? 34)%N then Some ([], rest)
      else if (c =? 92)%N then
        match rest with
        | [] => None
        | e :: rest1 =>
            if (e =? 117)%N then
              match rest1 with
              | a :: b :: c' :: d :: rest2 =>
                  let* u := unhex4 a b c' d in cons_unit u (string_body rest2)
              | _ => None
              end
            else
              let* u := unescape e in cons_unit u (string_body rest1)
        end
      else if (c <? 32)%N then None
      else cons_unit c (string_body rest)
  end.

Fixpoint span_digits (s : jsstring) : list DecimalFacts.digits * jsstring :=
  match s with
  | [] => ([], [])
  | c :: rest =>
      match unit_digit c with
      | Some d => let (ds, r) := span_digits rest in (d :: ds, r)
      | None => ([], s)
      end
  end.

Definition N_of_digits (ds : list DecimalFacts.digits) : N :=
  N.of_uint (DecimalFacts.of_list ds).

Fixpoint strip_tens (fuel : nat) (m e : Z) : Z * Z :=
  match fuel with
  | O => (m, e)
  | S fuel' =>
      if ((e <? 0) && (m mod 10 =? 0))%Z then strip_tens fuel' (m / 10)%Z (e + 1)%Z
      else (m, e)
  end.

(** The Number denoted by the digits [ds] scaled by [10^e].  On the digits
    that [JsNumber.toString] prints for a Number this is that Number: they
    round to it.  Digits beyond the shortest ones are kept as they are
    written, where JavaScript rounds them to the nearest double and lets
    the largest overflow to Infinity. *)
Definition make_number (negative : bool) (ds : list DecimalFacts.digits) (e : Z)
  : JsNum :=
  let m := Z.of_N (N_of_digits ds) in
  if (m =? 0)%Z then (if negative then NNegZero else NInt 0)
  else
    let m := if negative then (- m)%Z else m in
    if (0 <=? e)%Z then NInt (m * 10 ^ e)
    else
      let (m', e') := strip_tens (Z.to_nat (- e)) m e in
      if (e' =? 0)%Z then NInt m' else NDec m' e'.

Definition fraction_part (s : jsstring)
  : option (list DecimalFacts.digits * jsstring) :=
  match s with
  | c :: r =>
      if (c =? 46)%N then
        let (fr, r') := span_digits r in
        match fr with [] => None | _ => Some (fr, r') end
      else Some ([], s)
  | [] => Some ([], s)
  end.

Definition exponent_digits (negative : bool) (s : jsstring)
  : option (Z * jsstring) :=
  let (ds, r) := span_digits s in
  match ds with
  | [] => None
  | _ => let e := Z.of_N (N_of_digits ds) in
         Some (if negative then (- e)%Z else e, r)
  end.

Definition exponent_part (s : jsstring) : option (Z * jsstring) :=
  match s with
  | c :: r =>
      if ((c =? 101) || (c =? 69))%N then
        match r with
        | c' :: r' =>
            if (c' =? 43)%N then exponent_digits false r'
            else if (c' =? 45)%N then exponent_digits true r'
            else exponent_digits false r
        | [] => exponent_digits false r
        end
      else Some (0%Z, s)
  | [] => Some (0%Z, s)
  end.

(** A number literal at the head of [s]. *)
Definition number_literal (s : jsstring) : option (JsNum * jsstring) :=
  let (negative, s1) :=
    match s with
    | c :: r => if (c =? 45)%N then (true, r) else (false, s)
    | [] => (false, s)
    end in
  let (int, s2) := span_digits s1 in
  match int with
  | [] => None
  | DecimalFacts.d0 :: _ :: _ => None
  | _ =>
      let* (frac, s3) := fraction_part s2 in
      let* (e, s4) := exponent_part s3 in
      Some (make_number negative (int ++ frac) (e - Z.of_nat (length frac)), s4)
  end.

Definition expect (word : jsstring) (v : JsValue) (s : jsstring)
  : option (JsValue * jsstring) :=
  if JsStr.eqb (firstn (length word) s) word then Some (v, skipn (length word) s)
  else None.

(** The object with the members [l], created in text order. *)
Definition object_of_members (l : list (jsstring * JsValue)) : JsValue :=
  JsObject (fold_left (fun o kv => JsObj.define (fst kv) (snd kv) o) l []).

(** What follows the character [c] at the head of [s]. *)
Definition after (c : N) (s : jsstring) : option jsstring :=
  match s with
  | c' :: rest => if (c' =? c)%N then Some rest else None
  | [] => None
  end.

(** A JSON value at the head of [s], after white space, and what follows
    it.  The fuel bounds the nesting and the number of elements. *)
Fixpoint value (fuel : nat) (s : jsstring) {struct fuel}
  : option (JsValue * jsstring) :=
  match fuel with
  | O => None
  | S fuel' =>
      match skip_ws s with
      | [] => None
      | c :: rest =>
          if (c =? 123)%N then
            match after 125 (skip_ws rest) with
            | Some rest' => Some (JsObject [], rest')
            | None => let* (ms, rest') := members fuel' rest in
                      Some (object_of_members ms, rest')
            end
          else if (c =? 91)%N then
            match after 93 (skip_ws rest) with
            | Some rest' => Some (JsArray [], rest')
            | None => let* (vs, rest') := elements fuel' rest in
                      Some (JsArray vs, rest')
            end
          else if (c =? 34)%N then
            let* (t, rest') := string_body rest in Some (JsString t, rest')
          else if (c =? 116)%N then expect (str "true") (JsBool true) (c :: rest)
          else if (c =? 102)%N then expect (str "false") (JsBool false) (c :: rest)
          else if (c =? 110)%N then expect (str "null") JsNull (c :: rest)
          else
            let* (n, rest') := number_literal (c :: rest) in
            Some (JsNumber n, rest')
      end
  end

with elements (fuel : nat) (s : jsstring) {struct fuel}
  : option (list JsValue * jsstring) :=
  match fuel with
  | O => None
  | S fuel' =>
      let* (v, rest) := value fuel' s in
      match skip_ws rest with
      | c :: rest' =>
          if (c =? 44)%N then
            let* (vs, rest'') := elements fuel' rest' in Some (v :: vs, rest'')
          else if (c =? 93)%N then Some ([v], rest')
          else None
      | [] => None
      end
  end

with members (fuel : nat) (s : jsstring) {struct fuel}
  : option (list (jsstring * JsValue) * jsstring) :=
  match fuel with
  | O => None
  | S fuel' =>
      let* s1 := after 34 (skip_ws s) in
      let* (k, s2) := string_body s1 in
      let* s3 := after 58 (skip_ws s2) in
      let* (v, rest) := value fuel' s3 in
      match skip_ws rest with
      | c :: rest' =>
          if (c =? 44)%N then
            let* (ms, rest'') := members fuel' rest' in
            Some ((k, v) :: ms, rest'')
          else if (c =? 125)%N then Some ([(k, v)], rest')
          else None
      | [] => None
      end
  end.

(** The fuel that parsing the text of a value takes. *)
Fixpoint chain (ns : list nat) : nat :=
  match ns with
  | [] => 0
  | n :: rest => S (Nat.max n (chain rest))
  end.

Fixpoint need (v : JsValue) : nat :=
  match v with
  | JsArray l => S (chain (map need l))
  | JsObject o => S (chain (map (fun kv => need (snd kv)) o))
  | _ => 1
  end.

(** What may follow a value inside a text: nothing, a comma, or a closing
    bracket or brace. *)
Definition delimited (rest : jsstring) : bool :=
  match rest with
  | [] => true
  | c :: _ => ((c =? 44) || (c =? 93) || (c =? 125))%N
  end.

(** [JSON.parse(text)]: the value, or a SyntaxError. *)
Definition parse (text : jsstring) : Result JsValue :=
  match value (S (length text)) text with
  | Some (v, rest) =>
      match skip_ws rest with
      | [] => ok v
      | _ => throw (ErrorObject ClsSyntaxError (str "Unexpected token in JSON"))
      end
  | None => throw (ErrorObject ClsSyntaxError (str "Unexpected token in JSON"))
  end.

End JSON.

(* ================================================================== *)
(** * The value normalizer *)
(* ================================================================== *)

(** [String(value)] for the values that reach the last branch of the
    normalizer and for the other primitives.  Conversion of an object goes
    through its [toString] method, which is not modelled: the normalizer
    never converts an object this way. *)
Definition String_ (v : JsValue) : jsstring :=
  match v with
  | JsUndefined => str "undefined"
  | JsNull => str "null"
  | JsBool true => str "true"
  | JsBool false => str "false"
  | JsNumber n => JsNumber.toString n
  | JsString s => s
  | JsBigInt z => dec_Z z
  | JsSymbol d => str "Symbol(" ++ d ++ str ")"
  | JsFunction src => src
  | JsDate _ | JsBuffer _ | JsArray _ | JsObject _ | JsCircular _ =>
      str "[object Object]"
  end.

(** [convertToOracleType]: n8n values to Oracle-compatible types. *)
Definition convertToOracleType (value : JsValue) : Result JsValue :=
  if is_null value || is_undefined value then ok JsNull
  else if JsType_eqb (typeof value) TBoolean then
    ok (JsNumber (NInt (if truthy value then 1 else 0)))
  else if instanceof_Date value then ok value
  else if instanceof_Buffer value then ok value
  else if JsType_eqb (typeof value) TObject then JSON.stringify value
  else if JsType_eqb (typeof value) TString || JsType_eqb (typeof value) TNumber
  then ok value
  else ok (JsString (String_ value)).

(* ================================================================== *)
(** * The host, the driver and the effects of [execute] *)
(* ================================================================== *)

(** The credential fields, typed as [OracleDb.credentials.ts] declares
    them. *)
Record Credentials : Type := {
  host : jsstring;
  port : JsNum;
  serviceName : jsstring;
  user : jsstring;
  password : jsstring;
  connectionString : jsstring
}.

(** [oracledb.ConnectionAttributes], the fields the node fills. *)
Record ConnectionAttributes : Type := {
  attr_user : jsstring;
  attr_password : jsstring;
  connectString : jsstring
}.

Inductive OutFormat : Type := OUT_FORMAT_ARRAY | OUT_FORMAT_OBJECT.

(** [oracledb.ExecuteOptions]: the object literal handed to
    [connection.execute]; [None] is a field the literal does not have. *)
Record ExecuteOptions : Type := {
  autoCommit : JsValue;
  fetchArraySize : option JsValue;
  maxRows : option JsValue;
  outFormat : option OutFormat
}.

(** What [connection.execute] resolves to: the fields the node reads;
    [JsUndefined] is an absent field. *)
Record ExecuteResult : Type := {
  rows : JsValue;
  rowsAffected : JsValue;
  outBinds : JsValue
}.

(** An input item; [json] is an [IDataObject]. *)
Record INodeExecutionData : Type := { json : IDataObject }.

(** The calls [execute] makes on the driver and the console, in order. *)
Inductive Event : Type :=
| EvInitOracleClient
| EvGetConnection (attrs : ConnectionAttributes) (acquired : bool)
| EvExecute (sql : jsstring) (binds : IDataObject) (options : ExecuteOptions)
| EvClose
| EvConsoleLog (text : jsstring) (detail : jsstring)
| EvConsoleError (text : jsstring) (error : Exn).

Definition is_close (e : Event) : bool :=
  match e with EvClose => true | _ => false end.

Definition is_execute (e : Event) : bool :=
  match e with EvExecute _ _ _ => true | _ => false end.

Definition is_acquired (e : Event) : bool :=
  match e with EvGetConnection _ true => true | _ => false end.

Definition count (p : Event -> bool) (t : list Event) : nat :=
  length (filter p t).

(** The host side, [IExecuteFunctions].  A parameter is resolved to the
    type the node description declares for it: [getNodeParameter_string]
    reads the parameters of type string and options (the casts
    [as string]), [getNodeParameter_object] the collection [options],
    [getNodeParameter] the parameters of type json, which arrive as text or
    as an already parsed value.  Resolving a parameter can fail.

    [NodeOperationError_message message] is the message of the error
    [new NodeOperationError(this.getNode(), message)].  The constructor is
    n8n-workflow's, not the node's: it derives the message of the error from
    the one it is given (a message that names a common Node.js error code,
    such as ECONNREFUSED, is replaced by a descriptive text), and it is left
    open here. *)
Record Host : Type := {
  getInputData : list INodeExecutionData;
  getCredentials : jsstring -> Result Credentials;
  getNodeParameter_string : jsstring -> nat -> Result jsstring;
  getNodeParameter_object : jsstring -> nat -> IDataObject -> Result IDataObject;
  getNodeParameter : jsstring -> nat -> JsValue -> Result JsValue;
  continueOnFail : bool;
  NodeOperationError_message : jsstring -> jsstring
}.

Section Effects.

Variables World Connection : Type.

(** The native driver, [oracledb], acting on the world outside. *)
Record Driver : Type := {
  initOracleClient : World -> World * option Exn;
  getConnection : ConnectionAttributes -> World -> World * Result Connection;
  connection_execute :
    Connection -> jsstring -> IDataObject -> ExecuteOptions ->
    World -> World * Result ExecuteResult;
  connection_close : Connection -> World -> World * option Exn
}.

(** The state [execute] runs in: the world, the calls made so far, and the
    local variables [connection] and [returnData]. *)
Record State : Type := {
  world : World;
  trace : list Event;
  connection : option Connection;
  returnData : list JsValue
}.

Definition M (A : Type) : Type := State -> State * Result A.

Definition ret {A} (a : A) : M A := fun s => (s, ok a).

Definition raise {A} (e : Exn) : M A := fun s => (s, throw e).

Definition bind {A B} (m : M A) (f : A -> M B) : M B :=
  fun s =>
    match m s with
    | (s', inl e) => (s', inl e)
    | (s', inr a) => f a s'
    end.

Definition lift {A} (r : Result A) : M A := fun s => (s, r).

(** [try { m } catch (error) { handler error }]. *)
Definition try_catch {A} (m : M A) (handler : Exn -> M A) : M A :=
  fun s =>
    match m s with
    | (s', inl e) => handler e s'
    | (s', inr a) => (s', inr a)
    end.

(** [try { m } finally { final }]: the completion of [m] stands unless
    [final] itself throws. *)
Definition try_finally {A} (m : M A) (final : M unit) : M A :=
  fun s =>
    let (s1, r) := m s in
    match final s1 with
    | (s2, inl e) => (s2, inl e)
    | (s2, inr _) => (s2, r)
    end.

Definition emit (e : Event) (s : State) : State :=
  {| world := world s; trace := trace s ++ [e];
     connection := connection s; returnData := returnData s |}.

Definition with_world (w : World) (s : State) : State :=
  {| world := w; trace := trace s;
     connection := connection s; returnData := returnData s |}.

Definition log (e : Event) : M unit := fun s => (emit e s, ok tt).

(** [returnData.push(item)]. *)
Definition push (item : JsValue) : M unit :=
  fun s =>
    ({| world := world s; trace := trace s; connection := connection s;
        returnData := returnData s ++ [item] |}, ok tt).

Definition set_connection (c : Connection) : M unit :=
  fun s =>
    ({| world := world s; trace := trace s; connection := Some c;
        returnData := returnData s |}, ok tt).

Definition get_connection : M (option Connection) :=
  fun s => (s, ok (connection s)).

Definition get_returnData : M (list JsValue) :=
  fun s => (s, ok (returnData s)).

Variable driver : Driver.

Definition call_initOracleClient : M unit :=
  fun s =>
    let (w, r) := initOracleClient driver (world s) in
    (with_world w (emit EvInitOracleClient s),
     match r with Some e => throw e | None => ok tt end).

Definition call_getConnection (attrs : ConnectionAttributes) : M Connection :=
  fun s =>
    let (w, r) := getConnection driver attrs (world s) in
    (with_world w
       (emit (EvGetConnection attrs
                (match r with inr _ => true | inl _ => false end)) s), r).

Definition call_execute (c : Connection) (sql : jsstring) (binds : IDataObject)
    (options : ExecuteOptions) : M ExecuteResult :=
  fun s =>
    let (w, r) := connection_execute driver c sql binds options (world s) in
    (with_world w (emit (EvExecute sql binds options) s), r).

Definition call_close (c : Connection) : M unit :=
  fun s =>
    let (w, r) := connection_close driver c (world s) in
    (with_world w (emit EvClose s),
     match r with Some e => throw e | None => ok tt end).

End Effects.

Arguments ret {World Connection A} a.
Arguments raise {World Connection A} e.
Arguments lift {World Connection A} r.
Arguments log {World Connection} e.
Arguments push {World Connection} item.
Arguments get_connection {World Connection}.
Arguments get_returnData {World Connection}.
Arguments set_connection {World Connection} c.

Declare Scope exec_scope.
Delimit Scope exec_scope with exec.
Notation "x <- m ;; k" := (bind m (fun x => k))
  (at level 61, m at next level, right associativity) : exec_scope.
Notation "m ;; k" := (bind m (fun _ => k))
  (at level 61, right associativity) : exec_scope.

Notation "'let?' ' p ':=' m 'in' k" :=
  (rbind m (fun x => match x with p => k end))
  (at level 10, p pattern, m at level 100, k at level 200) : result_scope.

(* ================================================================== *)
(** * The statements of [execute] *)
(* ================================================================== *)

Module Statement.

(** executeQuery: [for (const [key, value] of Object.entries(queryParams))
    binds[key] = convertToOracleType(value)]. *)
Fixpoint query_binds (entries binds : IDataObject) : Result IDataObject :=
  match entries with
  | [] => ok binds
  | (key, value) :: rest =>
      let? v := convertToOracleType value in
      query_binds rest (JsObj.set key v binds)
  end.

(** insert: the body of [columnList.forEach((col, idx) => ...)], from index
    [idx] on, over the item's [json]. *)
Fixpoint insert_columns (json : IDataObject) (columnList : list jsstring)
    (idx : nat) (binds : IDataObject) (values : list jsstring)
  : Result (IDataObject * list jsstring) :=
  match columnList with
  | [] => ok (binds, values)
  | col :: rest =>
      let value := JsObj.get json col in
      let paramName := str "val" ++ dec_nat (idx + 1) in
      let? v := convertToOracleType value in
      insert_columns json rest (S idx) (JsObj.set paramName v binds)
        (values ++ [str ":" ++ paramName])
  end.

(** insert: [insertQuery] and [binds]. *)
Definition insert (table columns : jsstring) (json : IDataObject)
  : Result (jsstring * IDataObject) :=
  let columnList := map trim (split 44%N columns) in
  let? '(binds, values) := insert_columns json columnList 0 [] [] in
  ok (str "INSERT INTO " ++ table ++ str " (" ++ join (str ",") columnList
        ++ str ") VALUES (" ++ join (str ",") values ++ str ")",
      binds).

(** update: the loop that builds the SET clause over
    [Object.entries(itemData)]. *)
Fixpoint update_fields (entries : IDataObject) (updateKey : jsstring)
    (binds : IDataObject) (updates : list jsstring) (paramIndex : nat)
  : Result (IDataObject * list jsstring * nat) :=
  match entries with
  | [] => ok (binds, updates, paramIndex)
  | (key, value) :: rest =>
      if negb (JsStr.eqb key updateKey) then
        let updates' := updates ++ [key ++ str " = :val" ++ dec_nat paramIndex] in
        let? v := convertToOracleType value in
        update_fields rest updateKey
          (JsObj.set (str "val" ++ dec_nat paramIndex) v binds)
          updates' (S paramIndex)
      else update_fields rest updateKey binds updates paramIndex
  end.

(** update: [updateQuery] and [binds]. *)
Definition update (table updateKey : jsstring) (itemData : IDataObject)
  : Result (jsstring * IDataObject) :=
  let updateKeyValue := JsObj.get itemData updateKey in
  let? '(binds, updates, paramIndex) :=
    update_fields itemData updateKey [] [] 1 in
  let? k := convertToOracleType updateKeyValue in
  let binds := JsObj.set (str "key" ++ dec_nat paramIndex) k binds in
  ok (str "UPDATE " ++ table ++ str " SET " ++ join (str ", ") updates
        ++ str " WHERE " ++ updateKey ++ str " = :key" ++ dec_nat paramIndex,
      binds).

(** delete: [deleteQuery] and its one bind. *)
Definition delete (table deleteKey : jsstring) (json : IDataObject)
  : Result (jsstring * IDataObject) :=
  let deleteKeyValue := JsObj.get json deleteKey in
  let deleteQuery :=
    str "DELETE FROM " ++ table ++ str " WHERE " ++ deleteKey
      ++ str " = :deleteValue" in
  let? v := convertToOracleType deleteKeyValue in
  ok (deleteQuery, [(str "deleteValue", v)]).

(** executeProcedure: the loop over [Object.entries(procedureParams)]. *)
Fixpoint procedure_entries (entries binds : IDataObject)
    (paramNames : list jsstring) : Result (IDataObject * list jsstring) :=
  match entries with
  | [] => ok (binds, paramNames)
  | (key, value) :: rest =>
      let? v := convertToOracleType value in
      procedure_entries rest (JsObj.set key v binds)
        (paramNames ++ [str ":" ++ key])
  end.

(** executeProcedure: [plsql] and [binds]. *)
Definition procedure (name : jsstring) (procedureParams : JsValue)
  : Result (jsstring * IDataObject) :=
  let? entries := JsObj.entries procedureParams in
  let? '(binds, paramNames) := procedure_entries entries [] [] in
  ok (str "BEGIN " ++ name ++ str "(" ++ join (str ", ") paramNames
        ++ str "); END;",
      binds).

(** A json parameter that arrived as text is parsed; text that is not
    JSON raises [Error(message)]. *)
Definition parse_if_string (message : string) (params : JsValue)
  : Result JsValue :=
  match params with
  | JsString text =>
      match JSON.parse text with
      | inr v => ok v
      | inl _ => throw (ErrorObject ClsError (str message))
      end
  | _ => ok params
  end.

(** The options of executeQuery. *)
Definition query_options (options : IDataObject) : ExecuteOptions :=
  {| autoCommit := nullish (JsObj.get options (str "autoCommit")) (JsBool true);
     fetchArraySize :=
       Some (nullish (JsObj.get options (str "fetchSize")) (JsNumber (NInt 100)));
     maxRows :=
       Some (nullish (JsObj.get options (str "maxRows")) (JsNumber (NInt 0)));
     outFormat := Some OUT_FORMAT_OBJECT |}.

(** The options of insert, update, delete and executeProcedure:
    [{ autoCommit: options.autoCommit ?? true }]. *)
Definition commit_options (options : IDataObject) : ExecuteOptions :=
  {| autoCommit := nullish (JsObj.get options (str "autoCommit")) (JsBool true);
     fetchArraySize := None;
     maxRows := None;
     outFormat := None |}.

(** [{ json: { success: true, rowsAffected: result.rowsAffected ?? 0 } }]. *)
Definition summary (result : ExecuteResult) : JsValue :=
  JsObject
    [ (str "json",
       JsObject [ (str "success", JsBool true);
                  (str "rowsAffected",
                   nullish (rowsAffected result) (JsNumber (NInt 0))) ]) ].

(** [{ json: { success: true, outBinds: result.outBinds || {} } }]. *)
Definition procedure_summary (result : ExecuteResult) : JsValue :=
  JsObject
    [ (str "json",
       JsObject [ (str "success", JsBool true);
                  (str "outBinds", js_or (outBinds result) (JsObject [])) ]) ].

(** [{ json: row }]. *)
Definition row_item (row : JsValue) : JsValue := JsObject [ (str "json", row) ].

(** [{ json: { error: error instanceof Error ? error.message
                                             : 'Unknown error occurred' } }]. *)
Definition error_item (error : Exn) : JsValue :=
  JsObject
    [ (str "json",
       JsObject [ (str "error",
                   JsString (match error with
                             | ErrorObject _ message => message
                             | Thrown _ => str "Unknown error occurred"
                             end)) ]) ].

End Statement.

(* ================================================================== *)
(** * [execute] *)
(* ================================================================== *)

Section Execute.

Variables World Connection : Type.
Variable driver : Driver World Connection.
Variable this : Host.

Local Open Scope exec_scope.

Fixpoint push_rows (l : list JsValue) : M World Connection unit :=
  match l with
  | [] => ret tt
  | row :: rest => push (Statement.row_item row) ;; push_rows rest
  end.

(** The body of the inner [try] for the item of index [i]. *)
Definition process_item (c : Connection) (operation : jsstring)
    (options : IDataObject) (i : nat) (item : INodeExecutionData) : M World Connection unit :=
  if JsStr.eqb operation (str "executeQuery") then
    query <- lift (getNodeParameter_string this (str "query") i) ;;
    queryParams <- lift (getNodeParameter this (str "queryParams") i (JsObject [])) ;;
    queryParams <-
      lift (Statement.parse_if_string "Invalid JSON in Query Parameters"
              queryParams) ;;
    entries <- lift (JsObj.entries queryParams) ;;
    binds <- lift (Statement.query_binds entries []) ;;
    result <- call_execute driver c query binds (Statement.query_options options) ;;
    if truthy (rows result) && Array_isArray (rows result) then
      match rows result with
      | JsArray l => push_rows l
      | _ => ret tt
      end
    else push (Statement.summary result)
  else if JsStr.eqb operation (str "insert") then
    table <- lift (getNodeParameter_string this (str "table") i) ;;
    columns <- lift (getNodeParameter_string this (str "columns") i) ;;
    stmt <- lift (Statement.insert table columns (json item)) ;;
    result <- call_execute driver c (fst stmt) (snd stmt)
                (Statement.commit_options options) ;;
    push (Statement.summary result)
  else if JsStr.eqb operation (str "update") then
    table <- lift (getNodeParameter_string this (str "table") i) ;;
    updateKey <- lift (getNodeParameter_string this (str "updateKey") i) ;;
    stmt <- lift (Statement.update table updateKey (json item)) ;;
    result <- call_execute driver c (fst stmt) (snd stmt)
                (Statement.commit_options options) ;;
    push (Statement.summary result)
  else if JsStr.eqb operation (str "delete") then
    table <- lift (getNodeParameter_string this (str "table") i) ;;
    deleteKey <- lift (getNodeParameter_string this (str "deleteKey") i) ;;
    stmt <- lift (Statement.delete table deleteKey (json item)) ;;
    result <- call_execute driver c (fst stmt) (snd stmt)
                (Statement.commit_options options) ;;
    push (Statement.summary result)
  else if JsStr.eqb operation (str "executeProcedure") then
    procedure <- lift (getNodeParameter_string this (str "procedure") i) ;;
    procedureParams <-
      lift (getNodeParameter this (str "procedureParams") i (JsObject [])) ;;
    procedureParams <-
      lift (Statement.parse_if_string "Invalid JSON in Procedure Parameters"
              procedureParams) ;;
    stmt <- lift (Statement.procedure procedure procedureParams) ;;
    result <- call_execute driver c (fst stmt) (snd stmt)
                (Statement.commit_options options) ;;
    push (Statement.procedure_summary result)
  else ret tt.

(** The [catch] of the inner [try]. *)
Definition on_item_error (error : Exn) : M World Connection unit :=
  if continueOnFail this then push (Statement.error_item error)
  else raise error.

(** [for (let i = 0; i < items.length; i++)], from index [i] on. *)
Fixpoint loop (c : Connection) (operation : jsstring) (options : IDataObject)
    (i : nat) (items : list INodeExecutionData) : M World Connection unit :=
  match items with
  | [] => ret tt
  | item :: rest =>
      try_catch (process_item c operation options i item) on_item_error ;;
      loop c operation options (S i) rest
  end.

Definition connection_config (credentials : Credentials) : ConnectionAttributes :=
  {| attr_user := user credentials;
     attr_password := password credentials;
     connectString :=
       if truthy (JsString (connectionString credentials))
       then connectionString credentials
       else host credentials ++ str ":" ++ JsNumber.toString (port credentials)
              ++ str "/" ++ serviceName credentials |}.

(** [new NodeOperationError(this.getNode(), message)]. *)
Definition NodeOperationError (message : jsstring) : Exn :=
  ErrorObject ClsNodeOperationError (NodeOperationError_message this message).

(** The outer [catch]. *)
Definition on_error {A} (error : Exn) : M World Connection A :=
  match error with
  | ErrorObject _ message => raise (NodeOperationError message)
  | Thrown _ => raise (NodeOperationError (str "An unknown error occurred"))
  end.

(** The [finally] block. *)
Definition release : M World Connection unit :=
  c <- get_connection ;;
  match c with
  | Some c =>
      try_catch (call_close driver c)
        (fun error => log (EvConsoleError (str "Error closing connection:") error))
  | None => ret tt
  end.

(** [execute]. *)
Definition execute : M World Connection (list (list JsValue)) :=
  let items := getInputData this in
  credentials <- lift (getCredentials this (str "oracleDb")) ;;
  operation <- lift (getNodeParameter_string this (str "operation") 0) ;;
  options <- lift (getNodeParameter_object this (str "options") 0 []) ;;
  try_finally
    (try_catch
       (let connectionConfig := connection_config credentials in
        try_catch (call_initOracleClient driver)
          (fun err =>
             log (EvConsoleLog (str "Oracle client initialization skipped:")
                    (match err with
                     | ErrorObject _ message => message
                     | Thrown _ => str "Unknown error"
                     end))) ;;
        c <- call_getConnection driver connectionConfig ;;
        set_connection c ;;
        loop c operation options 0 items ;;
        returnData <- get_returnData ;;
        ret [returnData])
       on_error)
    release.

(** An invocation: [connection] is undefined and nothing is collected. *)
Definition initial (w : World) : State World Connection :=
  {| world := w; trace := []; connection := None; returnData := [] |}.

Definition run (w : World) : State World Connection * Result (list (list JsValue)) :=
  execute (initial w).

End Execute.

(* ================================================================== *)
(** * The vocabulary of the specification *)
(* ================================================================== *)

Module Spec.

(** A composite value: a structured value that is neither a timestamp nor
    a binary blob. *)
Definition is_composite (v : JsValue) : bool :=
  match v with
  | JsArray _ | JsObject _ | JsCircular _ => true
  | _ => false
  end.

Definition is_boolean (v : JsValue) : bool :=
  match v with JsBool _ => true | _ => false end.

Definition is_string_or_number (v : JsValue) : bool :=
  match v with JsString _ | JsNumber _ => true | _ => false end.

(** The seven rules of the value normalizer, in the order of the
    specification: what a rule applies to, and what it answers. *)
Definition normalizer_rules
  : list ((JsValue -> bool) * (JsValue -> Result JsValue)) :=
  [ (fun v => is_null v || is_undefined v, fun _ => ok JsNull);
    (is_boolean,
     fun v => ok (JsNumber (NInt (match v with JsBool true => 1 | _ => 0 end))));
    (instanceof_Date, fun v => ok v);
    (instanceof_Buffer, fun v => ok v);
    (is_composite, JSON.stringify);
    (is_string_or_number, fun v => ok v);
    (fun _ => true, fun v => ok (JsString (String_ v))) ].

(** First match wins. *)
Fixpoint first_match {A B} (rules : list ((A -> bool) * (A -> B))) (a : A)
  : option B :=
  match rules with
  | [] => None
  | (applies, answer) :: rest =>
      if applies a then Some (answer a) else first_match rest a
  end.



(** Normalizing a list of values, left to right, up to the first error. *)
Fixpoint normalize_all (l : list JsValue) : Result (list JsValue) :=
  match l with
  | [] => ok []
  | v :: rest =>
      let? x := convertToOracleType v in
      let? xs := normalize_all rest in
      ok (x :: xs)
  end.

(** Strings of 16-bit code units. *)
Definition code_units (s : jsstring) : bool :=
  forallb (fun c => (c <? 65536)%N) s.

Definition is_index (k : jsstring) : bool :=
  match JsObj.array_index k with Some _ => true | None => false end.

(** The keys of an object in property order: no key twice, the array
    indices first and ascending, the other keys after them. *)
Fixpoint ordered_keys (ks : list jsstring) : bool :=
  match ks with
  | [] => true
  | k :: rest =>
      forallb (fun k' => negb (JsStr.eqb k' k)) rest
      && match JsObj.array_index k with
         | Some n =>
             forallb (fun k' => match JsObj.array_index k' with
                                | Some n' => (n <? n')%N
                                | None => true
                                end) rest
         | None => forallb (fun k' => negb (is_index k')) rest
         end
      && ordered_keys rest
  end.

(** [Number.isSafeInteger]. *)
Definition is_safe_integer (z : Z) : bool :=
  (Z.abs z <=? 9007199254740991)%Z.

(** Plain JSON data: null, booleans, safe integers, strings, and arrays and
    objects of such, the objects with their keys in property order. *)
Fixpoint json_data (v : JsValue) : bool :=
  match v with
  | JsNull | JsBool _ => true
  | JsNumber (NInt z) => is_safe_integer z
  | JsString s => code_units s
  | JsArray l => forallb json_data l
  | JsObject o =>
      ordered_keys (map fst o)
      && forallb (fun kv => code_units (fst kv) && json_data (snd kv)) o
  | _ => false
  end.

(** The Numbers that a JSON text denotes, sign included: the finite ones,
    negative zero apart. *)
Definition json_number (n : JsNum) : bool :=
  match n with
  | NInt _ => true
  | NDec m e => (e <? 0)%Z && negb (m mod 10 =? 0)%Z
  | _ => false
  end.

(** JSON data: null, booleans, the numbers of [json_number], strings, and
    arrays and objects of such, the objects with their keys in property
    order. *)
Fixpoint json_value (v : JsValue) : bool :=
  match v with
  | JsNull | JsBool _ => true
  | JsNumber n => json_number n
  | JsString s => code_units s
  | JsArray l => forallb json_value l
  | JsObject o =>
      ordered_keys (map fst o)
      && forallb (fun kv => code_units (fst kv) && json_value (snd kv)) o
  | _ => false
  end.

(** The text [t] is read back as the value [v]: it starts with a character
    of a value, it is long enough for the fuel of [v], and the parser reads
    [v] off it whatever delimiter follows. *)
Definition reads_back (v : JsValue) (t : jsstring) : Prop :=
  (exists c t', t = c :: t' /\ JSON.is_ws c = false /\ (c =? 93)%N = false)
  /\ JSON.need v <= length t
  /\ forall fuel rest,
       JSON.need v <= fuel -> JSON.delimited rest = true ->
       JSON.value fuel (t ++ rest) = Some (v, rest).

(** The field [name] of the [json] payload of an emitted item. *)
Definition field (item : JsValue) (name : string) : option JsValue :=
  match item with
  | JsObject o =>
      match JsObj.own_property o (str "json") with
      | Some (JsObject payload) => JsObj.own_property payload (str name)
      | _ => None
      end
  | _ => None
  end.

(** The bind names [prefix1], [prefix2], ... *)
Definition numbered (prefix : string) (first n : nat) : list jsstring :=
  map (fun i => str prefix ++ dec_nat i) (seq first n).

End Spec.

(** ** The parts of a number literal *)

(** The text of an exponent: none, [e+E] or [e-E]. *)
Definition exponent_text (exponent : option (bool * N)) : jsstring :=
  match exponent with
  | None => []
  | Some (negative, E) =>
      101%N :: (if negative then 45%N else 43%N) :: dec E
  end.

Definition exponent_value (exponent : option (bool * N)) : Z :=
  match exponent with
  | None => 0%Z
  | Some (negative, E) => if negative then (- Z.of_N E)%Z else Z.of_N E
  end.

(** The text of a fraction: none, or a point and digits. *)
Definition fraction_text (frac : list DecimalFacts.digits) : jsstring :=
  match frac with
  | [] => []
  | _ => 46%N :: map digit_unit frac
  end.

(** An integer part as JSON allows it: a digit, and no zero before
    another digit. *)
Definition integer_part (int : list DecimalFacts.digits) : bool :=
  match int with
  | [] => false
  | DecimalFacts.d0 :: _ :: _ => false
  | _ => true
  end.

(** The value of a numeral read from its last digit. *)
Definition value_lu (l : list DecimalFacts.digits) : N :=
  DecimalPos.Unsigned.of_lu (DecimalFacts.of_list l).

Definition digit_value (d : DecimalFacts.digits) : N :=
  value_lu [d].

(* ================================================================== *)
(** * Requests: what one record asks of the connection *)
(* ================================================================== *)

(** The fields of the record that are updated: all but the key field, in
    the record's own order. *)
Definition updatable (updateKey : jsstring) (itemData : IDataObject) : IDataObject :=
  filter (fun kv => negb (JsStr.eqb (fst kv) updateKey)) itemData.

(** The assignments [field = :valN] of a SET clause, numbered from [first]. *)
Definition assignments (fields : list jsstring) (first : nat) : list jsstring :=
  map (fun ki => fst ki ++ str " = :val" ++ dec_nat (snd ki))
      (combine fields (seq first (length fields))).

(** The statement of one record: its text, its binds, the options of the
    execution, and the items emitted for what the execution answers. *)
Record OperationRequest : Type := {
  req_sql : jsstring;
  req_binds : IDataObject;
  req_options : ExecuteOptions;
  req_outputs : ExecuteResult -> list JsValue
}.

(** The items of an executeQuery: one per returned row, or one summary. *)
Definition query_outputs (result : ExecuteResult) : list JsValue :=
  if truthy (rows result) && Array_isArray (rows result) then
    match rows result with
    | JsArray l => map Statement.row_item l
    | _ => []
    end
  else [Statement.summary result].

Definition known_operations : list jsstring :=
  [ str "executeQuery"; str "insert"; str "update"; str "delete";
    str "executeProcedure" ].

Definition is_known_operation (operation : jsstring) : bool :=
  existsb (JsStr.eqb operation) known_operations.

(** The options an operation executes its statements with. *)
Definition options_of (operation : jsstring) (options : IDataObject)
  : ExecuteOptions :=
  if JsStr.eqb operation (str "executeQuery")
  then Statement.query_options options
  else Statement.commit_options options.

Section Requests.

Variables World Connection : Type.
Variable driver : Driver World Connection.
Variable this : Host.

(** The request of the item of index [i]: an error when a parameter or the
    statement fails, nothing when the operation is none of the five. *)
Definition request (operation : jsstring) (options : IDataObject) (i : nat)
    (item : INodeExecutionData) : Result (option OperationRequest) :=
  if JsStr.eqb operation (str "executeQuery") then
    let? query := getNodeParameter_string this (str "query") i in
    let? queryParams := getNodeParameter this (str "queryParams") i (JsObject []) in
    let? queryParams :=
      Statement.parse_if_string "Invalid JSON in Query Parameters" queryParams in
    let? entries := JsObj.entries queryParams in
    let? binds := Statement.query_binds entries [] in
    ok (Some {| req_sql := query; req_binds := binds;
                req_options := Statement.query_options options;
                req_outputs := query_outputs |})
  else if JsStr.eqb operation (str "insert") then
    let? table := getNodeParameter_string this (str "table") i in
    let? columns := getNodeParameter_string this (str "columns") i in
    let? stmt := Statement.insert table columns (json item) in
    ok (Some {| req_sql := fst stmt; req_binds := snd stmt;
                req_options := Statement.commit_options options;
                req_outputs := fun result => [Statement.summary result] |})
  else if JsStr.eqb operation (str "update") then
    let? table := getNodeParameter_string this (str "table") i in
    let? updateKey := getNodeParameter_string this (str "updateKey") i in
    let? stmt := Statement.update table updateKey (json item) in
    ok (Some {| req_sql := fst stmt; req_binds := snd stmt;
                req_options := Statement.commit_options options;
                req_outputs := fun result => [Statement.summary result] |})
  else if JsStr.eqb operation (str "delete") then
    let? table := getNodeParameter_string this (str "table") i in
    let? deleteKey := getNodeParameter_string this (str "deleteKey") i in
    let? stmt := Statement.delete table deleteKey (json item) in
    ok (Some {| req_sql := fst stmt; req_binds := snd stmt;
                req_options := Statement.commit_options options;
                req_outputs := fun result => [Statement.summary result] |})
  else if JsStr.eqb operation (str "executeProcedure") then
    let? procedure := getNodeParameter_string this (str "procedure") i in
    let? procedureParams :=
      getNodeParameter this (str "procedureParams") i (JsObject []) in
    let? procedureParams :=
      Statement.parse_if_string "Invalid JSON in Procedure Parameters"
        procedureParams in
    let? stmt := Statement.procedure procedure procedureParams in
    ok (Some {| req_sql := fst stmt; req_binds := snd stmt;
                req_options := Statement.commit_options options;
                req_outputs := fun result => [Statement.procedure_summary result] |})
  else ok None.

Definition push_all (items : list JsValue) (s : State World Connection)
  : State World Connection :=
  {| world := world s; trace := trace s; connection := connection s;
     returnData := returnData s ++ items |}.

(** Executing a request once on the connection [c] and emitting its items. *)
Definition perform (c : Connection) (r : Result (option OperationRequest))
    (s : State World Connection) : State World Connection * Result unit :=
  match r with
  | inl e => (s, throw e)
  | inr None => (s, ok tt)
  | inr (Some rq) =>
      let (w, answer) :=
        connection_execute driver c (req_sql rq) (req_binds rq) (req_options rq)
          (world s) in
      let s' :=
        with_world w (emit (EvExecute (req_sql rq) (req_binds rq) (req_options rq)) s) in
      match answer with
      | inl e => (s', throw e)
      | inr result => (push_all (req_outputs rq result) s', ok tt)
      end
  end.

(** The error the outer [catch] raises for [error]: the NodeOperationError
    constructed from its message. *)
Definition wrap (error : Exn) : Exn :=
  match error with
  | ErrorObject _ message => NodeOperationError this message
  | Thrown _ => NodeOperationError this (str "An unknown error occurred")
  end.

(** The state once the client initialization has been attempted. *)
Definition started (w : World) : State World Connection :=
  fst (try_catch (call_initOracleClient driver)
         (fun err =>
            log (EvConsoleLog (str "Oracle client initialization skipped:")
                   (match err with
                    | ErrorObject _ message => message
                    | Thrown _ => str "Unknown error"
                    end)))
         (initial Connection w)).

(** The attempt to connect with the credentials [credentials]. *)
Definition connected (credentials : Credentials) (w : World)
  : State World Connection * Result Connection :=
  call_getConnection driver (connection_config credentials) (started w).

(** The state in which the loop starts: [connection] is assigned. *)
Definition assigned (c : Connection) (s : State World Connection)
  : State World Connection :=
  {| world := world s; trace := trace s; connection := Some c;
     returnData := returnData s |}.


End Requests.

(* ================================================================== *)
(** * Sample invocations *)
(* ================================================================== *)

Module Sample.

Definition employee : IDataObject :=
  [ (str "employee_id", JsNumber (NInt 1001));
    (str "first_name", JsString (str "John")) ].

Definition raise_of : IDataObject :=
  [ (str "employee_id", JsNumber (NInt 1001));
    (str "salary", JsNumber (NInt 75000)) ].

Definition credentials : Credentials :=
  {| host := str "db"; port := NInt 1521; serviceName := str "ORCL";
     user := str "scott"; password := str "tiger"; connectionString := [] |}.

(** A host with three input items, whose string parameters are given by
    [strings] and whose json parameters are [params].  The messages of the
    samples name no Node.js error code: the NodeOperationError made of one
    keeps it. *)
Definition host (operation : string) (strings : list (string * string))
    (params : JsValue) (continue : bool) (items : list IDataObject) : Host :=
  {| getInputData := map (fun o => {| json := o |}) items;
     getCredentials := fun _ => ok credentials;
     getNodeParameter_string := fun name _ =>
       if JsStr.eqb name (str "operation") then ok (str operation)
       else match find (fun kv => JsStr.eqb name (str (fst kv))) strings with
            | Some kv => ok (str (snd kv))
            | None => ok []
            end;
     getNodeParameter_object := fun _ _ fallback => ok fallback;
     getNodeParameter := fun _ _ _ => ok params;
     continueOnFail := continue;
     NodeOperationError_message := fun message => message |}.

Definition answer (r : JsValue) (n : Z) (out : JsValue) : ExecuteResult :=
  {| rows := r; rowsAffected := JsNumber (NInt n); outBinds := out |}.

(** A driver over a world that counts the executions: the execution
    number [failing] (from 0) fails, the others answer [result]. *)
Definition driver (connects : bool) (failing : option nat)
    (result : ExecuteResult) (closes : bool) : Driver nat unit :=
  {| initOracleClient := fun w => (w, None);
     getConnection := fun _ w =>
       (w, if connects then ok tt
           else throw (ErrorObject ClsError (str "ORA-12541: no listener")));
     connection_execute := fun _ _ _ _ w =>
       (S w,
        match failing with
        | Some k => if Nat.eqb w k
                    then throw (ErrorObject ClsError (str "ORA-00001"))
                    else ok result
        | None => ok result
        end);
     connection_close := fun _ w =>
       (w, if closes then None
           else Some (ErrorObject ClsError (str "close failed"))) |}.

Definition insert_host (continue : bool) : Host :=
  host "insert"
    [("table", "employees"); ("columns", "employee_id,first_name")]%string
    (JsObject []) continue [employee; employee; employee].

Definition query_host : Host :=
  host "executeQuery" [("query", "SELECT * FROM employees")]%string
    (JsObject []) true [employee].

Definition procedure_host : Host :=
  host "executeProcedure" [("procedure", "RAISE_SALARY")]%string
    (JsObject [(str "emp_id", JsNumber (NInt 1001))]) false [employee].

Definition unknown_host : Host :=
  host "merge" [] (JsObject []) false [employee; employee].

Definition done : ExecuteResult := answer JsUndefined 1 JsUndefined.

Definition two_rows : ExecuteResult :=
  answer (JsArray [JsObject employee; JsObject raise_of]) 0 JsUndefined.

Definition with_out : ExecuteResult :=
  answer JsUndefined 0 (JsObject [(str "total", JsNumber (NInt 7))]).

End Sample.

(* ================================================================== *)
(** * The node description and the credential type *)
(* ================================================================== *)

Inductive NodePropertyType : Type :=
| type_boolean | type_collection | type_json | type_number | type_options
| type_string.

(** [INodePropertyOptions]: one choice of a parameter of type options. *)
Record INodePropertyOptions : Type := {
  option_name : jsstring;
  option_value : jsstring;
  option_description : jsstring
}.

#[local] Unset Elimination Schemes.

(** [INodeProperties], with the fields the two classes fill.  The field
    [options] of the source holds the choices of a parameter of type options
    and the parameters of a collection: they are [options] and [values]
    here.  [displayOptions] is the list under [show.operation]. *)
Inductive INodeProperties : Type := Build_INodeProperties {
  displayName : jsstring;
  name : jsstring;
  type : NodePropertyType;
  noDataExpression : bool;
  typeOptions : IDataObject;
  displayOptions : option (list jsstring);
  default : JsValue;
  placeholder : option jsstring;
  required : bool;
  description : option jsstring;
  options : list INodePropertyOptions;
  values : list INodeProperties
}.

#[local] Set Elimination Schemes.

(** [OracleDb.node.ts]: [description.properties]. *)
Module Description.

Definition operation : INodeProperties :=
  {| displayName := str "Operation";
     name := str "operation";
     type := type_options;
     noDataExpression := true;
     typeOptions := [];
     displayOptions := None;
     default := JsString (str "executeQuery");
     placeholder := None;
     required := false;
     description := None;
     options :=
       [ {| option_name := str "Execute Query";
            option_value := str "executeQuery";
            option_description := str "Execute a SQL query" |};
         {| option_name := str "Execute Stored Procedure";
            option_value := str "executeProcedure";
            option_description := str "Execute a stored procedure" |};
         {| option_name := str "Insert";
            option_value := str "insert";
            option_description := str "Insert rows into a table" |};
         {| option_name := str "Update";
            option_value := str "update";
            option_description := str "Update rows in a table" |};
         {| option_name := str "Delete";
            option_value := str "delete";
            option_description := str "Delete rows from a table" |} ];
     values := [] |}.

Definition query : INodeProperties :=
  {| displayName := str "Query";
     name := str "query";
     type := type_string;
     noDataExpression := false;
     typeOptions := [(str "rows", JsNumber (NInt 5))];
     displayOptions := Some [str "executeQuery"];
     default := JsString [];
     placeholder := Some (str "SELECT * FROM users WHERE id = :id");
     required := true;
     description :=
       Some (str "The SQL query to execute. Use :paramName for named parameters");
     options := [];
     values := [] |}.

Definition queryParams : INodeProperties :=
  {| displayName := str "Query Parameters";
     name := str "queryParams";
     type := type_json;
     noDataExpression := false;
     typeOptions := [];
     displayOptions := Some [str "executeQuery"];
     default := JsString (str "{}");
     placeholder := Some (str "{" ++ [34%N] ++ str "id" ++ [34%N] ++ str ": 1}");
     required := false;
     description :=
       Some (str "Parameters to bind to the query. Parameter names should match the :paramName in the query");
     options := [];
     values := [] |}.

Definition table : INodeProperties :=
  {| displayName := str "Table";
     name := str "table";
     type := type_string;
     noDataExpression := false;
     typeOptions := [];
     displayOptions := Some [str "insert"; str "update"; str "delete"];
     default := JsString [];
     placeholder := None;
     required := true;
     description := Some (str "The name of the table");
     options := [];
     values := [] |}.

Definition columns : INodeProperties :=
  {| displayName := str "Columns";
     name := str "columns";
     type := type_string;
     noDataExpression := false;
     typeOptions := [];
     displayOptions := Some [str "insert"];
     default := JsString [];
     placeholder := Some (str "id,name,email");
     required := false;
     description := Some (str "Comma-separated list of columns to insert");
     options := [];
     values := [] |}.

Definition updateKey : INodeProperties :=
  {| displayName := str "Update Key";
     name := str "updateKey";
     type := type_string;
     noDataExpression := false;
     typeOptions := [];
     displayOptions := Some [str "update"];
     default := JsString (str "id");
     placeholder := None;
     required := false;
     description := Some (str "The column to use for matching rows to update");
     options := [];
     values := [] |}.

Definition deleteKey : INodeProperties :=
  {| displayName := str "Delete Key";
     name := str "deleteKey";
     type := type_string;
     noDataExpression := false;
     typeOptions := [];
     displayOptions := Some [str "delete"];
     default := JsString (str "id");
     placeholder := None;
     required := false;
     description := Some (str "The column to use for matching rows to delete");
     options := [];
     values := [] |}.

Definition procedure : INodeProperties :=
  {| displayName := str "Procedure Name";
     name := str "procedure";
     type := type_string;
     noDataExpression := false;
     typeOptions := [];
     displayOptions := Some [str "executeProcedure"];
     default := JsString [];
     placeholder := None;
     required := true;
     description := Some (str "The name of the stored procedure");
     options := [];
     values := [] |}.

Definition procedureParams : INodeProperties :=
  {| displayName := str "Procedure Parameters";
     name := str "procedureParams";
     type := type_json;
     noDataExpression := false;
     typeOptions := [];
     displayOptions := Some [str "executeProcedure"];
     default := JsString (str "{}");
     placeholder := None;
     required := false;
     description := Some (str "Parameters for the stored procedure");
     options := [];
     values := [] |}.

(** A parameter of the collection [options]. *)
Definition option_parameter (displayName name : string) (type : NodePropertyType)
    (default : JsValue) (description : string) : INodeProperties :=
  {| displayName := str displayName;
     name := str name;
     type := type;
     noDataExpression := false;
     typeOptions := [];
     displayOptions := None;
     default := default;
     placeholder := None;
     required := false;
     description := Some (str description);
     options := [];
     values := [] |}.

Definition options_collection : INodeProperties :=
  {| displayName := str "Options";
     name := str "options";
     type := type_collection;
     noDataExpression := false;
     typeOptions := [];
     displayOptions := None;
     default := JsObject [];
     placeholder := Some (str "Add Option");
     required := false;
     description := None;
     options := [];
     values :=
       [ option_parameter "Auto Commit" "autoCommit" type_boolean (JsBool true)
           "Whether to auto-commit transactions";
         option_parameter "Fetch Size" "fetchSize" type_number (JsNumber (NInt 100))
           "Number of rows to fetch at a time";
         option_parameter "Max Rows" "maxRows" type_number (JsNumber (NInt 0))
           "Maximum number of rows to return (0 = no limit)" ] |}.

Definition properties : list INodeProperties :=
  [ operation; query; queryParams; table; columns; updateKey; deleteKey;
    procedure; procedureParams; options_collection ].

(** A parameter is displayed for an operation when it has no display
    condition, or when the operation is among those that show it. *)
Definition shown (selected : jsstring) (p : INodeProperties) : bool :=
  match displayOptions p with
  | None => true
  | Some operations => existsb (JsStr.eqb selected) operations
  end.

(** The options object in which every parameter of the collection has its
    declared default. *)
Definition default_options : IDataObject :=
  map (fun p => (name p, default p)) (values options_collection).

End Description.

(** [OracleDb.credentials.ts]: the credential type [oracleDb]. *)
Module CredentialType.

Definition credential_name : jsstring := str "oracleDb".

Definition field (displayName name : string) (type : NodePropertyType)
    (default : JsValue) (description : string) : INodeProperties :=
  {| displayName := str displayName;
     name := str name;
     type := type;
     noDataExpression := false;
     typeOptions := [];
     displayOptions := None;
     default := default;
     placeholder := None;
     required := false;
     description := Some (str description);
     options := [];
     values := [] |}.

Definition properties : list INodeProperties :=
  [ field "Host" "host" type_string (JsString (str "localhost"))
      "The Oracle database host";
    field "Port" "port" type_number (JsNumber (NInt 1521))
      "The Oracle database port";
    field "Service Name" "serviceName" type_string (JsString [])
      "The Oracle database service name (e.g., ORCL)";
    field "User" "user" type_string (JsString [])
      "The Oracle database user";
    {| displayName := str "Password";
       name := str "password";
       type := type_string;
       noDataExpression := false;
       typeOptions := [(str "password", JsBool true)];
       displayOptions := None;
       default := JsString [];
       placeholder := None;
       required := false;
       description := Some (str "The Oracle database password");
       options := [];
       values := [] |};
    {| displayName := str "Connection String (Optional)";
       name := str "connectionString";
       type := type_string;
       noDataExpression := false;
       typeOptions := [];
       displayOptions := None;
       default := JsString [];
       placeholder :=
         Some (str "(DESCRIPTION=(ADDRESS=(PROTOCOL=TCP)(HOST=localhost)(PORT=1521))(CONNECT_DATA=(SERVICE_NAME=ORCL)))");
       required := false;
       description :=
         Some (str "Optional: Full connection string (overrides host, port, and service name)");
       options := [];
       values := [] |} ].

(** The declared default of the field [name]. *)
Definition default_of (field_name : string) : JsValue :=
  match find (fun p => JsStr.eqb (name p) (str field_name)) properties with
  | Some p => default p
  | None => JsUndefined
  end.

End CredentialType.

(* ================================================================== *)
(** * The vocabulary of the further properties *)
(* ================================================================== *)

(** The values of the type [string | number | Date | Buffer | null] that
    [convertToOracleType] declares to return. *)
Definition oracle_type (v : JsValue) : bool :=
  match v with
  | JsNull | JsNumber _ | JsString _ | JsDate _ | JsBuffer _ => true
  | _ => false
  end.


(** The call of [connection.execute] that a request makes. *)
Definition execution (r : Result (option OperationRequest)) : list Event :=
  match r with
  | inr (Some rq) => [EvExecute (req_sql rq) (req_binds rq) (req_options rq)]
  | _ => []
  end.

(** The executions the items ask for, in input order, from index [i] on. *)
Fixpoint planned (this : Host) (operation : jsstring) (options : IDataObject)
    (i : nat) (items : list INodeExecutionData) : list Event :=
  match items with
  | [] => []
  | item :: rest =>
      execution (request this operation options i item)
        ++ planned this operation options (S i) rest
  end.

(** An emitted item: an object with the one field [json]. *)
Definition is_item (v : JsValue) : bool :=
  match v with
  | JsObject [(k, _)] => JsStr.eqb k (str "json")
  | _ => false
  end.

(** The driver with another [initOracleClient]. *)
Definition with_init {World Connection} (driver : Driver World Connection)
    (init : World -> World * option Exn) : Driver World Connection :=
  {| initOracleClient := init;
     getConnection := getConnection driver;
     connection_execute := connection_execute driver;
     connection_close := connection_close driver |}.

(** The host in which the json parameter [param] resolves to [v]. *)
Definition with_parameter (this : Host) (param : jsstring) (v : JsValue) : Host :=
  {| getInputData := getInputData this;
     getCredentials := getCredentials this;
     getNodeParameter_string := getNodeParameter_string this;
     getNodeParameter_object := getNodeParameter_object this;
     getNodeParameter := fun parameterName i fallback =>
       if JsStr.eqb parameterName param then ok v
       else getNodeParameter this parameterName i fallback;
     continueOnFail := continueOnFail this;
     NodeOperationError_message := NodeOperationError_message this |}.

(** The host with continue-past-failure set to [continue]. *)
Definition with_continueOnFail (this : Host) (continue : bool) : Host :=
  {| getInputData := getInputData this;
     getCredentials := getCredentials this;
     getNodeParameter_string := getNodeParameter_string this;
     getNodeParameter_object := getNodeParameter_object this;
     getNodeParameter := getNodeParameter this;
     continueOnFail := continue;
     NodeOperationError_message := NodeOperationError_message this |}.

(** A column written with white space around it. *)
Definition padded (before column after : jsstring) : jsstring :=
  before ++ column ++ after.

(** A string that [trim] leaves as it is: no white space at either end. *)
Definition is_trimmed (s : jsstring) : bool :=
  match s with
  | [] => true
  | c :: _ => negb (is_trim_space c) && negb (is_trim_space (last s c))
  end.

(** Two states that differ in the recorded calls only. *)
Definition same_data {World Connection} (s1 s2 : State World Connection) : Prop :=
  world s1 = world s2 /\ connection s1 = connection s2
  /\ returnData s1 = returnData s2.

(* ================================================================== *)
(** * Properties *)
(* ================================================================== *)

Unset Implicit Arguments.

(** ** Strings and decimal numerals *)

Lemma eqb_eq (a b : jsstring) : JsStr.eqb a b = true <-> a = b.
Proof.
  revert b; induction a as [|x a IH]; intros [|y b]; simpl;
    try (split; intro H; [reflexivity || discriminate | reflexivity || discriminate]).
  rewrite andb_true_iff, N.eqb_eq, IH.
  split; [intros [-> ->]; reflexivity | intros H; inversion H; auto].
Qed.

Lemma eqb_refl (a : jsstring) : JsStr.eqb a a = true.
Proof. apply eqb_eq; reflexivity. Qed.

Lemma eqb_neq (a b : jsstring) : JsStr.eqb a b = false <-> a <> b.
Proof.
  rewrite <- eqb_eq. destruct (JsStr.eqb a b); split; congruence.
Qed.

Lemma digit_unit_inj (d d' : DecimalFacts.digits) :
  digit_unit d = digit_unit d' -> d = d'.
Proof. destruct d, d'; simpl; intros H; try reflexivity; discriminate H. Qed.

Lemma unit_digit_unit (d : DecimalFacts.digits) :
  unit_digit (digit_unit d) = Some d.
Proof. destruct d; reflexivity. Qed.

Lemma units_inj (ds ds' : list DecimalFacts.digits) :
  map digit_unit ds = map digit_unit ds' -> ds = ds'.
Proof.
  revert ds'; induction ds as [|d ds IH]; intros [|d' ds']; simpl; intros H;
    try reflexivity; try discriminate H.
  inversion H as [[Hd Hds]]. apply digit_unit_inj in Hd. apply IH in Hds.
  congruence.
Qed.

Lemma dec_inj (n m : N) : dec n = dec m -> n = m.
Proof.
  unfold dec. intros H. apply units_inj in H.
  apply DecimalFacts.to_list_inj in H.
  apply DecimalN.Unsigned.to_uint_inj in H. exact H.
Qed.

Lemma dec_nat_inj (n m : nat) : dec_nat n = dec_nat m -> n = m.
Proof. unfold dec_nat. intros H. apply dec_inj in H. lia. Qed.

Lemma str_app_inj (p : jsstring) (a b : jsstring) : p ++ a = p ++ b -> a = b.
Proof. apply app_inv_head. Qed.

(** ** Induction on values *)

Lemma JsValue_ind (P : JsValue -> Prop) :
  P JsUndefined -> P JsNull -> (forall b, P (JsBool b)) ->
  (forall n, P (JsNumber n)) -> (forall s, P (JsString s)) ->
  (forall z, P (JsBigInt z)) -> (forall d, P (JsSymbol d)) ->
  (forall src, P (JsFunction src)) -> (forall t, P (JsDate t)) ->
  (forall bytes, P (JsBuffer bytes)) ->
  (forall l, Forall P l -> P (JsArray l)) ->
  (forall o, Forall (fun kv => P (snd kv)) o -> P (JsObject o)) ->
  (forall up, P (JsCircular up)) ->
  forall v, P v.
Proof.
  intros Hu Hn Hb Hnum Hs Hbig Hsym Hf Hd Hbuf Harr Hobj Hup.
  fix IH 1. intros [| |b|n|s|z|d|src|t|bytes|l|o|up];
    [ exact Hu | exact Hn | apply Hb | apply Hnum | apply Hs | apply Hbig
    | apply Hsym | apply Hf | apply Hd | apply Hbuf | | | apply Hup ].
  - apply Harr. induction l as [|x l IHl]; constructor; [apply IH | exact IHl].
  - apply Hobj. induction o as [|[k x] o IHo]; constructor; [apply IH | exact IHo].
Qed.

(** ** The value normalizer *)


(** C2.  The value normalizer answers with the first rule of the
    specification, taken in order, that applies to its input: null and
    undefined give null; a boolean gives the integer 1 or 0 of its truth
    value; a Date and a Buffer pass through; any other structured value
    gives its JSON text; a string and a number pass through; anything else
    gives its string representation. *)
Theorem convertToOracleType_first_rule (v : JsValue) :
  Spec.first_match Spec.normalizer_rules v = Some (convertToOracleType v)
  /\ convertToOracleType JsNull = ok JsNull
  /\ convertToOracleType JsUndefined = ok JsNull
  /\ (forall b : bool,
        convertToOracleType (JsBool b) = ok (JsNumber (NInt (if b then 1 else 0))))
  /\ (forall t, convertToOracleType (JsDate t) = ok (JsDate t))
  /\ (forall bytes, convertToOracleType (JsBuffer bytes) = ok (JsBuffer bytes))
  /\ (Spec.is_composite v = true -> convertToOracleType v = JSON.stringify v)
  /\ (forall s, convertToOracleType (JsString s) = ok (JsString s))
  /\ (forall n, convertToOracleType (JsNumber n) = ok (JsNumber n))
  /\ (forall z, convertToOracleType (JsBigInt z) = ok (JsString (dec_Z z)))
  /\ (forall d, convertToOracleType (JsSymbol d)
                = ok (JsString (str "Symbol(" ++ d ++ str ")")))
  /\ (forall src, convertToOracleType (JsFunction src) = ok (JsString src)).
Proof.
  repeat match goal with |- _ /\ _ => split end; try reflexivity.
  - destruct v as [| |[|]|n|s|z|d|src|t|bytes|l|o|up]; reflexivity.
  - destruct v; simpl; intros H; try discriminate H; reflexivity.
Qed.



(** The text of [{a: 1n}]: the BigInt is written as a string. *)
Example bigint_member_text :
  convertToOracleType (JsObject [(str "a", JsBigInt 1)])
  = ok (JsString (str "{" ++ JSON.quote (str "a") ++ str ":"
                    ++ JSON.quote (str "1") ++ str "}")).
Proof. reflexivity. Qed.


(** ** Objects *)

Lemma has_own_false (o : IDataObject) (k : jsstring) :
  ~ In k (map fst o) -> JsObj.has_own o k = false.
Proof.
  unfold JsObj.has_own. induction o as [|[k' v] o IH]; simpl; intros H.
  - reflexivity.
  - destruct (JsStr.eqb k' k) eqn:E.
    + apply eqb_eq in E. tauto.
    + apply IH. tauto.
Qed.

Lemma array_index_letter (c : N) (k : jsstring) :
  unit_digit c = None -> JsObj.array_index (c :: k) = None.
Proof.
  intros H. unfold JsObj.array_index. simpl. rewrite H. reflexivity.
Qed.

(** Assigning a new key that is no array index adds it last. *)
Lemma set_new_key (k : jsstring) (v : JsValue) (o : IDataObject) :
  JsObj.array_index k = None -> k <> str "__proto__" ->
  ~ In k (map fst o) ->
  JsObj.set k v o = o ++ [(k, v)].
Proof.
  intros Hidx Hproto Hnew. unfold JsObj.set, JsObj.define.
  apply eqb_neq in Hproto. rewrite Hproto. simpl.
  rewrite (has_own_false _ _ Hnew), Hidx. reflexivity.
Qed.

Lemma numbered_length (prefix : string) (first n : nat) :
  length (Spec.numbered prefix first n) = n.
Proof. unfold Spec.numbered. rewrite length_map, length_seq. reflexivity. Qed.

Lemma numbered_In (prefix : string) (first n : nat) (k : jsstring) :
  In k (Spec.numbered prefix first n) <->
  exists i, first <= i < first + n /\ k = str prefix ++ dec_nat i.
Proof.
  unfold Spec.numbered. rewrite in_map_iff. split.
  - intros [i [<- Hi]]. apply in_seq in Hi. exists i. auto.
  - intros [i [Hi ->]]. exists i. split; [reflexivity | apply in_seq; exact Hi].
Qed.

Lemma numbered_cons (prefix : string) (first n : nat) :
  Spec.numbered prefix first (S n)
  = (str prefix ++ dec_nat first) :: Spec.numbered prefix (S first) n.
Proof. reflexivity. Qed.


Lemma normalize_all_length (l xs : list JsValue) :
  Spec.normalize_all l = ok xs -> length xs = length l.
Proof.
  revert xs; induction l as [|v l IH]; simpl; intros xs H.
  - inversion H. reflexivity.
  - destruct (convertToOracleType v) as [e|x]; simpl in H; [discriminate H|].
    destruct (Spec.normalize_all l) as [e|xs']; simpl in H; [discriminate H|].
    inversion H. simpl. f_equal. apply IH. reflexivity.
Qed.

(** ** Splitting and trimming the columns *)


Lemma split_pieces (sep : N) (s : jsstring) :
  Forall (fun piece => ~ In sep piece) (split sep s).
Proof.
  induction s as [|c s IH]; simpl.
  - constructor; [intros []|constructor].
  - destruct (N.eqb_spec c sep) as [->|Hc].
    + constructor; [intros []|exact IH].
    + destruct (split sep s) as [|p ps].
      * constructor; [|constructor]. intros [Hin|[]]. congruence.
      * inversion IH as [|? ? Hp Hps]. constructor; [|exact Hps].
        intros [Hin|Hin]; [congruence | exact (Hp Hin)].
Qed.


Lemma trim_start_spec (s : jsstring) :
  exists spaces, s = spaces ++ trim_start s
                 /\ forallb is_trim_space spaces = true
                 /\ (match trim_start s with
                     | c :: _ => is_trim_space c = false
                     | [] => True
                     end).
Proof.
  induction s as [|c s [sp [E [Hsp Hhd]]]]; simpl.
  - exists []. auto.
  - destruct (is_trim_space c) eqn:Hc.
    + exists (c :: sp). simpl. rewrite Hc, Hsp. split; [f_equal; exact E | auto].
    + exists []. simpl. rewrite Hc. auto.
Qed.

(** [trim] removes a run of white space at each end, and nothing else. *)
Lemma trim_spec (s : jsstring) :
  exists before after,
    s = before ++ trim s ++ after
    /\ forallb is_trim_space before = true
    /\ forallb is_trim_space after = true
    /\ (match trim s with c :: _ => is_trim_space c = false | [] => True end)
    /\ (match rev (trim s) with c :: _ => is_trim_space c = false | [] => True end).
Proof.
  unfold trim, trim_end.
  destruct (trim_start_spec s) as [before [E1 [H1 Hhd]]].
  destruct (trim_start_spec (rev (trim_start s))) as [after [E2 [H2 Hlast]]].
  set (t := trim_start s) in *. set (u := trim_start (rev t)) in *.
  assert (Et : t = rev u ++ rev after).
  { rewrite <- rev_app_distr, <- E2, rev_involutive. reflexivity. }
  exists before, (rev after). repeat split.
  - rewrite <- Et. exact E1.
  - exact H1.
  - rewrite forallb_forall in *. intros x Hx. apply H2. apply in_rev. exact Hx.
  - destruct (rev u) as [|c r] eqn:Er; [exact I|].
    rewrite Et in Hhd. simpl in Hhd. exact Hhd.
  - rewrite rev_involutive. exact Hlast.
Qed.

(** ** The generated statements *)

Lemma val_name_plain (x : jsstring) :
  JsObj.array_index (str "val" ++ x) = None /\ str "val" ++ x <> str "__proto__".
Proof. split; [reflexivity | discriminate]. Qed.

Lemma key_name_plain (x : jsstring) :
  JsObj.array_index (str "key" ++ x) = None /\ str "key" ++ x <> str "__proto__".
Proof. split; [reflexivity | discriminate]. Qed.





Lemma combine_fst {A B} (a : list A) (b : list B) :
  length a = length b -> map fst (combine a b) = a.
Proof.
  revert b; induction a as [|x a IH]; intros [|y b]; simpl; intros H;
    try reflexivity; try discriminate H.
  f_equal. apply IH. lia.
Qed.


(** The insert statement of the specification's example. *)
Example insert_employee :
  Statement.insert (str "employees") (str "employee_id,first_name") Sample.employee
  = ok (str "INSERT INTO employees (employee_id,first_name) VALUES (:val1,:val2)",
        [ (str "val1", JsNumber (NInt 1001));
          (str "val2", JsString (str "John")) ]).
Proof. reflexivity. Qed.

Lemma assignments_cons (k : jsstring) (ks : list jsstring) (first : nat) :
  assignments (k :: ks) first
  = (k ++ str " = :val" ++ dec_nat first) :: assignments ks (S first).
Proof. reflexivity. Qed.

Lemma update_fields_spec (updateKey : jsstring) (entries : IDataObject) :
  forall (binds : IDataObject) (updates : list jsstring) (p : nat),
    (forall k, In k (map fst binds) ->
               exists j, j < p /\ k = str "val" ++ dec_nat j) ->
    let fields := updatable updateKey entries in
    Statement.update_fields entries updateKey binds updates p
    = (let? xs := Spec.normalize_all (map snd fields) in
       ok (binds ++ combine (Spec.numbered "val" p (length fields)) xs,
           updates ++ assignments (map fst fields) p,
           p + length fields)).
Proof.
  induction entries as [|[key value] entries IH]; intros binds updates p Hkeys.
  - simpl. rewrite !app_nil_r, Nat.add_0_r. reflexivity.
  - cbn [Statement.update_fields updatable filter fst].
    destruct (JsStr.eqb key updateKey) eqn:Ek; cbn [negb].
    + apply IH. exact Hkeys.
    + cbn [map snd length Spec.normalize_all fst].
      destruct (convertToOracleType value) as [e|v]; [reflexivity|].
      cbn [rbind]. destruct (val_name_plain (dec_nat p)) as [Hidx Hproto].
      rewrite set_new_key; [|exact Hidx|exact Hproto|].
      * rewrite IH.
        -- fold (updatable updateKey entries).
           destruct (Spec.normalize_all (map snd (updatable updateKey entries)))
             as [e|xs]; [reflexivity|].
           cbn [rbind]. rewrite numbered_cons, assignments_cons. cbn [combine].
           rewrite <- !app_assoc, Nat.add_succ_r. reflexivity.
        -- intros k Hk. rewrite map_app, in_app_iff in Hk. destruct Hk as [Hk|Hk].
           ++ destruct (Hkeys k Hk) as [j [Hj ->]]. exists j. split; [lia|reflexivity].
           ++ simpl in Hk. destruct Hk as [<-|[]]. exists p. auto.
      * intros Hin. destruct (Hkeys _ Hin) as [j [Hj E]].
        apply app_inv_head in E. apply dec_nat_inj in E. lia.
Qed.



(** The update statement of the specification's example. *)
Example update_employee :
  Statement.update (str "employees") (str "employee_id") Sample.raise_of
  = ok (str "UPDATE employees SET salary = :val1 WHERE employee_id = :key2",
        [ (str "val1", JsNumber (NInt 75000));
          (str "key2", JsNumber (NInt 1001)) ]).
Proof. reflexivity. Qed.

Lemma procedure_entries_spec (entries : IDataObject) :
  forall (binds : IDataObject) (paramNames : list jsstring),
    Statement.procedure_entries entries binds paramNames
    = (let? xs := Spec.normalize_all (map snd entries) in
       ok (fold_left (fun b kx => JsObj.set (fst kx) (snd kx) b)
                     (combine (map fst entries) xs) binds,
           paramNames ++ map (fun kv => str ":" ++ fst kv) entries)).
Proof.
  induction entries as [|[key value] entries IH]; intros binds paramNames.
  - simpl. rewrite app_nil_r. reflexivity.
  - cbn [Statement.procedure_entries map snd fst Spec.normalize_all].
    destruct (convertToOracleType value) as [e|v]; [reflexivity|].
    cbn [rbind]. rewrite IH.
    destruct (Spec.normalize_all (map snd entries)) as [e|xs]; [reflexivity|].
    cbn [rbind combine fold_left fst snd]. rewrite <- app_assoc. reflexivity.
Qed.

(** The text of the procedure call: one placeholder per entry of the
    parameter object, in iteration order. *)
Lemma procedure_statement (name : jsstring) (procedureParams : JsValue) :
  Statement.procedure name procedureParams
  = (let? entries := JsObj.entries procedureParams in
     let? xs := Spec.normalize_all (map snd entries) in
     ok (str "BEGIN " ++ name ++ str "("
           ++ join (str ", ") (map (fun kv => str ":" ++ fst kv) entries)
           ++ str "); END;",
         fold_left (fun b kx => JsObj.set (fst kx) (snd kx) b)
                   (combine (map fst entries) xs) [])).
Proof.
  unfold Statement.procedure.
  destruct (JsObj.entries procedureParams) as [e|entries]; [reflexivity|].
  cbn [rbind]. rewrite procedure_entries_spec.
  destruct (Spec.normalize_all (map snd entries)); reflexivity.
Qed.

(** ** One record *)

Section Records.

Variables World Connection : Type.
Variable driver : Driver World Connection.
Variable this : Host.

Lemma push_all_nil (s : State World Connection) : push_all [] s = s.
Proof. destruct s. unfold push_all. simpl. rewrite app_nil_r. reflexivity. Qed.

Lemma push_all_app (a b : list JsValue) (s : State World Connection) :
  push_all b (push_all a s) = push_all (a ++ b) s.
Proof. unfold push_all. simpl. rewrite app_assoc. reflexivity. Qed.

Lemma push_rows_spec (l : list JsValue) (s : State World Connection) :
  push_rows l s = (push_all (map Statement.row_item l) s, ok tt).
Proof.
  revert s; induction l as [|row l IH]; intros s.
  - simpl. rewrite push_all_nil. reflexivity.
  - simpl. unfold bind. simpl. rewrite IH.
    unfold push_all. simpl. rewrite <- app_assoc. reflexivity.
Qed.

Ltac step_lift :=
  match goal with
  | |- context [lift ?r] =>
      unfold lift at 1;
      let e := fresh "e" in
      destruct r as [e|?]; cbn [rbind]; [reflexivity|]
  end.

(** The body of the inner [try] builds the request of the record and
    performs it: one call of [connection.execute] at most, and the items of
    the record after it. *)
Lemma process_item_perform (c : Connection) (operation : jsstring)
    (options : IDataObject) (i : nat) (item : INodeExecutionData)
    (s : State World Connection) :
  process_item driver this c operation options i item s
  = perform driver c (request this operation options i item) s.
Proof.
  unfold process_item, request.
  destruct (JsStr.eqb operation (str "executeQuery")).
  { unfold bind.
    repeat step_lift.
    unfold perform, call_execute, ok. cbn [req_sql req_binds req_options req_outputs].
    match goal with |- context [connection_execute ?d ?a ?b ?x ?y ?z] =>
      destruct (connection_execute d a b x y z) as [w [e|result]] end;
      [reflexivity|].
    unfold query_outputs.
    destruct (truthy (rows result) && Array_isArray (rows result)) eqn:E;
      [|reflexivity].
    destruct (rows result); try (rewrite andb_false_r in E; discriminate E).
    apply push_rows_spec. }
  destruct (JsStr.eqb operation (str "insert")).
  { unfold bind. repeat step_lift.
    unfold perform, call_execute, ok. cbn [req_sql req_binds req_options req_outputs].
    match goal with |- context [connection_execute ?d ?a ?b ?x ?y ?z] =>
      destruct (connection_execute d a b x y z) as [w [e|result]] end;
      reflexivity. }
  destruct (JsStr.eqb operation (str "update")).
  { unfold bind. repeat step_lift.
    unfold perform, call_execute, ok. cbn [req_sql req_binds req_options req_outputs].
    match goal with |- context [connection_execute ?d ?a ?b ?x ?y ?z] =>
      destruct (connection_execute d a b x y z) as [w [e|result]] end;
      reflexivity. }
  destruct (JsStr.eqb operation (str "delete")).
  { unfold bind. repeat step_lift.
    unfold perform, call_execute, ok. cbn [req_sql req_binds req_options req_outputs].
    match goal with |- context [connection_execute ?d ?a ?b ?x ?y ?z] =>
      destruct (connection_execute d a b x y z) as [w [e|result]] end;
      reflexivity. }
  destruct (JsStr.eqb operation (str "executeProcedure")).
  { unfold bind. repeat step_lift.
    unfold perform, call_execute, ok. cbn [req_sql req_binds req_options req_outputs].
    match goal with |- context [connection_execute ?d ?a ?b ?x ?y ?z] =>
      destruct (connection_execute d a b x y z) as [w [e|result]] end;
      reflexivity. }
  reflexivity.
Qed.

End Records.

(** ** The loop and the invocation *)

Lemma count_app (p : Event -> bool) (a b : list Event) :
  count p (a ++ b) = count p a + count p b.
Proof. unfold count. rewrite filter_app, length_app. reflexivity. Qed.



Lemma count_executes_all (evs : list Event) :
  forallb is_execute evs = true -> count is_execute evs = length evs.
Proof.
  unfold count. induction evs as [|e evs IH]; simpl; [reflexivity|].
  rewrite andb_true_iff. intros [He Hevs]. rewrite He. simpl. f_equal.
  apply IH. exact Hevs.
Qed.

Ltac effects_done :=
  repeat split; simpl; auto; try lia; try (intros; discriminate).

Section Invocation.

Variables World Connection : Type.
Variable driver : Driver World Connection.
Variable this : Host.

(** What performing a request does to the state: at most one execution,
    that of the request, is added to the trace, items are only added, and a
    failure adds no item. *)
Lemma perform_effects (c : Connection) (rq : Result (option OperationRequest))
    (s s' : State World Connection) (r : Result unit) :
  perform driver c rq s = (s', r) ->
  connection s' = connection s
  /\ exists evs outs,
       trace s' = trace s ++ evs
       /\ returnData s' = returnData s ++ outs
       /\ forallb is_execute evs = true
       /\ length evs <= 1
       /\ (forall e, r = inl e -> outs = [])
       /\ Forall (fun ev => exists q, rq = inr (Some q)
                             /\ ev = EvExecute (req_sql q) (req_binds q) (req_options q))
                 evs.
Proof.
  unfold perform. destruct rq as [e|[rq|]].
  - intros H; inversion H; subst. split; [reflexivity|].
    exists [], []. rewrite !app_nil_r. effects_done.
  - destruct (connection_execute driver c (req_sql rq) (req_binds rq)
                (req_options rq) (world s)) as [w [e|result]];
      intros H; inversion H; subst; (split; [reflexivity|]).
    + eexists [_], []. simpl. rewrite app_nil_r. effects_done.
      constructor; [|constructor]. exists rq. auto.
    + eexists [_], (req_outputs rq result). simpl. effects_done.
      constructor; [|constructor]. exists rq. auto.
  - intros H; inversion H; subst. split; [reflexivity|].
    exists [], []. rewrite !app_nil_r. effects_done.
Qed.

(** Every request is executed with the options of its operation. *)
Lemma request_options (operation : jsstring) (options : IDataObject) (i : nat)
    (item : INodeExecutionData) (rq : OperationRequest) :
  request this operation options i item = ok (Some rq) ->
  req_options rq = options_of operation options.
Proof.
  unfold request, options_of.
  repeat match goal with
         | |- context [JsStr.eqb operation ?k] =>
             destruct (JsStr.eqb operation k)
         end;
    repeat match goal with
           | |- context [rbind ?r _] =>
               let e := fresh "e" in
               destruct r as [e|?]; cbn [rbind]; [intros H; discriminate H|]
           end;
    intros H; inversion H; reflexivity.
Qed.

(** One turn of the loop: the body and its [catch]. *)
Lemma turn_effects (c : Connection) (operation : jsstring) (options : IDataObject)
    (i : nat) (item : INodeExecutionData) (s s' : State World Connection)
    (r : Result unit) :
  try_catch (process_item driver this c operation options i item)
    (on_item_error this) s = (s', r) ->
  connection s' = connection s
  /\ exists evs outs,
       trace s' = trace s ++ evs
       /\ returnData s' = returnData s ++ outs
       /\ forallb is_execute evs = true
       /\ length evs <= 1
       /\ Forall (fun ev => exists sql binds,
                     ev = EvExecute sql binds (options_of operation options)) evs.
Proof.
  unfold try_catch. rewrite process_item_perform.
  destruct (perform driver c (request this operation options i item) s)
    as [s1 [e|[]]] eqn:E;
    destruct (perform_effects _ _ _ _ _ E)
      as [Hc [evs [outs [Ht [Hr [He [Hl [Hn Hq]]]]]]]];
    assert (Ho : Forall (fun ev => exists sql binds,
                   ev = EvExecute sql binds (options_of operation options)) evs)
      by (eapply Forall_impl; [|exact Hq];
          intros ev [q [Hrq ->]]; rewrite (request_options _ _ _ _ _ Hrq);
          eauto).
  - unfold on_item_error. destruct (continueOnFail this).
    + intros H; inversion H; subst. simpl. split; [exact Hc|].
      exists evs, (outs ++ [Statement.error_item e]).
      rewrite Hr, app_assoc. repeat split; auto.
    + intros H; inversion H; subst. split; [exact Hc|].
      exists evs, outs. repeat split; auto.
  - intros H; inversion H; subst. split; [exact Hc|].
    exists evs, outs. repeat split; auto.
Qed.

Lemma loop_cons (c : Connection) (operation : jsstring) (options : IDataObject)
    (i : nat) (item : INodeExecutionData) (rest : list INodeExecutionData)
    (s : State World Connection) :
  loop driver this c operation options i (item :: rest) s
  = match try_catch (process_item driver this c operation options i item)
            (on_item_error this) s with
    | (s', inl e) => (s', inl e)
    | (s', inr _) => loop driver this c operation options (S i) rest s'
    end.
Proof. reflexivity. Qed.

(** The loop only executes statements, at most one per item, each with the
    options of the operation, and only adds items to [returnData]. *)
Lemma loop_effects (c : Connection) (operation : jsstring) (options : IDataObject)
    (items : list INodeExecutionData) :
  forall (i : nat) (s s' : State World Connection) (r : Result unit),
    loop driver this c operation options i items s = (s', r) ->
    connection s' = connection s
    /\ exists evs outs,
         trace s' = trace s ++ evs
         /\ returnData s' = returnData s ++ outs
         /\ forallb is_execute evs = true
         /\ length evs <= length items
         /\ Forall (fun ev => exists sql binds,
                       ev = EvExecute sql binds (options_of operation options)) evs.
Proof.
  induction items as [|item rest IH]; intros i s s' r H.
  - inversion H; subst. split; [reflexivity|].
    exists [], []. rewrite !app_nil_r. repeat split; simpl; auto.
  - rewrite loop_cons in H.
    destruct (try_catch (process_item driver this c operation options i item)
                (on_item_error this) s) as [s1 [e|[]]] eqn:E;
      destruct (turn_effects _ _ _ _ _ _ _ _ E)
        as [Hc [evs [outs [Ht [Hr [He [Hl Ho]]]]]]].
    + inversion H; subst. split; [exact Hc|].
      exists evs, outs. simpl. repeat split; auto. lia.
    + destruct (IH _ _ _ _ H) as [Hc' [evs' [outs' [Ht' [Hr' [He' [Hl' Ho']]]]]]].
      split; [congruence|].
      exists (evs ++ evs'), (outs ++ outs').
      rewrite Ht', Ht, Hr', Hr, !app_assoc, forallb_app, He, He', length_app.
      simpl. repeat split; auto; [lia | apply Forall_app; auto].
Qed.

(** The state after the attempt to initialize the client. *)
Lemma init_step (w : World) :
  try_catch (call_initOracleClient driver)
    (fun err =>
       log (EvConsoleLog (str "Oracle client initialization skipped:")
              (match err with
               | ErrorObject _ message => message
               | Thrown _ => str "Unknown error"
               end)))
    (initial Connection w)
  = (started driver w, ok tt).
Proof.
  unfold started, try_catch, call_initOracleClient. simpl.
  destruct (initOracleClient driver w) as [w' [e|]]; reflexivity.
Qed.

Lemma started_spec (w : World) :
  connection (started driver w) = None
  /\ returnData (started driver w) = []
  /\ exists detail,
       trace (started driver w) = EvInitOracleClient :: detail
       /\ (detail = [] \/ exists t d, detail = [EvConsoleLog t d]).
Proof.
  unfold started, try_catch, call_initOracleClient. simpl.
  destruct (initOracleClient driver w) as [w' [e|]]; simpl;
    repeat split; eexists; split; try reflexivity; eauto.
Qed.

Lemma connected_spec (credentials : Credentials) (w : World)
    (s : State World Connection) (r : Result Connection) :
  connected driver credentials w = (s, r) ->
  connection s = None
  /\ returnData s = []
  /\ trace s = trace (started driver w)
               ++ [EvGetConnection (connection_config credentials)
                     (match r with inr _ => true | inl _ => false end)].
Proof.
  unfold connected, call_getConnection.
  destruct (started_spec w) as [Hc [Hr _]].
  destruct (getConnection driver (connection_config credentials)
              (world (started driver w))) as [w' r'].
  intros H; inversion H; subst. simpl. auto.
Qed.

(** The [finally] block raises nothing; it closes the connection when it
    is assigned, and only logs a failure of the close. *)
Lemma release_spec (s : State World Connection) :
  exists s', release driver s = (s', ok tt)
    /\ returnData s' = returnData s
    /\ match connection s with
       | None => s' = s
       | Some c =>
           exists tail,
             trace s' = trace s ++ EvClose :: tail
             /\ (tail = []
                 \/ exists e, snd (connection_close driver c (world s)) = Some e
                              /\ tail = [EvConsoleError
                                          (str "Error closing connection:") e])
       end.
Proof.
  unfold release, bind, get_connection. simpl.
  destruct (connection s) as [c|] eqn:Ec.
  - unfold try_catch, call_close.
    destruct (connection_close driver c (world s)) as [w [e|]]; simpl.
    + eexists. split; [reflexivity|]. split; [reflexivity|].
      eexists. simpl. rewrite <- app_assoc. split; [reflexivity|].
      right. exists e. auto.
    + eexists. split; [reflexivity|]. split; [reflexivity|].
      exists []. simpl. auto.
  - exists s. auto.
Qed.

(** An invocation whose credentials or parameters do not resolve fails
    with that error before anything is done. *)
Lemma run_unresolved (w : World) (e : Exn) :
  getCredentials this (str "oracleDb") = inl e
  \/ (exists credentials,
        getCredentials this (str "oracleDb") = ok credentials
        /\ (getNodeParameter_string this (str "operation") 0 = inl e
            \/ exists operation,
                 getNodeParameter_string this (str "operation") 0 = ok operation
                 /\ getNodeParameter_object this (str "options") 0 [] = inl e)) ->
  run driver this w = (initial Connection w, inl e).
Proof.
  unfold run, execute, bind, lift.
  intros [H|[cred [Hc [H|[op [Ho H]]]]]].
  - rewrite H. reflexivity.
  - rewrite Hc, H. reflexivity.
  - rewrite Hc, Ho, H. reflexivity.
Qed.

(** An invocation that cannot connect fails with the wrapped error and
    closes nothing. *)
Lemma run_not_connected (w : World) (credentials : Credentials)
    (operation : jsstring) (options : IDataObject)
    (s : State World Connection) (e : Exn) :
  getCredentials this (str "oracleDb") = ok credentials ->
  getNodeParameter_string this (str "operation") 0 = ok operation ->
  getNodeParameter_object this (str "options") 0 [] = ok options ->
  connected driver credentials w = (s, inl e) ->
  run driver this w = (s, inl (wrap this e)).
Proof.
  intros Hc Ho Hopt Hconn.
  destruct (connected_spec _ _ _ _ Hconn) as [Hnone _].
  unfold run, execute, bind, lift. rewrite Hc, Ho, Hopt.
  unfold try_finally, try_catch at 1. cbv beta.
  rewrite init_step. unfold ok. cbv beta iota.
  fold (connected driver credentials w). rewrite Hconn.
  unfold on_error, wrap, NodeOperationError, release, bind, get_connection,
    raise, throw, ret.
  destruct e; cbv beta iota; rewrite Hnone; reflexivity.
Qed.

(** An invocation that connects runs the loop on the assigned connection
    and then the [finally] block; it answers the collected items, or the
    wrapped error of the loop. *)
Lemma run_connected (w : World) (credentials : Credentials)
    (operation : jsstring) (options : IDataObject)
    (s : State World Connection) (c : Connection) :
  getCredentials this (str "oracleDb") = ok credentials ->
  getNodeParameter_string this (str "operation") 0 = ok operation ->
  getNodeParameter_object this (str "options") 0 [] = ok options ->
  connected driver credentials w = (s, inr c) ->
  run driver this w
  = (let (s', r) := loop driver this c operation options 0 (getInputData this)
                      (assigned c s) in
     (fst (release driver s'),
      match r with
      | inl e => inl (wrap this e)
      | inr _ => ok [returnData s']
      end)).
Proof.
  intros Hc Ho Hopt Hconn.
  unfold run, execute, bind, lift. rewrite Hc, Ho, Hopt.
  unfold try_finally, try_catch at 1. cbv beta.
  rewrite init_step. unfold ok. cbv beta iota.
  fold (connected driver credentials w). rewrite Hconn.
  unfold set_connection, ok. cbv beta iota. fold (assigned c s).
  destruct (loop driver this c operation options 0 (getInputData this)
              (assigned c s)) as [s' [e|[]]].
  - destruct (release_spec s') as [s'' [Hrel _]].
    unfold on_error, wrap, NodeOperationError, raise, throw.
    destruct e; cbv beta iota; rewrite Hrel; reflexivity.
  - destruct (release_spec s') as [s'' [Hrel _]].
    unfold get_returnData, ret, ok. cbv beta iota. rewrite Hrel. reflexivity.
Qed.

Ltac split_operation operation :=
  repeat match goal with
         | |- context [JsStr.eqb operation ?k] =>
             let E := fresh "E" in destruct (JsStr.eqb operation k) eqn:E
         end.

Ltac split_rbind :=
  repeat match goal with
         | |- context [rbind ?r _] =>
             let e := fresh "e" in destruct r as [e|?]; cbn [rbind]
         end.

(** An operation that is none of the five asks nothing of the connection. *)
Lemma request_unknown (operation : jsstring) (options : IDataObject) (i : nat)
    (item : INodeExecutionData) :
  is_known_operation operation = false ->
  request this operation options i item = ok None.
Proof.
  unfold is_known_operation, known_operations. simpl.
  rewrite !orb_false_iff. intros [H1 [H2 [H3 [H4 [H5 _]]]]].
  unfold request. rewrite H1, H2, H3, H4, H5. reflexivity.
Qed.

Lemma request_known (operation : jsstring) (options : IDataObject) (i : nat)
    (item : INodeExecutionData) :
  is_known_operation operation = true ->
  request this operation options i item <> ok None.
Proof.
  unfold is_known_operation, known_operations. simpl. intros Hk.
  unfold request. split_operation operation;
    try (split_rbind; intros H; discriminate H).
  simpl in Hk. discriminate Hk.
Qed.


Lemma loop_unknown (c : Connection) (operation : jsstring) (options : IDataObject)
    (items : list INodeExecutionData) :
  is_known_operation operation = false ->
  forall (i : nat) (s : State World Connection),
    loop driver this c operation options i items s = (s, ok tt).
Proof.
  intros Hk. induction items as [|item rest IH]; intros i s; [reflexivity|].
  rewrite loop_cons. unfold try_catch.
  rewrite process_item_perform, request_unknown by exact Hk.
  simpl. apply IH.
Qed.







Lemma started_counts (w : World) :
  count is_close (trace (started driver w)) = 0
  /\ count is_acquired (trace (started driver w)) = 0
  /\ count is_execute (trace (started driver w)) = 0.
Proof.
  destruct (started_spec w) as [_ [_ [detail [-> [->|[t [d ->]]]]]]];
    repeat split; reflexivity.
Qed.


End Invocation.


(** ** Failure handling per record *)




(** The example of the specification: the second of three records fails. *)
Example continue_past_failure :
  snd (run (Sample.driver true (Some 1) Sample.done true)
           (Sample.insert_host true) 0)
  = ok [[ Statement.summary Sample.done;
          Statement.error_item (ErrorObject ClsError (str "ORA-00001"));
          Statement.summary Sample.done ]].
Proof. vm_compute. reflexivity. Qed.

(** The same records without continue-past-failure: the error of the
    second record is raised, and the third is never executed. *)
Example abort_on_failure :
  snd (run (Sample.driver true (Some 1) Sample.done true)
           (Sample.insert_host false) 0)
  = inl (ErrorObject ClsNodeOperationError (str "ORA-00001"))
  /\ count is_execute
       (trace (fst (run (Sample.driver true (Some 1) Sample.done true)
                        (Sample.insert_host false) 0))) = 2.
Proof. split; vm_compute; reflexivity. Qed.

(** A query that returned rows emits one item per row, in their order. *)
Lemma query_outputs_rows (result : ExecuteResult) (l : list JsValue) :
  rows result = JsArray l ->
  query_outputs result = map Statement.row_item l.
Proof. unfold query_outputs. intros ->. reflexivity. Qed.


(** ** Releasing the connection *)



(** A close that fails after three inserts: the items are answered all the
    same, and the failure is logged after the close. *)
Example close_failure_swallowed :
  snd (run (Sample.driver true None Sample.done false) (Sample.insert_host false) 0)
  = ok [[ Statement.summary Sample.done; Statement.summary Sample.done;
          Statement.summary Sample.done ]]
  /\ skipn 5 (trace (fst (run (Sample.driver true None Sample.done false)
                              (Sample.insert_host false) 0)))
     = [ EvClose;
         EvConsoleError (str "Error closing connection:")
           (ErrorObject ClsError (str "close failed")) ].
Proof. split; vm_compute; reflexivity. Qed.

(** ** An operation that is none of the five *)

(** C10, as amended.  An invocation that acquires its connection and whose
    operation selector is none of the five executes nothing, raises no
    error and answers one empty list of items, however many input records
    there are. *)
Theorem unknown_operation_answers_nothing (World Connection : Type)
    (driver : Driver World Connection) (this : Host) (w : World)
    (credentials : Credentials) (operation : jsstring) (options : IDataObject)
    (s : State World Connection) (c : Connection) :
  getCredentials this (str "oracleDb") = ok credentials ->
  getNodeParameter_string this (str "operation") 0 = ok operation ->
  getNodeParameter_object this (str "options") 0 [] = ok options ->
  connected driver credentials w = (s, inr c) ->
  is_known_operation operation = false ->
  snd (run driver this w) = ok [[]]
  /\ count is_execute (trace (fst (run driver this w))) = 0.
Proof.
  intros Hc Ho Hopt Hconn Hk.
  rewrite (run_connected _ _ _ _ w credentials operation options s c
             Hc Ho Hopt Hconn).
  rewrite (loop_unknown _ _ driver this c operation options (getInputData this) Hk).
  destruct (connected_spec _ _ _ _ _ _ _ Hconn) as [_ [Hnil Ht]].
  simpl. rewrite Hnil. split; [reflexivity|].
  destruct (release_spec _ _ driver (assigned c s)) as [s' [Hrel [_ Hclose]]].
  simpl in Hclose. destruct Hclose as [tail [Ht' Htail]].
  rewrite Hrel. simpl. rewrite Ht', Ht, !count_app.
  destruct (started_counts _ _ driver w) as [_ [_ ->]].
  destruct Htail as [->|[e [_ ->]]]; reflexivity.
Qed.

(** Two records under the operation [merge]: an empty answer. *)
Lemma unknown_operation_answers_nothing_witness :
  snd (run (Sample.driver true None Sample.done true) Sample.unknown_host 0)
  = ok [[]]
  /\ count is_execute
       (trace (fst (run (Sample.driver true None Sample.done true)
                        Sample.unknown_host 0))) = 0.
Proof.
  apply (unknown_operation_answers_nothing nat unit
           (Sample.driver true None Sample.done true) Sample.unknown_host 0
           Sample.credentials (str "merge") []
           (fst (connected (Sample.driver true None Sample.done true)
                   Sample.credentials 0)) tt);
    reflexivity.
Defined.

(** C10, counterexample.  With an operation that is none of the five, the
    invocation still raises when the connection cannot be acquired. *)
Lemma unknown_operation_raises_unconnected :
  is_known_operation (str "merge") = false
  /\ getNodeParameter_string Sample.unknown_host (str "operation") 0
     = ok (str "merge")
  /\ snd (run (Sample.driver false None Sample.done true) Sample.unknown_host 0)
     = inl (ErrorObject ClsNodeOperationError (str "ORA-12541: no listener")).
Proof. repeat split; vm_compute; reflexivity. Qed.

(** ** The options of an execution *)

(** Every execution of an invocation carries the options of its
    operation. *)
Lemma run_executions (World Connection : Type) (driver : Driver World Connection)
    (this : Host) (w : World) (operation : jsstring) (options : IDataObject)
    (sql : jsstring) (binds : IDataObject) (o : ExecuteOptions) :
  getNodeParameter_string this (str "operation") 0 = ok operation ->
  getNodeParameter_object this (str "options") 0 [] = ok options ->
  In (EvExecute sql binds o) (trace (fst (run driver this w))) ->
  o = options_of operation options.
Proof.
  intros Ho Hopt.
  destruct (getCredentials this (str "oracleDb")) as [e|cred] eqn:Hc.
  { rewrite (run_unresolved _ _ driver this w e) by auto. intros []. }
  destruct (started_spec _ _ driver w) as [_ [_ [detail [Hst Hdetail]]]].
  assert (Hstarted : ~ In (EvExecute sql binds o) (trace (started driver w))).
  { rewrite Hst. destruct Hdetail as [->|[t [d ->]]]; simpl;
      intros H; repeat destruct H as [H|H]; try discriminate H; exact H. }
  destruct (connected driver cred w) as [s1 [e|c]] eqn:Hconn;
    destruct (connected_spec _ _ _ _ _ _ _ Hconn) as [_ [_ Ht1]].
  - rewrite (run_not_connected _ _ driver this w cred operation options s1 e
               Hc Ho Hopt Hconn).
    simpl. rewrite Ht1, in_app_iff. simpl.
    intros [H|[H|[]]]; [exact (False_ind _ (Hstarted H)) | discriminate H].
  - rewrite (run_connected _ _ driver this w cred operation options s1 c
               Hc Ho Hopt Hconn).
    destruct (loop driver this c operation options 0 (getInputData this)
                (assigned c s1)) as [s' r] eqn:Hl.
    destruct (loop_effects _ _ _ _ _ _ _ _ _ _ _ _ Hl)
      as [Hconn' [evs [outs [Ht [_ [_ [_ Hopts]]]]]]].
    destruct (release_spec _ _ driver s') as [s'' [Hrel [_ Hclose]]].
    rewrite Hconn' in Hclose. simpl in Hclose.
    destruct Hclose as [tail [Ht'' Htail]].
    rewrite Hrel. simpl. rewrite Ht'', Ht. simpl. rewrite Ht1, !in_app_iff.
    simpl. intros [[[H|[H|[]]]|H]|[H|H]].
    + exact (False_ind _ (Hstarted H)).
    + discriminate H.
    + rewrite Forall_forall in Hopts.
      destruct (Hopts _ H) as [sql' [binds' E]]. inversion E. reflexivity.
    + discriminate H.
    + destruct Htail as [->|[e [_ ->]]]; simpl in H;
        repeat destruct H as [H|H]; try discriminate H; destruct H.
Qed.

(** C6, as amended.  Every execution of an invocation carries the
    autoCommit option, true unless the options say otherwise.  The
    executions of executeQuery also carry the fetch size (100 by default)
    and the row limit (0 by default, no limit), with rows returned as
    objects; those of insert, update, delete and executeProcedure carry
    autoCommit alone. *)
Theorem execution_options (World Connection : Type)
    (driver : Driver World Connection) (this : Host) (w : World)
    (operation : jsstring) (options : IDataObject)
    (sql : jsstring) (binds : IDataObject) (o : ExecuteOptions) :
  getNodeParameter_string this (str "operation") 0 = ok operation ->
  getNodeParameter_object this (str "options") 0 [] = ok options ->
  In (EvExecute sql binds o) (trace (fst (run driver this w))) ->
  autoCommit o = nullish (JsObj.get options (str "autoCommit")) (JsBool true)
  /\ (JsObj.own_property options (str "autoCommit") = None ->
      autoCommit o = JsBool true)
  /\ (operation = str "executeQuery" ->
      fetchArraySize o
      = Some (nullish (JsObj.get options (str "fetchSize")) (JsNumber (NInt 100)))
      /\ maxRows o
         = Some (nullish (JsObj.get options (str "maxRows")) (JsNumber (NInt 0)))
      /\ outFormat o = Some OUT_FORMAT_OBJECT
      /\ (JsObj.own_property options (str "fetchSize") = None ->
          fetchArraySize o = Some (JsNumber (NInt 100)))
      /\ (JsObj.own_property options (str "maxRows") = None ->
          maxRows o = Some (JsNumber (NInt 0))))
  /\ (operation <> str "executeQuery" ->
      fetchArraySize o = None /\ maxRows o = None /\ outFormat o = None).
Proof.
  intros Ho Hopt Hin.
  rewrite (run_executions _ _ driver this w operation options sql binds o
             Ho Hopt Hin).
  unfold options_of, Statement.query_options, Statement.commit_options, JsObj.get.
  repeat match goal with |- _ /\ _ => split end.
  - destruct (JsStr.eqb operation (str "executeQuery")); reflexivity.
  - intros H. destruct (JsStr.eqb operation (str "executeQuery"));
      cbn [autoCommit]; rewrite H; reflexivity.
  - intros ->. rewrite eqb_refl. cbn [fetchArraySize maxRows outFormat].
    repeat split; intros H; rewrite H; reflexivity.
  - intros H. apply eqb_neq in H. rewrite H. repeat split.
Qed.

(** The execution of a query with no option given: the three defaults. *)
Lemma execution_options_witness :
  autoCommit (Statement.query_options [])
  = nullish (JsObj.get [] (str "autoCommit")) (JsBool true)
  /\ (JsObj.own_property [] (str "autoCommit") = None ->
      autoCommit (Statement.query_options []) = JsBool true)
  /\ (str "executeQuery" = str "executeQuery" ->
      fetchArraySize (Statement.query_options [])
      = Some (nullish (JsObj.get [] (str "fetchSize")) (JsNumber (NInt 100)))
      /\ maxRows (Statement.query_options [])
         = Some (nullish (JsObj.get [] (str "maxRows")) (JsNumber (NInt 0)))
      /\ outFormat (Statement.query_options []) = Some OUT_FORMAT_OBJECT
      /\ (JsObj.own_property [] (str "fetchSize") = None ->
          fetchArraySize (Statement.query_options []) = Some (JsNumber (NInt 100)))
      /\ (JsObj.own_property [] (str "maxRows") = None ->
          maxRows (Statement.query_options []) = Some (JsNumber (NInt 0))))
  /\ (str "executeQuery" <> str "executeQuery" ->
      fetchArraySize (Statement.query_options []) = None
      /\ maxRows (Statement.query_options []) = None
      /\ outFormat (Statement.query_options []) = None).
Proof.
  apply (execution_options nat unit
           (Sample.driver true None Sample.two_rows true) Sample.query_host 0
           (str "executeQuery") [] (str "SELECT * FROM employees") []
           (Statement.query_options [])).
  - reflexivity.
  - reflexivity.
  - vm_compute. right. right. left. reflexivity.
Defined.

(** C6, counterexample.  The execution of an insert carries autoCommit
    only: neither the fetch size nor the row limit is applied. *)
Lemma insert_executes_with_autoCommit_only :
  nth_error (trace (fst (run (Sample.driver true None Sample.done true)
                             (Sample.insert_host true) 0))) 2
  = Some (EvExecute
            (str "INSERT INTO employees (employee_id,first_name) VALUES (:val1,:val2)")
            [ (str "val1", JsNumber (NInt 1001));
              (str "val2", JsString (str "John")) ]
            {| autoCommit := JsBool true; fetchArraySize := None;
               maxRows := None; outFormat := None |}).
Proof. vm_compute. reflexivity. Qed.

(** ** The procedure call *)

(** C5, as amended.  The statement of executeProcedure is the text
    [BEGIN procedure(:k1, ..., :kn); END;] with one placeholder per entry of
    the parameter object, in iteration order, and the normalized values of
    the entries as binds; when its execution answers, the one item emitted
    for the record carries [success: true] and, under the field [outBinds],
    the output parameters of the execution as they are (an empty object when
    the execution answered none). *)
Theorem procedure_call (World Connection : Type)
    (driver : Driver World Connection) (this : Host) (c : Connection)
    (options : IDataObject) (i : nat) (item : INodeExecutionData)
    (s : State World Connection)
    (name : jsstring) (given params : JsValue) (entries : IDataObject)
    (xs : list JsValue) (w' : World) (result : ExecuteResult) :
  getNodeParameter_string this (str "procedure") i = ok name ->
  getNodeParameter this (str "procedureParams") i (JsObject []) = ok given ->
  Statement.parse_if_string "Invalid JSON in Procedure Parameters" given
  = ok params ->
  JsObj.entries params = ok entries ->
  Spec.normalize_all (map snd entries) = ok xs ->
  let plsql :=
    str "BEGIN " ++ name ++ str "("
      ++ join (str ", ") (map (fun kv => str ":" ++ fst kv) entries)
      ++ str "); END;" in
  let binds :=
    fold_left (fun b kx => JsObj.set (fst kx) (snd kx) b)
              (combine (map fst entries) xs) [] in
  connection_execute driver c plsql binds (Statement.commit_options options)
    (world s) = (w', ok result) ->
  Statement.procedure name params = ok (plsql, binds)
  /\ process_item driver this c (str "executeProcedure") options i item s
     = (push_all
          [ JsObject
              [ (str "json",
                 JsObject
                   [ (str "success", JsBool true);
                     (str "outBinds",
                      if truthy (outBinds result) then outBinds result
                      else JsObject []) ]) ] ]
          (with_world w'
             (emit (EvExecute plsql binds (Statement.commit_options options)) s)),
        ok tt).
Proof.
  intros Hname Hgiven Hparse Hentries Hxs plsql binds Hexec.
  assert (Hstmt : Statement.procedure name params = ok (plsql, binds)).
  { rewrite procedure_statement, Hentries. cbn [rbind ok].
    rewrite Hxs. reflexivity. }
  split; [exact Hstmt|].
  rewrite process_item_perform. unfold request.
  change (JsStr.eqb (str "executeProcedure") (str "executeQuery")) with false.
  change (JsStr.eqb (str "executeProcedure") (str "insert")) with false.
  change (JsStr.eqb (str "executeProcedure") (str "update")) with false.
  change (JsStr.eqb (str "executeProcedure") (str "delete")) with false.
  change (JsStr.eqb (str "executeProcedure") (str "executeProcedure")) with true.
  cbv iota. rewrite Hname. cbn [rbind ok]. rewrite Hgiven. cbn [rbind ok].
  rewrite Hparse. cbn [rbind ok]. rewrite Hstmt. cbn [rbind ok].
  unfold perform, ok. cbn [req_sql req_binds req_options req_outputs fst snd].
  unfold ok in Hexec. rewrite Hexec. reflexivity.
Qed.

(** The call of [RAISE_SALARY] with one parameter, answered with one
    output parameter. *)
Lemma procedure_call_witness :
  Statement.procedure (str "RAISE_SALARY")
    (JsObject [(str "emp_id", JsNumber (NInt 1001))])
  = ok (str "BEGIN RAISE_SALARY(:emp_id); END;",
        [(str "emp_id", JsNumber (NInt 1001))])
  /\ process_item (Sample.driver true None Sample.with_out true)
       Sample.procedure_host tt (str "executeProcedure") [] 0
       {| json := Sample.employee |} (initial unit 0)
     = (push_all
          [ JsObject
              [ (str "json",
                 JsObject
                   [ (str "success", JsBool true);
                     (str "outBinds",
                      JsObject [(str "total", JsNumber (NInt 7))]) ]) ] ]
          (with_world 1
             (emit (EvExecute (str "BEGIN RAISE_SALARY(:emp_id); END;")
                      [(str "emp_id", JsNumber (NInt 1001))]
                      (Statement.commit_options []))
                (initial unit 0))),
        ok tt).
Proof.
  apply (procedure_call nat unit (Sample.driver true None Sample.with_out true)
           Sample.procedure_host tt [] 0 {| json := Sample.employee |}
           (initial unit 0) (str "RAISE_SALARY")
           (JsObject [(str "emp_id", JsNumber (NInt 1001))])
           (JsObject [(str "emp_id", JsNumber (NInt 1001))])
           [(str "emp_id", JsNumber (NInt 1001))]
           [JsNumber (NInt 1001)] 1 Sample.with_out);
    reflexivity.
Defined.

(** C5, counterexample.  The item emitted for a procedure call has no field
    [outputParameters]: the output parameters are under [outBinds]. *)
Lemma no_outputParameters_field :
  snd (run (Sample.driver true None Sample.with_out true) Sample.procedure_host 0)
  = ok [[ Statement.procedure_summary Sample.with_out ]]
  /\ Spec.field (Statement.procedure_summary Sample.with_out) "outputParameters"
     = None
  /\ Spec.field (Statement.procedure_summary Sample.with_out) "outBinds"
     = Some (JsObject [(str "total", JsNumber (NInt 7))]).
Proof. repeat split; vm_compute; reflexivity. Qed.

(** ** JSON text: numbers *)

Lemma nzhead_not_zero (u u0 : Decimal.uint) : Decimal.nzhead u <> Decimal.D0 u0.
Proof. induction u; simpl; try discriminate. exact IHu. Qed.

(** The numeral of a number has a digit, and a leading zero only for 0. *)
Lemma digits_canonical (n : N) :
  exists d ds,
    JsNumber.digits_of n = d :: ds
    /\ (d = DecimalFacts.d0 -> ds = [] /\ n = 0%N).
Proof.
  unfold JsNumber.digits_of.
  assert (E : N.to_uint n = Decimal.unorm (N.to_uint n)).
  { rewrite <- DecimalN.Unsigned.to_of, DecimalN.Unsigned.of_to. reflexivity. }
  assert (En : N.of_uint (N.to_uint n) = n) by apply DecimalN.Unsigned.of_to.
  revert E En. generalize (N.to_uint n) as u. intros u E En.
  unfold Decimal.unorm in E.
  destruct (Decimal.nzhead u) as [|u0|u0|u0|u0|u0|u0|u0|u0|u0|u0] eqn:Hz.
  - rewrite E. simpl. do 2 eexists. split; [reflexivity|].
    intros _. split; [reflexivity|]. rewrite E in En. simpl in En. congruence.
  - exfalso. exact (nzhead_not_zero u u0 Hz).
  - rewrite E. simpl. do 2 eexists. split; [reflexivity|]. intros H; discriminate H.
  - rewrite E. simpl. do 2 eexists. split; [reflexivity|]. intros H; discriminate H.
  - rewrite E. simpl. do 2 eexists. split; [reflexivity|]. intros H; discriminate H.
  - rewrite E. simpl. do 2 eexists. split; [reflexivity|]. intros H; discriminate H.
  - rewrite E. simpl. do 2 eexists. split; [reflexivity|]. intros H; discriminate H.
  - rewrite E. simpl. do 2 eexists. split; [reflexivity|]. intros H; discriminate H.
  - rewrite E. simpl. do 2 eexists. split; [reflexivity|]. intros H; discriminate H.
  - rewrite E. simpl. do 2 eexists. split; [reflexivity|]. intros H; discriminate H.
  - rewrite E. simpl. do 2 eexists. split; [reflexivity|]. intros H; discriminate H.
Qed.

Lemma N_of_digits_of (n : N) : JSON.N_of_digits (JsNumber.digits_of n) = n.
Proof.
  unfold JSON.N_of_digits, JsNumber.digits_of.
  rewrite DecimalFacts.of_list_to_list. apply DecimalN.Unsigned.of_to.
Qed.

(** The four shapes of what follows a value. *)
Lemma delimited_cases (rest : jsstring) :
  JSON.delimited rest = true ->
  rest = [] \/ exists c r, rest = c :: r /\ (c = 44 \/ c = 93 \/ c = 125)%N.
Proof.
  destruct rest as [|c r]; [auto|]. simpl.
  rewrite !orb_true_iff, !N.eqb_eq. intros H. right. exists c, r. tauto.
Qed.

Ltac delimit rest H :=
  let c := fresh "c" in
  let r := fresh "r" in
  destruct (delimited_cases rest H) as [-> | [c [r [-> [-> | [-> | ->]]]]]].

Lemma span_digits_units (ds : list DecimalFacts.digits) (rest : jsstring) :
  JSON.delimited rest = true ->
  JSON.span_digits (map digit_unit ds ++ rest) = (ds, rest).
Proof.
  intros Hrest. induction ds as [|d ds IH]; simpl.
  - delimit rest Hrest; reflexivity.
  - rewrite unit_digit_unit, IH. reflexivity.
Qed.

Lemma digit_not_minus (d : DecimalFacts.digits) : (digit_unit d =? 45)%N = false.
Proof. destruct d; reflexivity. Qed.

Lemma make_number_integer (negative : bool) (ds : list DecimalFacts.digits) :
  JSON.make_number negative ds 0
  = if (Z.of_N (JSON.N_of_digits ds) =? 0)%Z
    then (if negative then NNegZero else NInt 0)
    else NInt (if negative then - Z.of_N (JSON.N_of_digits ds)
               else Z.of_N (JSON.N_of_digits ds)).
Proof.
  unfold JSON.make_number.
  destruct (Z.of_N (JSON.N_of_digits ds) =? 0)%Z; [reflexivity|].
  change (0 <=? 0)%Z with true. cbv iota.
  rewrite Z.pow_0_r, Z.mul_1_r. reflexivity.
Qed.

(** An integer is read back from its numeral. *)
Lemma number_literal_dec (z : Z) (rest : jsstring) :
  JSON.delimited rest = true ->
  JSON.number_literal (dec_Z z ++ rest) = Some (NInt z, rest).
Proof.
  intros Hrest. unfold JSON.number_literal, dec_Z.
  destruct (digits_canonical (Z.abs_N z)) as [d [ds [Hds Hcanon]]].
  pose proof (N_of_digits_of (Z.abs_N z)) as Hval.
  unfold dec. fold (JsNumber.digits_of (Z.abs_N z)).
  assert (Htail : JSON.fraction_part rest = Some ([], rest)
                  /\ JSON.exponent_part rest = Some (0%Z, rest)).
  { delimit rest Hrest; split; reflexivity. }
  destruct Htail as [Hfrac Hexp].
  assert (Hend : forall negative,
            match JSON.fraction_part rest with
            | Some (frac, s3) =>
                match JSON.exponent_part s3 with
                | Some (e, s4) =>
                    Some (JSON.make_number negative
                            (JsNumber.digits_of (Z.abs_N z) ++ frac)
                            (e - Z.of_nat (length frac)), s4)
                | None => None
                end
            | None => None
            end
            = Some (JSON.make_number negative (JsNumber.digits_of (Z.abs_N z)) 0,
                    rest)).
  { intros negative. rewrite Hfrac, Hexp, app_nil_r. reflexivity. }
  destruct (z <? 0)%Z eqn:Hneg.
  - cbn [app N.eqb Pos.eqb]. rewrite span_digits_units by exact Hrest.
    assert (Hnz : Z.abs_N z <> 0%N) by (apply Z.ltb_lt in Hneg; lia).
    transitivity (Some (JSON.make_number true (JsNumber.digits_of (Z.abs_N z)) 0,
                        rest)).
    + rewrite <- Hend. rewrite Hds.
      destruct d; try reflexivity. exfalso. apply Hnz. apply Hcanon. reflexivity.
    + rewrite make_number_integer, Hval.
      destruct (Z.of_N (Z.abs_N z) =? 0)%Z eqn:E0;
        [apply Z.eqb_eq in E0; lia|].
      do 2 f_equal. f_equal. apply Z.ltb_lt in Hneg. lia.
  - rewrite Hds. cbn [map app]. rewrite digit_not_minus.
    change (digit_unit d :: map digit_unit ds ++ rest)
      with (map digit_unit (d :: ds) ++ rest).
    rewrite span_digits_units by exact Hrest.
    apply Z.ltb_ge in Hneg.
    transitivity (Some (JSON.make_number false (JsNumber.digits_of (Z.abs_N z)) 0,
                        rest)).
    + rewrite <- Hend. rewrite Hds.
      destruct d; try reflexivity.
      destruct (Hcanon eq_refl) as [-> _]. reflexivity.
    + rewrite make_number_integer, Hval.
      destruct (Z.of_N (Z.abs_N z) =? 0)%Z eqn:E0.
      * apply Z.eqb_eq in E0. do 2 f_equal. f_equal. lia.
      * do 2 f_equal. f_equal. lia.
Qed.

(** ** JSON text: numbers in general *)

Lemma span_digits_stop (ds : list DecimalFacts.digits) (tail : jsstring) :
  match tail with [] => True | c :: _ => unit_digit c = None end ->
  JSON.span_digits (map digit_unit ds ++ tail) = (ds, tail).
Proof.
  intros Htail. induction ds as [|d ds IH]; simpl.
  - destruct tail as [|c tail]; [reflexivity|]. simpl. rewrite Htail. reflexivity.
  - rewrite unit_digit_unit, IH. reflexivity.
Qed.

Lemma delimited_stop (rest : jsstring) :
  JSON.delimited rest = true ->
  match rest with [] => True | c :: _ => unit_digit c = None end.
Proof. intros H. delimit rest H; simpl; auto. Qed.

Lemma exponent_part_text (exponent : option (bool * N)) (rest : jsstring) :
  JSON.delimited rest = true ->
  JSON.exponent_part (exponent_text exponent ++ rest)
  = Some (exponent_value exponent, rest).
Proof.
  intros Hrest. destruct exponent as [[negative E]|]; cbn [exponent_text exponent_value app].
  - unfold JSON.exponent_part. cbn [N.eqb Pos.eqb orb].
    destruct (digits_canonical E) as [d [ds [Hds _]]].
    pose proof (N_of_digits_of E) as Hval.
    unfold dec. fold (JsNumber.digits_of E).
    destruct negative; cbn [N.eqb Pos.eqb]; unfold JSON.exponent_digits;
      rewrite span_digits_units by exact Hrest; rewrite Hds in *; rewrite Hval;
      reflexivity.
  - delimit rest Hrest; reflexivity.
Qed.

Lemma exponent_text_stop (exponent : option (bool * N)) (rest : jsstring) :
  JSON.delimited rest = true ->
  match exponent_text exponent ++ rest with
  | [] => True
  | c :: _ => unit_digit c = None /\ (c =? 46)%N = false
  end.
Proof.
  intros Hrest. destruct exponent as [[negative E]|]; cbn [exponent_text app].
  - split; reflexivity.
  - delimit rest Hrest; simpl; auto.
Qed.

Lemma fraction_part_text (frac : list DecimalFacts.digits) (tail : jsstring) :
  match tail with
  | [] => True
  | c :: _ => unit_digit c = None /\ (c =? 46)%N = false
  end ->
  JSON.fraction_part (fraction_text frac ++ tail) = Some (frac, tail).
Proof.
  intros Htail. destruct frac as [|d frac]; cbn [fraction_text app].
  - destruct tail as [|c tail]; [reflexivity|]. unfold JSON.fraction_part.
    destruct Htail as [_ ->]. reflexivity.
  - unfold JSON.fraction_part. cbn [N.eqb Pos.eqb].
    change (digit_unit d :: map digit_unit frac ++ tail)
      with (map digit_unit (d :: frac) ++ tail).
    rewrite span_digits_stop; [reflexivity|].
    destruct tail as [|c tail]; [exact I|]. apply Htail.
Qed.

(** A number literal, part by part. *)
Lemma number_literal_parts (negative : bool) (int frac : list DecimalFacts.digits)
    (exponent : option (bool * N)) (rest : jsstring) :
  integer_part int = true ->
  JSON.delimited rest = true ->
  JSON.number_literal
    ((if negative then [45%N] else []) ++ map digit_unit int ++ fraction_text frac
       ++ exponent_text exponent ++ rest)
  = Some (JSON.make_number negative (int ++ frac)
            (exponent_value exponent - Z.of_nat (length frac)), rest).
Proof.
  intros Hint Hrest.
  pose proof (exponent_text_stop exponent rest Hrest) as Hstop.
  assert (Hspan : JSON.span_digits
                    (map digit_unit int ++ fraction_text frac
                       ++ exponent_text exponent ++ rest)
                  = (int, fraction_text frac ++ exponent_text exponent ++ rest)).
  { apply span_digits_stop. destruct frac as [|d frac]; cbn [fraction_text app].
    - destruct (exponent_text exponent ++ rest); [exact I|apply Hstop].
    - reflexivity. }
  unfold JSON.number_literal.
  destruct negative; cbn [app].
  - cbn [N.eqb Pos.eqb]. rewrite Hspan.
    rewrite fraction_part_text by exact Hstop.
    rewrite exponent_part_text by exact Hrest.
    destruct int as [|[| | | | | | | | |] [|d' int]]; try discriminate Hint;
      reflexivity.
  - destruct int as [|d int]; [discriminate Hint|]. cbn [map app] in *.
    rewrite digit_not_minus. rewrite Hspan.
    rewrite fraction_part_text by exact Hstop.
    rewrite exponent_part_text by exact Hrest.
    destruct d, int; try discriminate Hint; reflexivity.
Qed.

Lemma number_literal_point (negative : bool) (int frac : list DecimalFacts.digits)
    (rest : jsstring) :
  integer_part int = true ->
  JSON.delimited rest = true ->
  JSON.number_literal
    ((if negative then [45%N] else []) ++ map digit_unit int ++ fraction_text frac
       ++ rest)
  = Some (JSON.make_number negative (int ++ frac) (0 - Z.of_nat (length frac)), rest).
Proof. exact (number_literal_parts negative int frac None rest). Qed.

(** ** Numerals and their values *)

Lemma value_lu_cons (d : DecimalFacts.digits) (l : list DecimalFacts.digits) :
  value_lu (d :: l) = (digit_value d + 10 * value_lu l)%N.
Proof.
  unfold value_lu, digit_value.
  destruct d; cbn [DecimalFacts.of_list];
    rewrite (DecimalPos.Unsigned.of_lu_eqn (_ (DecimalFacts.of_list l)));
    reflexivity.
Qed.

Lemma digit_value_bound (d : DecimalFacts.digits) : (digit_value d <= 9)%N.
Proof. destruct d; vm_compute; discriminate. Qed.

Lemma N_of_digits_lu (ds : list DecimalFacts.digits) :
  JSON.N_of_digits ds = value_lu (rev ds).
Proof.
  unfold JSON.N_of_digits, value_lu, N.of_uint.
  rewrite DecimalPos.Unsigned.of_uint_alt. f_equal.
  rewrite <- (DecimalFacts.of_list_to_list (Decimal.rev (DecimalFacts.of_list ds))).
  rewrite DecimalFacts.rev_spec, DecimalFacts.to_list_of_list. reflexivity.
Qed.

Lemma value_lu_zeros (t : nat) (l : list DecimalFacts.digits) :
  value_lu (repeat DecimalFacts.d0 t ++ l) = (value_lu l * 10 ^ N.of_nat t)%N.
Proof.
  induction t as [|t IH].
  - simpl. lia.
  - cbn [repeat app]. rewrite value_lu_cons, IH.
    rewrite Nat2N.inj_succ, N.pow_succ_r'. change (digit_value DecimalFacts.d0) with 0%N.
    lia.
Qed.

Lemma rev_repeat_digits (d : DecimalFacts.digits) (t : nat) :
  rev (repeat d t) = repeat d t.
Proof.
  induction t as [|t IH]; [reflexivity|].
  cbn [repeat rev]. rewrite IH. symmetry. apply repeat_cons.
Qed.

(** Zeros after a numeral multiply it by ten each. *)
Lemma N_of_digits_zeros (ds : list DecimalFacts.digits) (t : nat) :
  JSON.N_of_digits (ds ++ repeat DecimalFacts.d0 t)
  = (JSON.N_of_digits ds * 10 ^ N.of_nat t)%N.
Proof.
  rewrite !N_of_digits_lu, rev_app_distr, rev_repeat_digits. apply value_lu_zeros.
Qed.

(** Zeros before a numeral leave it as it is. *)
Lemma N_of_digits_leading (j : nat) (ds : list DecimalFacts.digits) :
  JSON.N_of_digits (repeat DecimalFacts.d0 j ++ ds) = JSON.N_of_digits ds.
Proof. induction j as [|j IH]; [reflexivity|exact IH]. Qed.

Lemma value_lu_bound (l : list DecimalFacts.digits) :
  (value_lu l < 10 ^ N.of_nat (length l))%N.
Proof.
  induction l as [|d l IH].
  - vm_compute. reflexivity.
  - cbn [length]. rewrite value_lu_cons, Nat2N.inj_succ, N.pow_succ_r'.
    pose proof (digit_value_bound d). lia.
Qed.

(** A numeral of [n] digits is below [10^n]. *)
Lemma N_of_digits_bound (ds : list DecimalFacts.digits) :
  (JSON.N_of_digits ds < 10 ^ N.of_nat (length ds))%N.
Proof.
  rewrite N_of_digits_lu, <- length_rev. apply value_lu_bound.
Qed.

Lemma drop_zeros_split (l : list DecimalFacts.digits) :
  exists t, l = repeat DecimalFacts.d0 t ++ JsNumber.drop_zeros l.
Proof.
  induction l as [|d l [t IH]].
  - exists 0. reflexivity.
  - destruct d; try (exists 0; reflexivity).
    exists (S t). cbn [JsNumber.drop_zeros repeat app]. f_equal. exact IH.
Qed.

(** A numeral is its significant digits followed by zeros. *)
Lemma strip_trailing_zeros_split (ds : list DecimalFacts.digits) :
  exists t,
    ds = JsNumber.strip_trailing_zeros ds ++ repeat DecimalFacts.d0 t.
Proof.
  unfold JsNumber.strip_trailing_zeros.
  destruct (drop_zeros_split (rev ds)) as [t E]. exists t.
  rewrite <- (rev_involutive ds) at 1. rewrite E at 1.
  rewrite rev_app_distr, rev_repeat_digits. reflexivity.
Qed.

Lemma units_zeros (j : nat) :
  map digit_unit (repeat DecimalFacts.d0 j) = repeat 48%N j.
Proof. induction j as [|j IH]; [reflexivity|]. cbn [repeat map]. rewrite IH. reflexivity. Qed.

(** ** JSON text: the numeral of a Number is read back *)

Lemma make_number_decimal (ds : list DecimalFacts.digits) (m e : Z) :
  JSON.N_of_digits ds = Z.abs_N m -> (e <? 0)%Z = true -> (m mod 10 =? 0)%Z = false ->
  JSON.make_number (m <? 0)%Z ds e = NDec m e.
Proof.
  intros Hval He Hm. unfold JSON.make_number. rewrite Hval, N2Z.inj_abs_N.
  assert (Hnz : m <> 0%Z) by (intros ->; discriminate Hm).
  destruct (Z.eqb_spec (Z.abs m) 0) as [E|_]; [lia|].
  assert (Hsign : (if (m <? 0)%Z then (- Z.abs m)%Z else Z.abs m) = m).
  { destruct (Z.ltb_spec m 0); lia. }
  rewrite Hsign.
  pose proof He as He'. apply Z.ltb_lt in He'.
  destruct (Z.leb_spec 0 e) as [Hle|_]; [lia|].
  destruct (Z.to_nat (- e)) as [|fuel] eqn:Ef; [lia|].
  cbn [JSON.strip_tens]. rewrite He, Hm. cbn [andb].
  destruct (Z.eqb_spec e 0); [lia|reflexivity].
Qed.

Lemma make_number_scaled (negative : bool) (ds : list DecimalFacts.digits) (x : Z) :
  JSON.N_of_digits ds <> 0%N -> (0 <= x)%Z ->
  JSON.make_number negative ds x
  = NInt ((if negative then - Z.of_N (JSON.N_of_digits ds)
           else Z.of_N (JSON.N_of_digits ds)) * 10 ^ x).
Proof.
  intros Hnz Hx. unfold JSON.make_number.
  destruct (Z.eqb_spec (Z.of_N (JSON.N_of_digits ds)) 0) as [E|_]; [lia|].
  destruct (Z.leb_spec 0 x) as [_|Hlt]; [reflexivity|lia].
Qed.

(** The three notations of [JsNumber.of_digits] for a number that is not
    written as a plain integer. *)
Lemma of_digits_exponent (d : DecimalFacts.digits) (ds : list DecimalFacts.digits)
    (n : Z) :
  (21 < n \/ n <= -6)%Z ->
  JsNumber.of_digits (d :: ds) n
  = map digit_unit [d] ++ fraction_text ds
      ++ exponent_text (Some ((n - 1 <? 0)%Z, Z.abs_N (n - 1))).
Proof.
  intros Hn. unfold JsNumber.of_digits, JsNumber.units.
  assert (H1 : ((Z.of_nat (length (d :: ds)) <=? n) && (n <=? 21))%Z = false).
  { apply andb_false_iff. cbn [length].
    destruct Hn; [right; apply Z.leb_gt|left; apply Z.leb_gt]; lia. }
  assert (H2 : ((0 <? n) && (n <=? 21))%Z = false).
  { apply andb_false_iff.
    destruct Hn; [right; apply Z.leb_gt|left; apply Z.ltb_ge]; lia. }
  assert (H3 : ((-6 <? n) && (n <=? 0))%Z = false).
  { apply andb_false_iff.
    destruct Hn; [right; apply Z.leb_gt|left; apply Z.ltb_ge]; lia. }
  rewrite H1, H2, H3. cbv zeta.
  change (str "e") with [101%N]. change (str "-") with [45%N].
  change (str "+") with [43%N]. change (str ".") with [46%N].
  destruct ds as [|d' ds]; cbn [fraction_text exponent_text map app].
  - destruct (n - 1 <? 0)%Z; reflexivity.
  - destruct (n - 1 <? 0)%Z; reflexivity.
Qed.

Lemma of_digits_point (ds : list DecimalFacts.digits) (n : Z) :
  (0 < n)%Z -> (n < Z.of_nat (length ds))%Z -> (n <= 21)%Z ->
  JsNumber.of_digits ds n
  = map digit_unit (firstn (Z.to_nat n) ds) ++ fraction_text (skipn (Z.to_nat n) ds).
Proof.
  intros H0 Hk H21. unfold JsNumber.of_digits, JsNumber.units.
  assert (H1 : ((Z.of_nat (length ds) <=? n) && (n <=? 21))%Z = false).
  { apply andb_false_iff. left. apply Z.leb_gt. lia. }
  assert (H2 : ((0 <? n) && (n <=? 21))%Z = true).
  { apply andb_true_iff. split; [apply Z.ltb_lt|apply Z.leb_le]; lia. }
  rewrite H1, H2. change (str ".") with [46%N].
  destruct (skipn (Z.to_nat n) ds) as [|d' tail] eqn:Es; [|reflexivity].
  exfalso. pose proof (length_skipn (Z.to_nat n) ds) as Hl. rewrite Es in Hl.
  simpl in Hl. lia.
Qed.

Lemma of_digits_small (d : DecimalFacts.digits) (ds : list DecimalFacts.digits)
    (n : Z) :
  (-6 < n)%Z -> (n <= 0)%Z ->
  JsNumber.of_digits (d :: ds) n
  = map digit_unit [DecimalFacts.d0]
      ++ fraction_text (repeat DecimalFacts.d0 (Z.to_nat (- n)) ++ d :: ds).
Proof.
  intros H6 H0. unfold JsNumber.of_digits, JsNumber.units.
  assert (H1 : ((Z.of_nat (length (d :: ds)) <=? n) && (n <=? 21))%Z = false).
  { apply andb_false_iff. left. apply Z.leb_gt. cbn [length]. lia. }
  assert (H2 : ((0 <? n) && (n <=? 21))%Z = false).
  { apply andb_false_iff. left. apply Z.ltb_ge. lia. }
  assert (H3 : ((-6 <? n) && (n <=? 0))%Z = true).
  { apply andb_true_iff. split; [apply Z.ltb_lt|apply Z.leb_le]; lia. }
  rewrite H1, H2, H3. change (str "0.") with [48%N; 46%N].
  assert (Hf : fraction_text (repeat DecimalFacts.d0 (Z.to_nat (- n)) ++ d :: ds)
               = 46%N :: map digit_unit
                           (repeat DecimalFacts.d0 (Z.to_nat (- n)) ++ d :: ds)).
  { destruct (Z.to_nat (- n)); reflexivity. }
  rewrite Hf, map_app, units_zeros. reflexivity.
Qed.

Lemma sign_prefix_text (z : Z) :
  JsNumber.sign_prefix z = if (z <? 0)%Z then [45%N] else [].
Proof. reflexivity. Qed.

Lemma signed_abs (z : Z) :
  (if (z <? 0)%Z then - Z.of_N (Z.abs_N z) else Z.of_N (Z.abs_N z))%Z = z.
Proof. rewrite N2Z.inj_abs_N. destruct (Z.ltb_spec z 0); lia. Qed.

(** The numeral that [JsNumber.toString] prints for a Number is read back
    as that Number, whatever delimiter follows. *)
Lemma number_literal_toString (n : JsNum) (rest : jsstring) :
  Spec.json_number n = true ->
  JSON.delimited rest = true ->
  JSON.number_literal (JsNumber.toString n ++ rest) = Some (n, rest).
Proof.
  intros Hn Hrest. destruct n as [z|m e| | |]; try discriminate Hn.
  - (* an integer *)
    unfold JsNumber.toString.
    destruct (Z.ltb_spec (Z.abs z) (10 ^ 21)) as [_|Hbig];
      [apply number_literal_dec; exact Hrest|].
    cbv zeta.
    destruct (digits_canonical (Z.abs_N z)) as [d [ds [Hds Hcanon]]].
    destruct (strip_trailing_zeros_split (JsNumber.digits_of (Z.abs_N z)))
      as [t Esplit].
    pose proof (N_of_digits_of (Z.abs_N z)) as Hval.
    pose proof (N_of_digits_bound (JsNumber.digits_of (Z.abs_N z))) as Hbound.
    rewrite Hval in Hbound.
    assert (Hnz : Z.abs_N z <> 0%N).
    { change (10 ^ 21)%Z with 1000000000000000000000%Z in Hbig. lia. }
    assert (Hlen : (21 < Z.of_nat (length (JsNumber.digits_of (Z.abs_N z))))%Z).
    { destruct (Z.ltb_spec 21 (Z.of_nat (length (JsNumber.digits_of (Z.abs_N z)))))
        as [H|H]; [exact H|exfalso].
      assert (Hpow : (10 ^ N.of_nat (length (JsNumber.digits_of (Z.abs_N z)))
                      <= 10 ^ 21)%N) by (apply N.pow_le_mono_r; lia).
      change (10 ^ 21)%Z with 1000000000000000000000%Z in Hbig.
      change (10 ^ 21)%N with 1000000000000000000000%N in Hpow. lia. }
    destruct (JsNumber.strip_trailing_zeros (JsNumber.digits_of (Z.abs_N z)))
      as [|s st] eqn:Est.
    { exfalso. rewrite Esplit in Hval. cbn [app] in Hval.
      pose proof (N_of_digits_leading t []) as Hz. rewrite app_nil_r in Hz.
      rewrite Hz in Hval. apply Hnz. rewrite <- Hval. reflexivity. }
    assert (Hs : s = d).
    { rewrite Hds in Esplit. cbn [app] in Esplit. congruence. }
    subst s.
    assert (Hd : d <> DecimalFacts.d0).
    { intros E. apply Hnz. apply Hcanon. exact E. }
    rewrite of_digits_exponent by (left; exact Hlen).
    rewrite sign_prefix_text, <- !app_assoc.
    rewrite number_literal_parts;
      [|destruct d; reflexivity|exact Hrest].
    f_equal. f_equal.
    cbn [exponent_value].
    assert (Hexp : (Z.of_nat (length (JsNumber.digits_of (Z.abs_N z))) - 1 <? 0)%Z
                   = false) by (apply Z.ltb_ge; lia).
    rewrite Hexp.
    assert (Hcount : length (JsNumber.digits_of (Z.abs_N z)) = S (length st) + t).
    { rewrite Esplit at 1. rewrite length_app, repeat_length. reflexivity. }
    assert (Hscale : JSON.N_of_digits (d :: st) <> 0%N
                     /\ Z.abs_N z = (JSON.N_of_digits (d :: st) * 10 ^ N.of_nat t)%N).
    { rewrite Esplit, N_of_digits_zeros in Hval. split; [|symmetry; exact Hval].
      intros E. rewrite E in Hval. apply Hnz. rewrite <- Hval. apply N.mul_0_l. }
    destruct Hscale as [Hsnz Hscale].
    change ([d] ++ st) with (d :: st).
    rewrite make_number_scaled; [|exact Hsnz|rewrite N2Z.inj_abs_N; lia].
    f_equal.
    assert (Hx : (Z.of_N (Z.abs_N (Z.of_nat (length (JsNumber.digits_of (Z.abs_N z))) - 1))
                  - Z.of_nat (length st))%Z = Z.of_nat t).
    { rewrite N2Z.inj_abs_N. lia. }
    rewrite Hx.
    pose proof (signed_abs z) as Hz. rewrite Hscale in Hz. revert Hz.
    rewrite N2Z.inj_mul, N2Z.inj_pow, nat_N_Z.
    change (Z.of_N 10) with 10%Z.
    destruct (z <? 0)%Z; intros Hz; lia.
  - (* a decimal *)
    cbn [Spec.json_number] in Hn. apply andb_true_iff in Hn.
    destruct Hn as [He Hm]. apply negb_true_iff in Hm.
    pose proof He as He'. apply Z.ltb_lt in He'.
    assert (Hnz : Z.abs_N m <> 0%N).
    { intros E. assert (m = 0%Z) by lia. subst m. discriminate Hm. }
    unfold JsNumber.toString. cbv zeta.
    destruct (digits_canonical (Z.abs_N m)) as [d [ds [Hds Hcanon]]].
    pose proof (N_of_digits_of (Z.abs_N m)) as Hval.
    assert (Hd : d <> DecimalFacts.d0).
    { intros E. apply Hnz. apply Hcanon. exact E. }
    rewrite sign_prefix_text. rewrite Hds in *.
    assert (Hback : forall int frac x,
              int ++ frac = d :: ds -> x = e ->
              JSON.make_number (m <? 0)%Z (int ++ frac) x = NDec m e).
    { intros int frac x -> ->. apply make_number_decimal; assumption. }
    assert (Hint : integer_part [d] = true).
    { destruct d; reflexivity. }
    cbn [length]. set (k := Z.of_nat (S (length ds))).
    assert (Hk : k = Z.of_nat (S (length ds))) by reflexivity. clearbody k.
    destruct (Z.ltb_spec 0 (k + e)) as [Hpos|Hneg].
    + destruct (Z.leb_spec (k + e) 21) as [H21|Hbig].
      * (* digits, a point, digits *)
        rewrite of_digits_point by (cbn [length]; lia).
        rewrite <- !app_assoc.
        rewrite number_literal_point; [| |exact Hrest].
        -- rewrite Hback; [reflexivity|apply firstn_skipn|].
           rewrite length_skipn. cbn [length]. lia.
        -- destruct (Z.to_nat (k + e)) as [|j] eqn:Ej; [lia|].
           cbn [firstn]. destruct d; try reflexivity. exfalso. apply Hd. reflexivity.
      * (* an exponent above 21 *)
        rewrite of_digits_exponent by (left; lia).
        rewrite <- !app_assoc.
        rewrite number_literal_parts; [|exact Hint|exact Hrest].
        rewrite Hback; [reflexivity|reflexivity|].
        cbn [exponent_value]. rewrite N2Z.inj_abs_N.
        destruct (Z.ltb_spec (k + e - 1) 0); lia.
    + destruct (Z.ltb_spec (-6) (k + e)) as [H6|Hsmall].
      * (* a zero, a point, zeros, digits *)
        rewrite of_digits_small by lia.
        rewrite <- !app_assoc.
        rewrite number_literal_point; [|reflexivity|exact Hrest].
        f_equal. f_equal. cbn [app].
        rewrite <- make_number_decimal
          with (ds := DecimalFacts.d0
                        :: repeat DecimalFacts.d0 (Z.to_nat (- (k + e))) ++ d :: ds)
               (m := m) (e := e);
          [|change (JSON.N_of_digits (DecimalFacts.d0 :: ?l))
              with (JSON.N_of_digits l);
            rewrite N_of_digits_leading; exact Hval
           |exact He|exact Hm].
        f_equal. rewrite length_app, repeat_length. cbn [length]. lia.
      * (* an exponent below -6 *)
        rewrite of_digits_exponent by (right; lia).
        rewrite <- !app_assoc.
        rewrite number_literal_parts; [|exact Hint|exact Hrest].
        rewrite Hback; [reflexivity|reflexivity|].
        cbn [exponent_value]. rewrite N2Z.inj_abs_N.
        destruct (Z.ltb_spec (k + e - 1) 0); lia.
Qed.

(** ** JSON text: strings *)

Lemma unhex_hex_unit (n : N) : (n < 16)%N -> JSON.unhex (hex_unit n) = Some n.
Proof.
  intros H.
  assert (Hn : In n [0; 1; 2; 3; 4; 5; 6; 7; 8; 9; 10; 11; 12; 13; 14; 15]%N).
  { destruct n as [|p]; [simpl; auto|].
    do 4 (destruct p as [p|p|]; simpl; auto 20; try lia). }
  simpl in Hn.
  repeat (destruct Hn as [<-|Hn]; [reflexivity|]). destruct Hn.
Qed.

Lemma hex_digits (c : N) :
  (c < 65536)%N ->
  ((c / 4096) mod 16 < 16 /\ (c / 256) mod 16 < 16
   /\ (c / 16) mod 16 < 16 /\ c mod 16 < 16
   /\ (c / 4096) mod 16 * 4096 + (c / 256) mod 16 * 256
      + (c / 16) mod 16 * 16 + c mod 16 = c)%N.
Proof.
  intros H.
  assert (E1 : (c / 256 = c / 16 / 16)%N) by (rewrite N.Div0.div_div; reflexivity).
  assert (E2 : (c / 4096 = c / 16 / 16 / 16)%N)
    by (rewrite !N.Div0.div_div; reflexivity).
  rewrite E1, E2.
  pose proof (N.div_mod c 16 ltac:(lia)).
  pose proof (N.div_mod (c / 16) 16 ltac:(lia)).
  pose proof (N.div_mod (c / 16 / 16) 16 ltac:(lia)).
  pose proof (N.div_mod (c / 16 / 16 / 16) 16 ltac:(lia)).
  pose proof (N.mod_upper_bound c 16 ltac:(lia)).
  pose proof (N.mod_upper_bound (c / 16) 16 ltac:(lia)).
  pose proof (N.mod_upper_bound (c / 16 / 16) 16 ltac:(lia)).
  pose proof (N.mod_upper_bound (c / 16 / 16 / 16) 16 ltac:(lia)).
  generalize dependent (c mod 16)%N.
  generalize dependent ((c / 16) mod 16)%N.
  generalize dependent ((c / 16 / 16) mod 16)%N.
  generalize dependent ((c / 16 / 16 / 16) mod 16)%N.
  generalize dependent (c / 16 / 16 / 16 / 16)%N.
  generalize dependent (c / 16 / 16 / 16)%N.
  generalize dependent (c / 16 / 16)%N.
  generalize dependent (c / 16)%N.
  intros. lia.
Qed.

(** A [\uXXXX] escape is read back as its code unit. *)
Lemma string_body_unicode_escape (c : N) (tail : jsstring) :
  (c < 65536)%N ->
  JSON.string_body (JSON.unicode_escape c ++ tail)
  = JSON.cons_unit c (JSON.string_body tail).
Proof.
  intros H. destruct (hex_digits c H) as [H1 [H2 [H3 [H4 E]]]].
  unfold JSON.unicode_escape, hex4.
  change (str "\u") with [92; 117]%N.
  cbn [app JSON.string_body N.eqb Pos.eqb]. unfold JSON.unhex4.
  rewrite !unhex_hex_unit by assumption. rewrite E. reflexivity.
Qed.

(** A character that needs no escape is read back as itself. *)
Lemma string_body_plain (c : N) (tail : jsstring) :
  c <> 34%N -> c <> 92%N -> (32 <= c)%N ->
  JSON.string_body (c :: tail) = JSON.cons_unit c (JSON.string_body tail).
Proof.
  intros H34 H92 H32. cbn [JSON.string_body].
  apply N.eqb_neq in H34. apply N.eqb_neq in H92. rewrite H34, H92.
  destruct (N.ltb_spec c 32); [lia|]. reflexivity.
Qed.

Lemma string_body_quote_unit (c : N) (tail : jsstring) :
  (c < 65536)%N ->
  JSON.string_body (JSON.quote_unit c ++ tail)
  = JSON.cons_unit c (JSON.string_body tail).
Proof.
  intros H. unfold JSON.quote_unit.
  destruct (N.eqb_spec c 8) as [->|H8]; [reflexivity|].
  destruct (N.eqb_spec c 9) as [->|H9]; [reflexivity|].
  destruct (N.eqb_spec c 10) as [->|H10]; [reflexivity|].
  destruct (N.eqb_spec c 12) as [->|H12]; [reflexivity|].
  destruct (N.eqb_spec c 13) as [->|H13]; [reflexivity|].
  destruct (N.eqb_spec c 34) as [->|H34]; [reflexivity|].
  destruct (N.eqb_spec c 92) as [->|H92]; [reflexivity|].
  destruct ((c <? 32)%N || JSON.is_low_surrogate c) eqn:E.
  - apply string_body_unicode_escape. exact H.
  - apply orb_false_iff in E. destruct E as [E _].
    apply N.ltb_ge in E. cbn [app]. apply string_body_plain; assumption.
Qed.

Lemma surrogate_plain (c : N) :
  JSON.is_high_surrogate c = true \/ JSON.is_low_surrogate c = true ->
  c <> 34%N /\ c <> 92%N /\ (32 <= c)%N.
Proof.
  unfold JSON.is_high_surrogate, JSON.is_low_surrogate.
  rewrite !andb_true_iff, !N.leb_le. lia.
Qed.

(** The characters of a string literal are read back as the string. *)
Lemma string_body_quote_units (n : nat) :
  forall (s rest : jsstring),
    length s <= n -> Spec.code_units s = true ->
    JSON.string_body (JSON.quote_units s ++ 34%N :: rest) = Some (s, rest).
Proof.
  induction n as [|n IH]; intros s rest Hlen Hunits.
  - destruct s; [reflexivity | simpl in Hlen; lia].
  - destruct s as [|c s]; [reflexivity|].
    simpl in Hlen. simpl in Hunits. apply andb_true_iff in Hunits.
    destruct Hunits as [Hc Hs]. apply N.ltb_lt in Hc.
    cbn [JSON.quote_units].
    destruct (JSON.is_high_surrogate c) eqn:Hhigh.
    + destruct s as [|c2 s].
      * rewrite string_body_unicode_escape by exact Hc. reflexivity.
      * destruct (JSON.is_low_surrogate c2) eqn:Hlow.
        -- simpl in Hs. apply andb_true_iff in Hs. destruct Hs as [_ Hs].
           destruct (surrogate_plain c (or_introl Hhigh)) as [A [B C]].
           destruct (surrogate_plain c2 (or_intror Hlow)) as [A2 [B2 C2]].
           cbn [app]. rewrite string_body_plain by assumption.
           rewrite string_body_plain by assumption.
           rewrite IH by (simpl in Hlen; auto; lia). reflexivity.
        -- rewrite <- app_assoc, string_body_unicode_escape by exact Hc.
           rewrite IH by (auto; lia). reflexivity.
    + rewrite <- app_assoc, string_body_quote_unit by exact Hc.
      rewrite IH by (auto; lia). reflexivity.
Qed.

Lemma string_body_quote (s rest : jsstring) :
  Spec.code_units s = true ->
  JSON.string_body (JSON.quote_units s ++ 34%N :: rest) = Some (s, rest).
Proof. apply (string_body_quote_units (length s)). apply Nat.le_refl. Qed.

(** ** JSON text: objects in property order *)

(** [a] comes before [k] in property order. *)
Lemma ordered_before (l1 : list jsstring) (k : jsstring) (l2 : list jsstring) :
  Spec.ordered_keys (l1 ++ k :: l2) = true ->
  Forall (fun a =>
            JsStr.eqb k a = false
            /\ match JsObj.array_index k with
               | Some n => exists na, JsObj.array_index a = Some na /\ (na < n)%N
               | None => True
               end) l1.
Proof.
  induction l1 as [|a l1 IH]; intros H; [constructor|].
  cbn [app Spec.ordered_keys] in H.
  apply andb_true_iff in H. destruct H as [H Hrest].
  apply andb_true_iff in H. destruct H as [Hdup Hidx].
  constructor; [|apply IH; exact Hrest].
  rewrite forallb_forall in Hdup.
  assert (Hin : In k (l1 ++ k :: l2)) by (apply in_or_app; right; left; reflexivity).
  split.
  - specialize (Hdup k Hin). apply negb_true_iff in Hdup. exact Hdup.
  - destruct (JsObj.array_index a) as [na|] eqn:Ea;
      rewrite forallb_forall in Hidx; specialize (Hidx k Hin).
    + destruct (JsObj.array_index k) as [n|]; [|exact I].
      exists na. split; [reflexivity|]. apply N.ltb_lt. exact Hidx.
    + unfold Spec.is_index in Hidx.
      destruct (JsObj.array_index k); [discriminate Hidx|exact I].
Qed.

Lemma insert_index_last (n : N) (k : jsstring) (v : JsValue) (o : IDataObject) :
  Forall (fun kv => exists na, JsObj.array_index (fst kv) = Some na /\ (na < n)%N) o ->
  JsObj.insert_index n k v o = o ++ [(k, v)].
Proof.
  induction o as [|[k' v'] o IH]; intros H; [reflexivity|].
  inversion H as [|? ? [na [Ena Hlt]] Ho]; subst. simpl in Ena.
  cbn [JsObj.insert_index app]. rewrite Ena.
  apply N.ltb_lt in Hlt. rewrite Hlt. f_equal. apply IH. exact Ho.
Qed.

Lemma has_own_fresh (o : IDataObject) (k : jsstring) :
  Forall (fun kv => JsStr.eqb k (fst kv) = false) o -> JsObj.has_own o k = false.
Proof.
  intros H. apply has_own_false. intros Hin.
  apply in_map_iff in Hin. destruct Hin as [[k' v] [E Hin]]. simpl in E. subst k'.
  rewrite Forall_forall in H. specialize (H _ Hin). simpl in H.
  rewrite eqb_refl in H. discriminate H.
Qed.

(** Creating the members of an object in property order gives the object. *)
Lemma define_ordered (o : IDataObject) :
  forall acc : IDataObject,
    Spec.ordered_keys (map fst (acc ++ o)) = true ->
    fold_left (fun a kv => JsObj.define (fst kv) (snd kv) a) o acc = acc ++ o.
Proof.
  induction o as [|[k v] o IH]; intros acc H.
  - rewrite app_nil_r. reflexivity.
  - cbn [fold_left fst snd].
    assert (Hdef : JsObj.define k v acc = acc ++ [(k, v)]).
    { rewrite map_app in H. cbn [map fst] in H.
      pose proof (ordered_before _ _ _ H) as Hb.
      unfold JsObj.define.
      rewrite has_own_fresh.
      - destruct (JsObj.array_index k) as [n|] eqn:Ek; [|reflexivity].
        apply insert_index_last.
        rewrite Forall_map in Hb.
        eapply Forall_impl; [|exact Hb]. intros kv [_ Hkv]. exact Hkv.
      - rewrite Forall_map in Hb.
        eapply Forall_impl; [|exact Hb]. intros kv [Hkv _]. exact Hkv. }
    rewrite Hdef, IH.
    + rewrite <- app_assoc. reflexivity.
    + rewrite <- app_assoc. exact H.
Qed.

(** ** JSON text: values *)

Lemma skip_ws_value (c : N) (t : jsstring) :
  JSON.is_ws c = false -> JSON.skip_ws (c :: t) = c :: t.
Proof. intros H. cbn [JSON.skip_ws]. rewrite H. reflexivity. Qed.

Lemma dec_Z_head (z : Z) :
  exists c t, dec_Z z = c :: t /\ (c = 45%N \/ exists d, c = digit_unit d).
Proof.
  unfold dec_Z. destruct (z <? 0)%Z.
  - do 2 eexists. split; [reflexivity|]. left. reflexivity.
  - destruct (digits_canonical (Z.abs_N z)) as [d [ds [Hds _]]].
    unfold dec. fold (JsNumber.digits_of (Z.abs_N z)). rewrite Hds.
    do 2 eexists. split; [reflexivity|]. right. exists d. reflexivity.
Qed.

(** An integer is read back from its numeral, as a value. *)
Lemma value_number (fuel : nat) (z : Z) (rest : jsstring) :
  JSON.delimited rest = true ->
  JSON.value (S fuel) (dec_Z z ++ rest) = Some (JsNumber (NInt z), rest).
Proof.
  intros Hrest. pose proof (number_literal_dec z rest Hrest) as Hnum.
  destruct (dec_Z_head z) as [c [t [E Hc]]]. rewrite E in *.
  cbn [JSON.value app].
  destruct Hc as [->|[d ->]].
  - cbn [JSON.skip_ws JSON.is_ws N.eqb Pos.eqb orb].
    cbn [app] in Hnum. rewrite Hnum. reflexivity.
  - destruct d; cbn [digit_unit] in *;
      cbn [JSON.skip_ws JSON.is_ws N.eqb Pos.eqb orb];
      cbn [app] in Hnum; rewrite Hnum; reflexivity.
Qed.

Lemma safe_integer_text (z : Z) :
  Spec.is_safe_integer z = true -> JsNumber.toString (NInt z) = dec_Z z.
Proof.
  unfold Spec.is_safe_integer. intros H. apply Z.leb_le in H.
  unfold JsNumber.toString.
  destruct (Z.ltb_spec (Z.abs z) (10 ^ 21)) as [_|Hbig]; [reflexivity|].
  exfalso. change (10 ^ 21)%Z with 1000000000000000000000%Z in Hbig. lia.
Qed.

Lemma unit_digit_inv (c : N) (d : DecimalFacts.digits) :
  unit_digit c = Some d -> c = digit_unit d.
Proof.
  unfold unit_digit. destruct c as [|p]; [discriminate|].
  do 7 (try destruct p as [p|p|]; try discriminate);
    intros H; inversion H; reflexivity.
Qed.

(** A number literal starts with a minus sign or a digit. *)
Lemma number_literal_head (s : jsstring) (r : JsNum * jsstring) :
  JSON.number_literal s = Some r ->
  exists c t, s = c :: t /\ (c = 45%N \/ exists d, c = digit_unit d).
Proof.
  destruct s as [|c t]; [discriminate|]. intros H. exists c, t.
  split; [reflexivity|]. unfold JSON.number_literal in H.
  destruct (N.eqb_spec c 45) as [E|_]; [left; exact E|right].
  cbn [JSON.span_digits] in H.
  destruct (unit_digit c) as [d|] eqn:Ed; [|discriminate H].
  exists d. apply unit_digit_inv. exact Ed.
Qed.

Lemma toString_head (n : JsNum) :
  Spec.json_number n = true ->
  exists c t, JsNumber.toString n = c :: t
              /\ (c = 45%N \/ exists d, c = digit_unit d).
Proof.
  intros Hn. pose proof (number_literal_toString n [] Hn eq_refl) as H.
  rewrite app_nil_r in H. exact (number_literal_head _ _ H).
Qed.

(** A Number is read back from its text. *)
Lemma value_toString (fuel : nat) (n : JsNum) (rest : jsstring) :
  Spec.json_number n = true ->
  JSON.delimited rest = true ->
  JSON.value (S fuel) (JsNumber.toString n ++ rest) = Some (JsNumber n, rest).
Proof.
  intros Hn Hrest. pose proof (number_literal_toString n rest Hn Hrest) as Hnum.
  destruct (toString_head n Hn) as [c [t [E Hc]]]. rewrite E in *.
  cbn [JSON.value app].
  destruct Hc as [->|[d ->]].
  - cbn [JSON.skip_ws JSON.is_ws N.eqb Pos.eqb orb].
    cbn [app] in Hnum. rewrite Hnum. reflexivity.
  - destruct d; cbn [digit_unit] in *;
      cbn [JSON.skip_ws JSON.is_ws N.eqb Pos.eqb orb];
      cbn [app] in Hnum; rewrite Hnum; reflexivity.
Qed.

Lemma join_cons2 (sep x y : jsstring) (l : list jsstring) :
  join sep (x :: y :: l) = x ++ sep ++ join sep (y :: l).
Proof. reflexivity. Qed.

Lemma chain_le_length {A} (measure : A -> nat) (l : list A) (parts : list jsstring) :
  Forall2 (fun x p => measure x <= length p) l parts ->
  JSON.chain (map measure l) <= length (join (str ",") parts) + 1.
Proof.
  induction 1 as [|x p l parts Hx Hl IH]; [simpl; lia|].
  cbn [map JSON.chain].
  destruct Hl as [|x2 p2 l parts Hx2 Hl].
  - simpl. lia.
  - change (join (str ",") (p :: p2 :: parts))
      with (p ++ str "," ++ join (str ",") (p2 :: parts)).
    rewrite !length_app. simpl length at 2.
    pose proof (Nat.le_max_l (measure x) (JSON.chain (map measure (x2 :: l)))).
    pose proof (Nat.max_lub_iff (measure x) (JSON.chain (map measure (x2 :: l)))
                  (measure x + JSON.chain (map measure (x2 :: l)))).
    lia.
Qed.

(** The elements of a non-empty array are read back, up to the closing
    bracket. *)
Lemma elements_parse (l : list JsValue) (parts : list jsstring) :
  Forall2 Spec.reads_back l parts -> l <> [] ->
  forall fuel rest,
    JSON.chain (map JSON.need l) <= fuel ->
    JSON.elements fuel (join (str ",") parts ++ 93%N :: rest) = Some (l, rest).
Proof.
  induction 1 as [|x p l parts Hx Hl IH]; intros Hne fuel rest Hfuel;
    [congruence|].
  cbn [map JSON.chain] in Hfuel.
  destruct fuel as [|fuel]; [lia|].
  destruct Hx as [_ [_ Hparse]].
  cbn [JSON.elements].
  destruct Hl as [|x2 p2 l parts Hx2 Hl].
  - cbn [join]. rewrite Hparse by (simpl in *; auto; lia). reflexivity.
  - change (join (str ",") (p :: p2 :: parts))
      with (p ++ str "," ++ join (str ",") (p2 :: parts)).
    rewrite <- !app_assoc. change (str ",") with [44%N]. cbn [app].
    rewrite Hparse by (auto; lia).
    cbn [JSON.skip_ws JSON.is_ws N.eqb Pos.eqb orb].
    rewrite IH by (try discriminate; lia). reflexivity.
Qed.

(** The members of a non-empty object are read back, up to the closing
    brace. *)
Lemma members_parse (o : IDataObject) (parts : list jsstring) :
  Forall2 (fun kv part =>
             exists t, part = JSON.quote (fst kv) ++ str ":" ++ t
                       /\ Spec.code_units (fst kv) = true
                       /\ Spec.reads_back (snd kv) t) o parts ->
  o <> [] ->
  forall fuel rest,
    JSON.chain (map (fun kv => JSON.need (snd kv)) o) <= fuel ->
    JSON.members fuel (join (str ",") parts ++ 125%N :: rest) = Some (o, rest).
Proof.
  induction 1 as [|[k x] p o parts Hx Ho IH]; intros Hne fuel rest Hfuel;
    [congruence|].
  cbn [map JSON.chain snd] in Hfuel.
  destruct fuel as [|fuel]; [lia|].
  destruct Hx as [t [-> [Hk [_ [_ Hparse]]]]]. cbn [fst snd] in *.
  cbn [JSON.members]. unfold JSON.quote.
  change (str ":") with [58%N].
  destruct Ho as [|kv2 p2 o parts Hx2 Ho].
  - cbn [join app]. cbn [JSON.skip_ws JSON.is_ws N.eqb Pos.eqb orb JSON.after].
    rewrite <- !app_assoc. cbn [app].
    rewrite string_body_quote by exact Hk.
    cbn [JSON.skip_ws JSON.is_ws N.eqb Pos.eqb orb JSON.after].
    rewrite Hparse by (simpl in *; auto; lia). reflexivity.
  - rewrite join_cons2. change (str ",") with [44%N].
    cbn [app]. cbn [JSON.skip_ws JSON.is_ws N.eqb Pos.eqb orb JSON.after].
    rewrite <- !app_assoc. cbn [app].
    rewrite string_body_quote by exact Hk.
    cbn [JSON.skip_ws JSON.is_ws N.eqb Pos.eqb orb JSON.after].
    rewrite Hparse by (auto; lia).
    cbn [JSON.skip_ws JSON.is_ws N.eqb Pos.eqb orb].
    rewrite IH by (try discriminate; lia). reflexivity.
Qed.

Lemma join_head (sep p : jsstring) (parts : list jsstring) :
  exists tail, join sep (p :: parts) = p ++ tail.
Proof.
  destruct parts as [|p2 parts].
  - exists []. simpl. rewrite app_nil_r. reflexivity.
  - eexists. apply join_cons2.
Qed.

Lemma elements_data (l : list JsValue) :
  Forall (fun v => Spec.json_value v = true ->
                   exists t, JSON.serialize v = ok (Some t) /\ Spec.reads_back v t) l ->
  forallb Spec.json_value l = true ->
  exists parts,
    JSON.serialize_elements JSON.serialize l = ok parts
    /\ Forall2 Spec.reads_back l parts.
Proof.
  induction 1 as [|x l Hx _ IH]; intros Hdata.
  - exists []. split; [reflexivity|constructor].
  - simpl in Hdata. apply andb_true_iff in Hdata. destruct Hdata as [Hd Hl].
    destruct (Hx Hd) as [t [Et Ht]]. destruct (IH Hl) as [parts [Ep Hp]].
    exists (t :: parts). split; [|constructor; assumption].
    cbn [JSON.serialize_elements]. rewrite Et. cbn [rbind ok]. rewrite Ep.
    reflexivity.
Qed.

Lemma members_data (o : IDataObject) :
  Forall (fun kv => Spec.json_value (snd kv) = true ->
                    exists t, JSON.serialize (snd kv) = ok (Some t)
                              /\ Spec.reads_back (snd kv) t) o ->
  forallb (fun kv => Spec.code_units (fst kv) && Spec.json_value (snd kv)) o = true ->
  exists parts,
    JSON.serialize_members JSON.serialize o = ok parts
    /\ Forall2 (fun kv part =>
                  exists t, part = JSON.quote (fst kv) ++ str ":" ++ t
                            /\ Spec.code_units (fst kv) = true
                            /\ Spec.reads_back (snd kv) t) o parts.
Proof.
  induction 1 as [|[k x] o Hx _ IH]; intros Hdata.
  - exists []. split; [reflexivity|constructor].
  - simpl in Hdata. apply andb_true_iff in Hdata. destruct Hdata as [Hd Ho].
    apply andb_true_iff in Hd. destruct Hd as [Hk Hd].
    destruct (Hx Hd) as [t [Et Ht]]. destruct (IH Ho) as [parts [Ep Hp]].
    exists ((JSON.quote k ++ str ":" ++ t) :: parts). split.
    + cbn [JSON.serialize_members]. simpl in Et. rewrite Et. cbn [rbind ok].
      rewrite Ep. reflexivity.
    + constructor; [|exact Hp]. exists t. auto.
Qed.

Ltac atom_reads_back :=
  split; [do 2 eexists; split; [reflexivity|split; reflexivity]|];
  split; [simpl; lia|];
  intros [|fuel] rest Hfuel Hrest; [simpl in Hfuel; lia|]; reflexivity.

(** The text of JSON data is read back as the data. *)
Lemma serialize_value_reads_back (v : JsValue) :
  Spec.json_value v = true ->
  exists t, JSON.serialize v = ok (Some t) /\ Spec.reads_back v t.
Proof.
  induction v as [| |b|n|s|z|d|src|time|bytes|l IH|o IH|up] using JsValue_ind;
    intros Hdata; try discriminate Hdata.
  - exists (str "null"). split; [reflexivity|]. atom_reads_back.
  - destruct b; eexists; (split; [reflexivity|]); atom_reads_back.
  - cbn [Spec.json_value] in Hdata.
    exists (JsNumber.toString n). split.
    { destruct n as [z|m e| | |]; try discriminate Hdata; reflexivity. }
    destruct (toString_head n Hdata) as [c [t [E Hc]]].
    split; [|split].
    + exists c, t. split; [exact E|].
      destruct Hc as [->|[dg ->]]; [|destruct dg]; split; reflexivity.
    + rewrite E. simpl. lia.
    + intros [|fuel] rest Hfuel Hrest; [simpl in Hfuel; lia|].
      apply value_toString; assumption.
  - simpl in Hdata. exists (JSON.quote s). split; [reflexivity|].
    split; [|split].
    + do 2 eexists. split; [reflexivity|]. split; reflexivity.
    + simpl. lia.
    + intros [|fuel] rest Hfuel Hrest; [simpl in Hfuel; lia|].
      unfold JSON.quote. cbn [JSON.value app].
      cbn [JSON.skip_ws JSON.is_ws N.eqb Pos.eqb orb].
      rewrite <- app_assoc. cbn [app].
      rewrite string_body_quote by exact Hdata. reflexivity.
  - simpl in Hdata. destruct (elements_data l IH Hdata) as [parts [Ep Hp]].
    exists (str "[" ++ join (str ",") parts ++ str "]"). split.
    { cbn [JSON.serialize]. rewrite Ep. reflexivity. }
    change (str "[") with [91%N]. change (str "]") with [93%N].
    split; [|split].
    + do 2 eexists. split; [reflexivity|]. split; reflexivity.
    + cbn [JSON.need app length]. rewrite length_app. simpl length at 2.
      apply le_n_S. apply chain_le_length.
      eapply Forall2_impl; [|exact Hp]. intros x p [_ [Hlen _]]. exact Hlen.
    + intros [|fuel] rest Hfuel Hrest; [simpl in Hfuel; lia|].
      cbn [JSON.need] in Hfuel. apply le_S_n in Hfuel.
      cbn [JSON.value app]. cbn [JSON.skip_ws JSON.is_ws N.eqb Pos.eqb orb].
      rewrite <- app_assoc. cbn [app].
      destruct Hp as [|x p l parts Hx Hl].
      * reflexivity.
      * destruct (join_head (str ",") p parts) as [tail Ej].
        pose proof Hx as [[c [p' [Ec [Hws H93]]]] _].
        assert (Hskip : JSON.after 93
                          (JSON.skip_ws (join (str ",") (p :: parts) ++ 93%N :: rest))
                        = None).
        { rewrite Ej, Ec. cbn [app]. rewrite skip_ws_value by exact Hws.
          cbn [JSON.after]. rewrite H93. reflexivity. }
        rewrite Hskip.
        rewrite (elements_parse (x :: l) (p :: parts));
          [reflexivity | constructor; [exact Hx|exact Hl]
          | discriminate | exact Hfuel].
  - simpl in Hdata. apply andb_true_iff in Hdata. destruct Hdata as [Hkeys Hdata].
    destruct (members_data o IH Hdata) as [parts [Ep Hp]].
    exists (str "{" ++ join (str ",") parts ++ str "}"). split.
    { cbn [JSON.serialize]. rewrite Ep. reflexivity. }
    change (str "{") with [123%N]. change (str "}") with [125%N].
    split; [|split].
    + do 2 eexists. split; [reflexivity|]. split; reflexivity.
    + cbn [JSON.need app length]. rewrite length_app. simpl length at 2.
      apply le_n_S. apply chain_le_length.
      eapply Forall2_impl; [|exact Hp].
      intros kv p [t [-> [_ [_ [Hlen _]]]]].
      rewrite !length_app. lia.
    + intros [|fuel] rest Hfuel Hrest; [simpl in Hfuel; lia|].
      cbn [JSON.need] in Hfuel. apply le_S_n in Hfuel.
      cbn [JSON.value app]. cbn [JSON.skip_ws JSON.is_ws N.eqb Pos.eqb orb].
      rewrite <- app_assoc. cbn [app].
      destruct Hp as [|kv p o parts Hx Ho].
      * reflexivity.
      * destruct (join_head (str ",") p parts) as [tail Ej].
        assert (Hskip : JSON.after 125
                          (JSON.skip_ws (join (str ",") (p :: parts) ++ 125%N :: rest))
                        = None).
        { unfold jsstring in *. rewrite Ej. destruct Hx as [t [-> _]]. reflexivity. }
        rewrite Hskip.
        rewrite (members_parse (kv :: o) (p :: parts));
          [| constructor; [exact Hx|exact Ho] | discriminate | exact Hfuel].
        unfold JSON.object_of_members.
        rewrite (define_ordered (kv :: o) []) by exact Hkeys. reflexivity.
Qed.

Lemma json_data_value (v : JsValue) :
  Spec.json_data v = true -> Spec.json_value v = true.
Proof.
  induction v as [| |b|n|s|z|d|src|time|bytes|l IH|o IH|up] using JsValue_ind;
    intros Hdata; try discriminate Hdata; try exact Hdata.
  - destruct n; try discriminate Hdata. reflexivity.
  - cbn [Spec.json_data Spec.json_value] in *. rewrite forallb_forall in *.
    rewrite Forall_forall in IH. intros x Hx. apply IH; auto.
  - cbn [Spec.json_data Spec.json_value] in *.
    apply andb_true_iff in Hdata. destruct Hdata as [Hkeys Hdata].
    rewrite Hkeys. cbn [andb]. rewrite forallb_forall in *.
    rewrite Forall_forall in IH. intros kv Hkv.
    specialize (Hdata kv Hkv). apply andb_true_iff in Hdata.
    destruct Hdata as [Hk Hd]. rewrite Hk. cbn [andb]. apply IH; assumption.
Qed.

(** The text of plain JSON data is read back as the data. *)
Lemma serialize_reads_back (v : JsValue) :
  Spec.json_data v = true ->
  exists t, JSON.serialize v = ok (Some t) /\ Spec.reads_back v t.
Proof. intros Hdata. apply serialize_value_reads_back, json_data_value, Hdata. Qed.

(** ** The round trip *)

(** C9, as amended.  On a composite made of JSON data only (null,
    booleans, finite numbers other than negative zero, whole or fractional,
    strings, arrays, and objects, whose keys the model lists in property
    order) the value normalizer answers the JSON serialization of its
    input, and parsing that text gives the input back. *)
Theorem json_round_trip (v : JsValue) :
  Spec.is_composite v = true ->
  Spec.json_value v = true ->
  exists text,
    convertToOracleType v = ok (JsString text)
    /\ JSON.stringify v = ok (JsString text)
    /\ JSON.parse text = ok v.
Proof.
  intros Hcomposite Hdata.
  destruct (serialize_value_reads_back v Hdata) as [t [Et [_ [Hlen Hparse]]]].
  exists t.
  assert (Hs : JSON.stringify v = ok (JsString t)).
  { unfold JSON.stringify. rewrite Et. reflexivity. }
  split; [|split; [exact Hs|]].
  - destruct v; try discriminate Hcomposite; exact Hs.
  - unfold JSON.parse.
    specialize (Hparse (S (length t)) [] (Nat.le_trans _ _ _ Hlen (Nat.le_succ_diag_r _))
                  eq_refl).
    rewrite app_nil_r in Hparse. rewrite Hparse. reflexivity.
Qed.

(** A record with a whole number, a price with a fraction, a large and a
    small number, and a list goes round. *)
Lemma json_round_trip_witness :
  exists text,
    convertToOracleType
      (JsObject [ (str "employee_id", JsNumber (NInt 1001));
                  (str "price", JsNumber (NDec 999 (-2)));
                  (str "large", JsNumber (NInt (10 ^ 21)));
                  (str "small", JsNumber (NDec (-15) (-8)));
                  (str "tags", JsArray [JsString (str "a"); JsNull; JsBool true]) ])
    = ok (JsString text)
    /\ JSON.stringify
         (JsObject [ (str "employee_id", JsNumber (NInt 1001));
                     (str "price", JsNumber (NDec 999 (-2)));
                     (str "large", JsNumber (NInt (10 ^ 21)));
                     (str "small", JsNumber (NDec (-15) (-8)));
                     (str "tags", JsArray [JsString (str "a"); JsNull; JsBool true]) ])
       = ok (JsString text)
    /\ JSON.parse text
       = ok (JsObject [ (str "employee_id", JsNumber (NInt 1001));
                        (str "price", JsNumber (NDec 999 (-2)));
                        (str "large", JsNumber (NInt (10 ^ 21)));
                        (str "small", JsNumber (NDec (-15) (-8)));
                        (str "tags",
                         JsArray [JsString (str "a"); JsNull; JsBool true]) ]).
Proof.
  apply (json_round_trip
           (JsObject [ (str "employee_id", JsNumber (NInt 1001));
                       (str "price", JsNumber (NDec 999 (-2)));
                       (str "large", JsNumber (NInt (10 ^ 21)));
                       (str "small", JsNumber (NDec (-15) (-8)));
                       (str "tags",
                        JsArray [JsString (str "a"); JsNull; JsBool true]) ]));
    reflexivity.
Defined.

(** The text of that record, number by number. *)
Example fractions_as_text :
  convertToOracleType
    (JsObject [ (str "price", JsNumber (NDec 999 (-2)));
                (str "large", JsNumber (NInt (10 ^ 21)));
                (str "small", JsNumber (NDec (-15) (-8))) ])
  = ok (JsString (str "{" ++ JSON.quote (str "price") ++ str ":9.99,"
                    ++ JSON.quote (str "large") ++ str ":1e+21,"
                    ++ JSON.quote (str "small") ++ str ":-1.5e-7}")).
Proof. vm_compute. reflexivity. Qed.

(** What is not JSON data is read back as something else: negative zero
    as zero, and NaN as null. *)
Example negative_zero_and_nan_are_not_read_back :
  convertToOracleType (JsArray [JsNumber NNegZero; JsNumber NNaN])
  = ok (JsString (str "[0,null]"))
  /\ JSON.parse (str "[0,null]") = ok (JsArray [JsNumber (NInt 0); JsNull]).
Proof. split; vm_compute; reflexivity. Qed.

(** C9, counterexample.  The array [[undefined]] is serialized as
    [[null]], which parses to an array holding null, not undefined. *)
Lemma undefined_element_is_not_read_back :
  convertToOracleType (JsArray [JsUndefined]) = ok (JsString (str "[null]"))
  /\ JSON.parse (str "[null]") = ok (JsArray [JsNull])
  /\ JsArray [JsNull] <> JsArray [JsUndefined].
Proof. repeat split; try reflexivity. discriminate. Qed.

(* ================================================================== *)
(** * Further properties of the code *)
(* ================================================================== *)

(** ** The type of the normalized values *)

Lemma stringify_composite (v : JsValue) (r : JsValue) :
  Spec.is_composite v = true -> JSON.stringify v = ok r ->
  exists text, r = JsString text.
Proof.
  unfold JSON.stringify. intros Hc.
  destruct v; try discriminate Hc; simpl JSON.serialize;
    try match goal with
        | |- context [JSON.serialize_elements ?f ?l] =>
            destruct (JSON.serialize_elements f l) as [e|parts]
        | |- context [JSON.serialize_members ?f ?l] =>
            destruct (JSON.serialize_members f l) as [e|parts]
        end;
    cbn [rbind ok]; intros H; try discriminate H; inversion H; eauto.
Qed.

Lemma convertToOracleType_oracle_type (v r : JsValue) :
  convertToOracleType v = ok r -> oracle_type r = true.
Proof.
  destruct v as [| |b|n|s|z|d|src|t|bytes|l|o|up];
    try (intros H; inversion H; reflexivity).
  - intros H. destruct (stringify_composite (JsArray l) r eq_refl H) as [text ->].
    reflexivity.
  - intros H. destruct (stringify_composite (JsObject o) r eq_refl H) as [text ->].
    reflexivity.
Qed.




(** ** Reading a bind back *)

Lemma own_property_replace (k : jsstring) (v : JsValue) (o : IDataObject)
    (k' : jsstring) :
  JsObj.has_own o k = true ->
  JsObj.own_property (JsObj.replace k v o) k'
  = if JsStr.eqb k k' then Some v else JsObj.own_property o k'.
Proof.
  unfold JsObj.has_own. induction o as [|[k0 v0] o IH]; simpl; [discriminate|].
  destruct (JsStr.eqb k0 k) eqn:E0.
  - intros _. apply eqb_eq in E0. subst k0. simpl.
    destruct (JsStr.eqb k k'); reflexivity.
  - intros H. simpl. rewrite (IH H).
    destruct (JsStr.eqb k0 k') eqn:E1; [|reflexivity].
    apply eqb_eq in E1. subst k0.
    apply eqb_neq in E0. destruct (JsStr.eqb k k') eqn:E2; [|reflexivity].
    apply eqb_eq in E2. congruence.
Qed.

Lemma own_property_insert_index (n : N) (k : jsstring) (v : JsValue)
    (o : IDataObject) (k' : jsstring) :
  JsObj.has_own o k = false ->
  JsObj.own_property (JsObj.insert_index n k v o) k'
  = if JsStr.eqb k k' then Some v else JsObj.own_property o k'.
Proof.
  unfold JsObj.has_own. induction o as [|[k0 v0] o IH]; simpl; [reflexivity|].
  destruct (JsStr.eqb k0 k) eqn:E0; [discriminate|]. intros H.
  destruct (JsObj.array_index k0) as [n'|]; [|reflexivity].
  destruct (n' <? n)%N; [|reflexivity].
  simpl. rewrite (IH H).
  destruct (JsStr.eqb k0 k') eqn:E1; [|reflexivity].
  apply eqb_eq in E1. subst k0.
  apply eqb_neq in E0. destruct (JsStr.eqb k k') eqn:E2; [|reflexivity].
  apply eqb_eq in E2. congruence.
Qed.

Lemma own_property_app (o o' : IDataObject) (k' : jsstring) :
  JsObj.own_property (o ++ o') k'
  = match JsObj.own_property o k' with
    | Some x => Some x
    | None => JsObj.own_property o' k'
    end.
Proof.
  induction o as [|[k0 v0] o IH]; simpl; [reflexivity|].
  destruct (JsStr.eqb k0 k'); [reflexivity|exact IH].
Qed.

(** Reading a property after [o[k] = v]: the value assigned under [k], and
    what was there under any other name. *)
Lemma own_property_define (k : jsstring) (v : JsValue) (o : IDataObject)
    (k' : jsstring) :
  JsObj.own_property (JsObj.define k v o) k'
  = if JsStr.eqb k k' then Some v else JsObj.own_property o k'.
Proof.
  unfold JsObj.define. destruct (JsObj.has_own o k) eqn:Hk.
  - apply own_property_replace. exact Hk.
  - destruct (JsObj.array_index k) as [n|].
    + apply own_property_insert_index. exact Hk.
    + rewrite own_property_app. simpl.
      destruct (JsStr.eqb k k') eqn:E.
      * apply eqb_eq in E. subst k'. unfold JsObj.has_own in Hk.
        destruct (JsObj.own_property o k); [discriminate Hk|reflexivity].
      * destruct (JsObj.own_property o k'); reflexivity.
Qed.

Lemma own_property_set (k : jsstring) (v : JsValue) (o : IDataObject)
    (k' : jsstring) :
  JsObj.has_own o (str "__proto__") = false ->
  JsObj.own_property (JsObj.set k v o) k'
  = if JsStr.eqb k (str "__proto__") then JsObj.own_property o k'
    else if JsStr.eqb k k' then Some v else JsObj.own_property o k'.
Proof.
  intros Hp. unfold JsObj.set.
  destruct (JsStr.eqb k (str "__proto__")) eqn:E.
  - apply eqb_eq in E. subst k. rewrite Hp. reflexivity.
  - simpl. apply own_property_define.
Qed.

Lemma set_keeps_proto (k : jsstring) (v : JsValue) (o : IDataObject) :
  JsObj.has_own o (str "__proto__") = false ->
  JsObj.has_own (JsObj.set k v o) (str "__proto__") = false.
Proof.
  intros Hp. unfold JsObj.has_own at 1. rewrite own_property_set by exact Hp.
  unfold JsObj.has_own in Hp.
  destruct (JsStr.eqb k (str "__proto__")); exact Hp.
Qed.

Lemma own_property_In (o : IDataObject) (k : jsstring) (v : JsValue) :
  JsObj.own_property o k = Some v -> In (k, v) o.
Proof.
  induction o as [|[k0 v0] o IH]; simpl; [discriminate|].
  destruct (JsStr.eqb k0 k) eqn:E.
  - intros H. inversion H; subst. apply eqb_eq in E. subst. left. reflexivity.
  - intros H. right. apply IH. exact H.
Qed.

Lemma own_property_None (o : IDataObject) (k : jsstring) :
  ~ In k (map fst o) -> JsObj.own_property o k = None.
Proof.
  intros H. pose proof (has_own_false o k H) as Hf. unfold JsObj.has_own in Hf.
  destruct (JsObj.own_property o k); [discriminate Hf|reflexivity].
Qed.

Lemma query_binds_own (entries : IDataObject) :
  forall acc binds : IDataObject,
    NoDup (map fst entries) ->
    JsObj.has_own acc (str "__proto__") = false ->
    Statement.query_binds entries acc = ok binds ->
    JsObj.has_own binds (str "__proto__") = false
    /\ forall k,
         JsStr.eqb k (str "__proto__") = false ->
         match JsObj.own_property entries k with
         | Some value =>
             exists v, convertToOracleType value = ok v
                       /\ JsObj.own_property binds k = Some v
         | None => JsObj.own_property binds k = JsObj.own_property acc k
         end.
Proof.
  induction entries as [|[key value] entries IH]; intros acc binds Hnd Hp H.
  - inversion H; subst. split; [exact Hp|]. intros k _. reflexivity.
  - cbn [Statement.query_binds] in H.
    destruct (convertToOracleType value) as [e|v] eqn:Ev; [discriminate H|].
    cbn [rbind] in H. cbn [map fst] in Hnd. inversion Hnd as [|? ? Hnew Hnd']; subst.
    destruct (IH _ _ Hnd' (set_keeps_proto key v acc Hp) H) as [Hp' Hown].
    split; [exact Hp'|]. intros k Hk. specialize (Hown k Hk).
    cbn [JsObj.own_property].
    destruct (JsStr.eqb key k) eqn:E.
    + apply eqb_eq in E. subst k.
      rewrite (own_property_None entries key Hnew) in Hown.
      rewrite own_property_set in Hown by exact Hp. rewrite Hk, eqb_refl in Hown.
      exists v. split; [exact Ev|exact Hown].
    + destruct (JsObj.own_property entries k) as [value'|]; [exact Hown|].
      rewrite Hown, own_property_set by exact Hp. rewrite E.
      destruct (JsStr.eqb key (str "__proto__")); reflexivity.
Qed.

Lemma procedure_entries_binds (entries : IDataObject) :
  forall (acc : IDataObject) (names : list jsstring),
    Statement.procedure_entries entries acc names
    = (let? binds := Statement.query_binds entries acc in
       ok (binds, names ++ map (fun kv => str ":" ++ fst kv) entries)).
Proof.
  induction entries as [|[key value] entries IH]; intros acc names.
  - simpl. rewrite app_nil_r. reflexivity.
  - cbn [Statement.procedure_entries Statement.query_binds map fst].
    destruct (convertToOracleType value) as [e|v]; [reflexivity|].
    cbn [rbind]. rewrite IH.
    destruct (Statement.query_binds entries (JsObj.set key v acc)); [reflexivity|].
    cbn [rbind]. rewrite <- app_assoc. reflexivity.
Qed.

(** X2.  The binds of executeQuery and of executeProcedure, read by name:
    every entry of the parameter object whose name is not [__proto__] is
    bound under its own name to its normalized value; nothing else is bound,
    and [__proto__] is never a bind name. *)
Theorem binds_by_name (entries binds : IDataObject) :
  NoDup (map fst entries) ->
  Statement.query_binds entries [] = ok binds
  \/ (exists paramNames,
        Statement.procedure_entries entries [] [] = ok (binds, paramNames)) ->
  (forall key value,
     In (key, value) entries -> key <> str "__proto__" ->
     exists v, convertToOracleType value = ok v
               /\ JsObj.own_property binds key = Some v)
  /\ (forall key,
        JsObj.has_own binds key = true ->
        In key (map fst entries) /\ key <> str "__proto__").
Proof.
  intros Hnd Hb.
  assert (H : Statement.query_binds entries [] = ok binds).
  { destruct Hb as [H|[names H]]; [exact H|].
    rewrite procedure_entries_binds in H.
    destruct (Statement.query_binds entries []) as [e|b]; [discriminate H|].
    cbn [rbind] in H. inversion H. reflexivity. }
  clear Hb.
  destruct (query_binds_own entries [] binds Hnd eq_refl H) as [Hp Hown].
  split.
  - intros key value Hin Hkey. apply eqb_neq in Hkey.
    specialize (Hown key Hkey).
    assert (E : JsObj.own_property entries key = Some value).
    { clear - Hnd Hin. induction entries as [|[k0 v0] entries IH]; [destruct Hin|].
      cbn [map fst] in Hnd. inversion Hnd as [|? ? Hnew Hnd']; subst. simpl.
      destruct Hin as [Hin|Hin].
      - inversion Hin; subst. rewrite eqb_refl. reflexivity.
      - destruct (JsStr.eqb k0 key) eqn:E; [|apply IH; assumption].
        apply eqb_eq in E. subst k0. exfalso. apply Hnew.
        apply in_map_iff. exists (key, value). auto. }
    rewrite E in Hown. exact Hown.
  - intros key Hhas.
    destruct (JsStr.eqb key (str "__proto__")) eqn:Hk.
    { apply eqb_eq in Hk. subst key. rewrite Hp in Hhas. discriminate Hhas. }
    specialize (Hown key Hk). split; [|apply eqb_neq; exact Hk].
    destruct (JsObj.own_property entries key) as [value|] eqn:E.
    + apply own_property_In in E. apply in_map_iff. exists (key, value). auto.
    + unfold JsObj.has_own in Hhas. rewrite Hown in Hhas. discriminate Hhas.
Qed.

(** The parameters [{id: true, __proto__: null}] bind [id] alone. *)
Lemma binds_by_name_witness :
  (forall key value,
     In (key, value) [(str "id", JsBool true); (str "__proto__", JsNull)] ->
     key <> str "__proto__" ->
     exists v, convertToOracleType value = ok v
               /\ JsObj.own_property [(str "id", JsNumber (NInt 1))] key = Some v)
  /\ (forall key,
        JsObj.has_own [(str "id", JsNumber (NInt 1))] key = true ->
        In key (map fst [(str "id", JsBool true); (str "__proto__", JsNull)])
        /\ key <> str "__proto__").
Proof.
  apply (binds_by_name [(str "id", JsBool true); (str "__proto__", JsNull)]
           [(str "id", JsNumber (NInt 1))]).
  - repeat constructor; simpl; intuition discriminate.
  - left. reflexivity.
Defined.

(** ** The binds of every statement *)











Ltac case_operation operation :=
  repeat match goal with
         | |- context [JsStr.eqb operation ?k] =>
             let E := fresh "E" in destruct (JsStr.eqb operation k) eqn:E
         end.

Ltac case_rbind :=
  repeat match goal with
         | |- context [rbind ?r _] =>
             let e := fresh "e" in
             let E := fresh "E" in
             destruct r as [e|?] eqn:E; cbn [rbind]
         end.

Section Binds.

Variable this : Host.


End Binds.

(** ** The calls of an invocation, in order *)

Section Calls.

Variables World Connection : Type.
Variable driver : Driver World Connection.
Variable this : Host.

(** One turn of the loop makes the execution of its request and no other
    call; with continue-past-failure it does not fail. *)
Lemma turn_trace (c : Connection) (operation : jsstring) (options : IDataObject)
    (i : nat) (item : INodeExecutionData) (s : State World Connection) :
  let turn := try_catch (process_item driver this c operation options i item)
                (on_item_error this) s in
  trace (fst turn) = trace s ++ execution (request this operation options i item)
  /\ connection (fst turn) = connection s
  /\ (continueOnFail this = true -> snd turn = ok tt).
Proof.
  cbv zeta. unfold try_catch.
  rewrite (process_item_perform World Connection driver this). unfold perform.
  destruct (request this operation options i item) as [e|[rq|]]; cbn [execution].
  - unfold on_item_error, throw. destruct (continueOnFail this); simpl;
      rewrite app_nil_r; repeat split; intros H; discriminate H.
  - destruct (connection_execute driver c (req_sql rq) (req_binds rq)
                (req_options rq) (world s)) as [w [e|result]].
    + unfold on_item_error, throw. destruct (continueOnFail this); simpl;
        repeat split; intros H; discriminate H.
    + simpl. repeat split.
  - simpl. rewrite app_nil_r. repeat split.
Qed.

Lemma firstn_app_all {A} (l l' : list A) (n : nat) :
  firstn (length l + n) (l ++ l') = l ++ firstn n l'.
Proof. rewrite firstn_app_2. reflexivity. Qed.

(** The loop executes the planned statements in input order, up to the
    record that stops it. *)
Lemma loop_planned (c : Connection) (operation : jsstring) (options : IDataObject)
    (items : list INodeExecutionData) :
  forall (i : nat) (s : State World Connection),
    let result := loop driver this c operation options i items s in
    connection (fst result) = connection s
    /\ (continueOnFail this = true -> snd result = ok tt)
    /\ exists n,
         trace (fst result)
         = trace s ++ firstn n (planned this operation options i items)
         /\ (snd result = ok tt ->
             firstn n (planned this operation options i items)
             = planned this operation options i items).
Proof.
  induction items as [|item rest IH]; intros i s; cbv zeta.
  - simpl. repeat split; auto. exists 0. simpl. rewrite app_nil_r. auto.
  - rewrite loop_cons.
    pose proof (turn_trace c operation options i item s) as Hturn. cbv zeta in Hturn.
    destruct (try_catch (process_item driver this c operation options i item)
                (on_item_error this) s) as [s1 [e|[]]];
      cbn [fst snd] in Hturn; destruct Hturn as [Ht [Hc Hcont]].
    + cbn [fst snd]. split; [exact Hc|]. split; [exact Hcont|].
      exists (length (execution (request this operation options i item))).
      cbn [planned]. split; [|intros H; discriminate H].
      rewrite Ht. f_equal.
      rewrite <- (Nat.add_0_r (length _)), firstn_app_all. simpl.
      rewrite app_nil_r. reflexivity.
    + specialize (IH (S i) s1). cbv zeta in IH.
      destruct IH as [Hc' [Hcont' [n [Ht' Hall]]]].
      split; [congruence|]. split; [exact Hcont'|].
      exists (length (execution (request this operation options i item)) + n).
      cbn [planned]. rewrite firstn_app_all. split.
      * rewrite Ht', Ht, app_assoc. reflexivity.
      * intros H. rewrite (Hall H). reflexivity.
Qed.

Lemma planned_In (operation : jsstring) (options : IDataObject)
    (items : list INodeExecutionData) (ev : Event) :
  forall i,
    In ev (planned this operation options i items) ->
    exists j item rq,
      request this operation options j item = ok (Some rq)
      /\ In item items
      /\ ev = EvExecute (req_sql rq) (req_binds rq) (req_options rq).
Proof.
  induction items as [|item rest IH]; intros i Hin; [destruct Hin|].
  cbn [planned] in Hin. apply in_app_or in Hin. destruct Hin as [Hin|Hin].
  - destruct (request this operation options i item) as [e|[rq|]] eqn:E;
      try destruct Hin as [Hin|[]]; try destruct Hin.
    exists i, item, rq. split; [exact E|]. split; [left; reflexivity|auto].
  - destruct (IH _ Hin) as [j [it [rq [E [Hit Hev]]]]].
    exists j, it, rq. split; [exact E|]. split; [right; exact Hit|exact Hev].
Qed.

Lemma planned_length (operation : jsstring) (options : IDataObject)
    (items : list INodeExecutionData) :
  forall i, length (planned this operation options i items) <= length items.
Proof.
  induction items as [|item rest IH]; intros i; [apply Nat.le_refl|].
  cbn [planned]. rewrite length_app. specialize (IH (S i)). simpl length at 3.
  destruct (request this operation options i item) as [e|[rq|]]; simpl; lia.
Qed.

Lemma planned_executes (operation : jsstring) (options : IDataObject)
    (items : list INodeExecutionData) :
  forall i, forallb is_execute (planned this operation options i items) = true.
Proof.
  induction items as [|item rest IH]; intros i; [reflexivity|].
  cbn [planned]. rewrite forallb_app, IH, andb_true_r.
  destruct (request this operation options i item) as [e|[rq|]]; reflexivity.
Qed.

(** The calls of an invocation: none when the credentials or the
    parameters do not resolve; the initialization and the connection
    attempt when that fails; else the initialization, the connection, the
    planned executions up to the record that stops the loop, and the
    close. *)
Lemma run_calls (w : World) :
  (exists e,
     run driver this w = (initial Connection w, inl e)
     /\ (getCredentials this (str "oracleDb") = inl e
         \/ getNodeParameter_string this (str "operation") 0 = inl e
         \/ getNodeParameter_object this (str "options") 0 [] = inl e))
  \/ exists credentials operation options detail,
       getCredentials this (str "oracleDb") = ok credentials
       /\ getNodeParameter_string this (str "operation") 0 = ok operation
       /\ getNodeParameter_object this (str "options") 0 [] = ok options
       /\ trace (started driver w) = EvInitOracleClient :: detail
       /\ (detail = [] \/ exists t d, detail = [EvConsoleLog t d])
       /\ ((exists s e,
              connected driver credentials w = (s, inl e)
              /\ run driver this w = (s, inl (wrap this e))
              /\ trace s
                 = EvInitOracleClient :: detail
                     ++ [EvGetConnection (connection_config credentials) false])
           \/ (exists s c n tail,
                 connected driver credentials w = (s, inr c)
                 /\ trace (fst (run driver this w))
                    = EvInitOracleClient :: detail
                        ++ [EvGetConnection (connection_config credentials) true]
                        ++ firstn n (planned this operation options 0
                                       (getInputData this))
                        ++ EvClose :: tail
                 /\ (tail = []
                     \/ exists e,
                          tail = [EvConsoleError (str "Error closing connection:") e])
                 /\ (forall out,
                       snd (run driver this w) = ok out ->
                       firstn n (planned this operation options 0 (getInputData this))
                       = planned this operation options 0 (getInputData this))
                 /\ (continueOnFail this = true ->
                     exists out, snd (run driver this w) = ok [out])
                 /\ (forall e, snd (run driver this w) = inl e ->
                               exists e0, e = wrap this e0))).
Proof.
  destruct (getCredentials this (str "oracleDb")) as [e|cred] eqn:Hc.
  { left. exists e. rewrite (run_unresolved _ _ driver this w e) by auto. auto. }
  destruct (getNodeParameter_string this (str "operation") 0) as [e|op] eqn:Ho.
  { left. exists e.
    rewrite (run_unresolved _ _ driver this w e) by (right; exists cred; auto). auto. }
  destruct (getNodeParameter_object this (str "options") 0 []) as [e|opts] eqn:Hopt.
  { left. exists e.
    rewrite (run_unresolved _ _ driver this w e)
      by (right; exists cred; split; [exact Hc|]; right; exists op; auto).
    auto. }
  right. destruct (started_spec _ _ driver w) as [_ [_ [detail [Hst Hdetail]]]].
  exists cred, op, opts, detail.
  repeat match goal with |- _ /\ _ => split; [solve [auto]|] end.
  destruct (connected driver cred w) as [s1 [e|c]] eqn:Hconn;
    destruct (connected_spec _ _ _ _ _ _ _ Hconn) as [Hnone [Hnil Ht1]].
  - left. exists s1, e. split; [reflexivity|]. split.
    + apply (run_not_connected _ _ driver this w cred op opts s1 e Hc Ho Hopt Hconn).
    + rewrite Ht1, Hst. reflexivity.
  - right.
    rewrite (run_connected _ _ driver this w cred op opts s1 c Hc Ho Hopt Hconn).
    pose proof (loop_planned c op opts (getInputData this) 0 (assigned c s1)) as Hl.
    cbv zeta in Hl.
    destruct (loop driver this c op opts 0 (getInputData this) (assigned c s1))
      as [s' r]. cbn [fst snd] in Hl.
    destruct Hl as [Hconn' [Hcont [n [Ht Hall]]]].
    destruct (release_spec _ _ driver s') as [s'' [Hrel [_ Hclose]]].
    rewrite Hconn' in Hclose. simpl in Hclose.
    destruct Hclose as [tail [Ht'' Htail]].
    exists s1, c, n, tail. split; [reflexivity|].
    rewrite Hrel. cbn [fst snd]. split; [|split; [|split; [|split]]].
    + rewrite Ht'', Ht. simpl. rewrite Ht1, Hst. simpl.
      rewrite <- !app_assoc. reflexivity.
    + destruct Htail as [->|[e [_ ->]]]; eauto.
    + intros out Hout. apply Hall. destruct r as [e|[]]; [discriminate Hout|reflexivity].
    + intros Hc1. rewrite (Hcont Hc1). exists (returnData s'). reflexivity.
    + intros e He. destruct r as [e0|[]]; [|discriminate He].
      inversion He. eauto.
Qed.

End Calls.

Lemma firstn_In {A} (n : nat) (l : list A) (x : A) : In x (firstn n l) -> In x l.
Proof.
  revert l; induction n as [|n IH]; intros [|a l]; simpl; try tauto.
  intros [H|H]; [left; exact H | right; apply IH; exact H].
Qed.

Lemma tail_not_call (tail : list Event) :
  tail = [] \/ (exists e, tail = [EvConsoleError (str "Error closing connection:") e]) ->
  forall ev, In ev tail ->
    exists t e, ev = EvConsoleError t e.
Proof.
  intros [->|[e ->]] ev; simpl; [tauto|]. intros [<-|[]]. eauto.
Qed.

Lemma detail_not_call (detail : list Event) :
  detail = [] \/ (exists t d, detail = [EvConsoleLog t d]) ->
  forall ev, In ev detail -> exists t d, ev = EvConsoleLog t d.
Proof.
  intros [->|[t [d ->]]] ev; simpl; [tauto|]. intros [<-|[]]. eauto.
Qed.

(** X3.  The calls of an invocation that got its connection, in order: the
    client initialization (and the log of its failure), the connection, the
    executions that the input records ask for, in input order and one per
    record at most, and the close.  The executions stop at the record that
    aborts the loop; they are all made when the invocation answers. *)
Theorem executions_in_input_order (World Connection : Type)
    (driver : Driver World Connection) (this : Host) (w : World)
    (credentials : Credentials) (operation : jsstring) (options : IDataObject)
    (s : State World Connection) (c : Connection) :
  getCredentials this (str "oracleDb") = ok credentials ->
  getNodeParameter_string this (str "operation") 0 = ok operation ->
  getNodeParameter_object this (str "options") 0 [] = ok options ->
  connected driver credentials w = (s, inr c) ->
  let all := planned this operation options 0 (getInputData this) in
  exists detail n tail,
    trace (fst (run driver this w))
    = EvInitOracleClient :: detail
        ++ [EvGetConnection (connection_config credentials) true]
        ++ firstn n all ++ EvClose :: tail
    /\ (forall ev, In ev detail -> exists t d, ev = EvConsoleLog t d)
    /\ (forall ev, In ev tail -> exists t e, ev = EvConsoleError t e)
    /\ (forall out, snd (run driver this w) = ok out -> firstn n all = all)
    /\ length all <= length (getInputData this).
Proof.
  intros Hc Ho Hopt Hconn all.
  unfold ok in Hc, Ho, Hopt.
  destruct (run_calls World Connection driver this w)
    as [[e [_ [H|[H|H]]]]|[cred [op [opts [detail [Hc' [Ho' [Hopt' [_ [Hd H]]]]]]]]]];
    try congruence.
  unfold ok in Hc', Ho', Hopt'.
  assert (cred = credentials) by congruence.
  assert (op = operation) by congruence.
  assert (opts = options) by congruence. subst.
  destruct H as [[s1 [e [Hconn' _]]]|[s1 [c1 [n [tail [_ [Ht [Htail [Hall _]]]]]]]]];
    [congruence|].
  exists detail, n, tail. split; [exact Ht|].
  split; [apply detail_not_call; exact Hd|].
  split; [apply tail_not_call; exact Htail|].
  split; [exact Hall|]. apply planned_length.
Qed.

(** Three inserts of which the second fails, without continue-past-failure:
    the first two are executed, in order, and the connection is closed. *)
Lemma executions_in_input_order_witness :
  let all := planned (Sample.insert_host false) (str "insert") [] 0
               (getInputData (Sample.insert_host false)) in
  exists detail n tail,
    trace (fst (run (Sample.driver true (Some 1) Sample.done true)
                    (Sample.insert_host false) 0))
    = EvInitOracleClient :: detail
        ++ [EvGetConnection (connection_config Sample.credentials) true]
        ++ firstn n all ++ EvClose :: tail
    /\ (forall ev, In ev detail -> exists t d, ev = EvConsoleLog t d)
    /\ (forall ev, In ev tail -> exists t e, ev = EvConsoleError t e)
    /\ (forall out,
          snd (run (Sample.driver true (Some 1) Sample.done true)
                   (Sample.insert_host false) 0) = ok out ->
          firstn n all = all)
    /\ length all <= length (getInputData (Sample.insert_host false)).
Proof.
  apply (executions_in_input_order nat unit
           (Sample.driver true (Some 1) Sample.done true)
           (Sample.insert_host false) 0 Sample.credentials (str "insert") []
           (fst (connected (Sample.driver true (Some 1) Sample.done true)
                   Sample.credentials 0)) tt);
    reflexivity.
Defined.

(** X4.  With continue-past-failure, an invocation that got its connection
    never raises: it answers one list of items, and the statement of every
    record is executed, whatever happened to the records before it. *)
Theorem continue_never_raises (World Connection : Type)
    (driver : Driver World Connection) (this : Host) (w : World)
    (credentials : Credentials) (operation : jsstring) (options : IDataObject)
    (s : State World Connection) (c : Connection) :
  getCredentials this (str "oracleDb") = ok credentials ->
  getNodeParameter_string this (str "operation") 0 = ok operation ->
  getNodeParameter_object this (str "options") 0 [] = ok options ->
  connected driver credentials w = (s, inr c) ->
  continueOnFail this = true ->
  (exists out, snd (run driver this w) = ok [out])
  /\ filter is_execute (trace (fst (run driver this w)))
     = planned this operation options 0 (getInputData this).
Proof.
  intros Hc Ho Hopt Hconn Hcont.
  unfold ok in Hc, Ho, Hopt.
  destruct (run_calls World Connection driver this w)
    as [[e [_ [H|[H|H]]]]|[cred [op [opts [detail [Hc' [Ho' [Hopt' [_ [Hd H]]]]]]]]]];
    try congruence.
  unfold ok in Hc', Ho', Hopt'.
  assert (cred = credentials) by congruence.
  assert (op = operation) by congruence.
  assert (opts = options) by congruence. subst.
  destruct H as [[s1 [e [Hconn' _]]]|[s1 [c1 [n [tail [_ [Ht [Htail [Hall [Hok _]]]]]]]]]];
    [congruence|].
  destruct (Hok Hcont) as [out Hout]. split; [exists out; exact Hout|].
  rewrite Ht, (Hall _ Hout).
  change (EvInitOracleClient :: detail ++ ?l) with ((EvInitOracleClient :: detail) ++ l).
  rewrite !filter_app.
  assert (Hp : forall l, forallb is_execute l = true -> filter is_execute l = l).
  { induction l as [|x l IH]; simpl; [reflexivity|].
    rewrite andb_true_iff. intros [-> Hl]. rewrite (IH Hl). reflexivity. }
  rewrite (Hp _ (planned_executes this operation options (getInputData this) 0)).
  destruct Hd as [->|[t [d ->]]]; destruct Htail as [->|[e ->]]; simpl;
    rewrite app_nil_r; reflexivity.
Qed.

(** Three inserts of which the second fails, with continue-past-failure. *)
Lemma continue_never_raises_witness :
  (exists out,
     snd (run (Sample.driver true (Some 1) Sample.done true)
              (Sample.insert_host true) 0) = ok [out])
  /\ filter is_execute
       (trace (fst (run (Sample.driver true (Some 1) Sample.done true)
                        (Sample.insert_host true) 0)))
     = planned (Sample.insert_host true) (str "insert") [] 0
         (getInputData (Sample.insert_host true)).
Proof.
  apply (continue_never_raises nat unit
           (Sample.driver true (Some 1) Sample.done true)
           (Sample.insert_host true) 0 Sample.credentials (str "insert") []
           (fst (connected (Sample.driver true (Some 1) Sample.done true)
                   Sample.credentials 0)) tt);
    reflexivity.
Defined.





(** X7.  A connection attempt that fails aborts the invocation at once:
    what is raised is the NodeOperationError constructed from the message of
    the driver's error, nothing is executed and nothing is closed. *)
Theorem connection_failure_aborts (World Connection : Type)
    (driver : Driver World Connection) (this : Host) (w : World)
    (credentials : Credentials) (operation : jsstring) (options : IDataObject)
    (w' : World) (e : Exn) :
  getCredentials this (str "oracleDb") = ok credentials ->
  getNodeParameter_string this (str "operation") 0 = ok operation ->
  getNodeParameter_object this (str "options") 0 [] = ok options ->
  getConnection driver (connection_config credentials)
    (fst (initOracleClient driver w)) = (w', inl e) ->
  snd (run driver this w)
  = inl (NodeOperationError this
           (match e with
            | ErrorObject _ message => message
            | Thrown _ => str "An unknown error occurred"
            end))
  /\ world (fst (run driver this w)) = w'
  /\ count is_execute (trace (fst (run driver this w))) = 0
  /\ count is_close (trace (fst (run driver this w))) = 0
  /\ count is_acquired (trace (fst (run driver this w))) = 0.
Proof.
  intros Hc Ho Hopt Hconn.
  assert (Hw : world (started driver w) = fst (initOracleClient driver w)).
  { unfold started, try_catch, call_initOracleClient. simpl.
    destruct (initOracleClient driver w) as [w1 [e1|]]; reflexivity. }
  destruct (connected driver credentials w) as [s r] eqn:Es.
  assert (Hr : r = inl e /\ world s = w').
  { unfold connected, call_getConnection in Es. rewrite Hw, Hconn in Es.
    inversion Es; subst. split; reflexivity. }
  destruct Hr as [-> Hws].
  rewrite (run_not_connected _ _ driver this w credentials operation options s e
             Hc Ho Hopt Es).
  destruct (connected_spec _ _ _ _ _ _ _ Es) as [_ [_ Ht]].
  destruct (started_counts _ _ driver w) as [Hsc [Hsa Hse]].
  cbn [fst snd]. rewrite Ht, !count_app, Hsc, Hsa, Hse.
  repeat split; try reflexivity; try exact Hws.
  destruct e; reflexivity.
Qed.

(** No listener: the three inserts are not attempted. *)
Lemma connection_failure_aborts_witness :
  snd (run (Sample.driver false None Sample.done true) (Sample.insert_host true) 0)
  = inl (ErrorObject ClsNodeOperationError (str "ORA-12541: no listener"))
  /\ world (fst (run (Sample.driver false None Sample.done true)
                     (Sample.insert_host true) 0)) = 0
  /\ count is_execute
       (trace (fst (run (Sample.driver false None Sample.done true)
                        (Sample.insert_host true) 0))) = 0
  /\ count is_close
       (trace (fst (run (Sample.driver false None Sample.done true)
                        (Sample.insert_host true) 0))) = 0
  /\ count is_acquired
       (trace (fst (run (Sample.driver false None Sample.done true)
                        (Sample.insert_host true) 0))) = 0.
Proof.
  apply (connection_failure_aborts nat unit
           (Sample.driver false None Sample.done true) (Sample.insert_host true) 0
           Sample.credentials (str "insert") [] 0
           (ErrorObject ClsError (str "ORA-12541: no listener")));
    reflexivity.
Defined.

(** X8.  Every connection attempt of an invocation is made with the user
    and the password of the credentials, and with their connection string
    when it is not empty, else with [host:port/serviceName].  A connection
    string left at the default that the credential type declares does not
    override the three fields. *)
Theorem connection_attributes (World Connection : Type)
    (driver : Driver World Connection) (this : Host) (w : World)
    (attrs : ConnectionAttributes) (acquired : bool) :
  In (EvGetConnection attrs acquired) (trace (fst (run driver this w))) ->
  exists credentials,
    getCredentials this CredentialType.credential_name = ok credentials
    /\ attr_user attrs = user credentials
    /\ attr_password attrs = password credentials
    /\ (connectionString credentials <> [] ->
        connectString attrs = connectionString credentials)
    /\ (connectionString credentials = [] ->
        connectString attrs
        = host credentials ++ str ":" ++ JsNumber.toString (port credentials)
            ++ str "/" ++ serviceName credentials)
    /\ (JsString (connectionString credentials)
        = CredentialType.default_of "connectionString" ->
        connectString attrs
        = host credentials ++ str ":" ++ JsNumber.toString (port credentials)
            ++ str "/" ++ serviceName credentials).
Proof.
  intros Hin.
  assert (Hcfg : forall cred,
            attrs = connection_config cred ->
            attr_user attrs = user cred
            /\ attr_password attrs = password cred
            /\ (connectionString cred <> [] ->
                connectString attrs = connectionString cred)
            /\ (connectionString cred = [] ->
                connectString attrs
                = host cred ++ str ":" ++ JsNumber.toString (port cred)
                    ++ str "/" ++ serviceName cred)
            /\ (JsString (connectionString cred)
                = CredentialType.default_of "connectionString" ->
                connectString attrs
                = host cred ++ str ":" ++ JsNumber.toString (port cred)
                    ++ str "/" ++ serviceName cred)).
  { intros cred ->. unfold connection_config. cbn [attr_user attr_password connectString].
    split; [reflexivity|]. split; [reflexivity|].
    destruct (connectionString cred) as [|u us]; cbn [truthy].
    - repeat split; try reflexivity. intros H; congruence.
    - split; [reflexivity|]. split; intros H; discriminate H. }
  destruct (run_calls World Connection driver this w)
    as [[e [Hrun _]]|[cred [op [opts [detail [Hc [_ [_ [_ [Hd H]]]]]]]]]].
  { rewrite Hrun in Hin. destruct Hin. }
  pose proof (detail_not_call detail Hd) as Hdetail.
  exists cred. split; [exact Hc|]. apply Hcfg.
  destruct H as [[s1 [e [_ [Hrun Ht]]]]|[s1 [c1 [n [tail [_ [Ht [Htail _]]]]]]]].
  - rewrite Hrun in Hin. cbn [fst] in Hin. rewrite Ht in Hin.
    destruct Hin as [Hin|Hin]; [discriminate Hin|].
    apply in_app_or in Hin. destruct Hin as [Hin|[Hin|[]]].
    + destruct (Hdetail _ Hin) as [t [d E]]. discriminate E.
    + inversion Hin. reflexivity.
  - rewrite Ht in Hin. destruct Hin as [Hin|Hin]; [discriminate Hin|].
    apply in_app_or in Hin. destruct Hin as [Hin|Hin].
    { destruct (Hdetail _ Hin) as [t [d E]]. discriminate E. }
    cbn [app] in Hin. destruct Hin as [Hin|Hin]; [inversion Hin; reflexivity|].
    apply in_app_or in Hin. destruct Hin as [Hin|[Hin|Hin]].
    + apply firstn_In in Hin.
      destruct (planned_In this op opts (getInputData this) _ 0 Hin)
        as [j [item [rq [_ [_ E]]]]]. discriminate E.
    + discriminate Hin.
    + destruct (tail_not_call tail Htail _ Hin) as [t [e E]]. discriminate E.
Qed.

(** The sample credentials have no connection string. *)
Lemma connection_attributes_witness :
  exists credentials,
    getCredentials (Sample.insert_host true) CredentialType.credential_name
    = ok credentials
    /\ attr_user (connection_config Sample.credentials) = user credentials
    /\ attr_password (connection_config Sample.credentials) = password credentials
    /\ (connectionString credentials <> [] ->
        connectString (connection_config Sample.credentials)
        = connectionString credentials)
    /\ (connectionString credentials = [] ->
        connectString (connection_config Sample.credentials)
        = host credentials ++ str ":" ++ JsNumber.toString (port credentials)
            ++ str "/" ++ serviceName credentials)
    /\ (JsString (connectionString credentials)
        = CredentialType.default_of "connectionString" ->
        connectString (connection_config Sample.credentials)
        = host credentials ++ str ":" ++ JsNumber.toString (port credentials)
            ++ str "/" ++ serviceName credentials).
Proof.
  apply (connection_attributes nat unit (Sample.driver true None Sample.done true)
           (Sample.insert_host true) 0 (connection_config Sample.credentials) true).
  vm_compute. right. left. reflexivity.
Defined.

(** ** The items of an invocation *)

Section Items.

Variables World Connection : Type.
Variable driver : Driver World Connection.
Variable this : Host.

Lemma request_items (operation : jsstring) (options : IDataObject) (i : nat)
    (item : INodeExecutionData) (rq : OperationRequest) (result : ExecuteResult) :
  request this operation options i item = ok (Some rq) ->
  forallb is_item (req_outputs rq result) = true.
Proof.
  unfold request. case_operation operation;
    case_rbind; intros H; try discriminate H; inversion H; subst;
    cbn [req_outputs]; try reflexivity.
  unfold query_outputs.
  destruct (truthy (rows result) && Array_isArray (rows result)); [|reflexivity].
  destruct (rows result); try reflexivity.
  induction elements as [|row l IH]; [reflexivity|exact IH].
Qed.

Lemma turn_items (c : Connection) (operation : jsstring) (options : IDataObject)
    (i : nat) (item : INodeExecutionData) (s : State World Connection) :
  forallb is_item (returnData s) = true ->
  forallb is_item
    (returnData (fst (try_catch (process_item driver this c operation options i item)
                        (on_item_error this) s))) = true.
Proof.
  intros Hs. unfold try_catch.
  rewrite (process_item_perform World Connection driver this). unfold perform.
  destruct (request this operation options i item) as [e|[rq|]] eqn:E.
  - unfold on_item_error, throw. destruct (continueOnFail this); simpl;
      [rewrite forallb_app, Hs; reflexivity | exact Hs].
  - destruct (connection_execute driver c (req_sql rq) (req_binds rq)
                (req_options rq) (world s)) as [w [e|result]].
    + unfold on_item_error, throw. destruct (continueOnFail this); simpl;
        [rewrite forallb_app, Hs; reflexivity | exact Hs].
    + simpl. rewrite forallb_app, Hs.
      apply (request_items operation options i item rq result E).
  - exact Hs.
Qed.

Lemma loop_items (c : Connection) (operation : jsstring) (options : IDataObject)
    (items : list INodeExecutionData) :
  forall (i : nat) (s : State World Connection),
    forallb is_item (returnData s) = true ->
    forallb is_item
      (returnData (fst (loop driver this c operation options i items s))) = true.
Proof.
  induction items as [|item rest IH]; intros i s Hs; [exact Hs|].
  rewrite loop_cons.
  pose proof (turn_items c operation options i item s Hs) as Hturn.
  destruct (try_catch (process_item driver this c operation options i item)
              (on_item_error this) s) as [s1 [e|[]]]; [exact Hturn|].
  apply IH. exact Hturn.
Qed.

(** An invocation that answers resolved its parameters, connected, and ran
    its loop to the end: it answers what the loop collected. *)
Lemma run_answer (w : World) (result : list (list JsValue)) :
  snd (run driver this w) = ok result ->
  exists credentials operation options s c s',
    getCredentials this (str "oracleDb") = ok credentials
    /\ getNodeParameter_string this (str "operation") 0 = ok operation
    /\ getNodeParameter_object this (str "options") 0 [] = ok options
    /\ connected driver credentials w = (s, inr c)
    /\ returnData s = []
    /\ loop driver this c operation options 0 (getInputData this) (assigned c s)
       = (s', ok tt)
    /\ result = [returnData s'].
Proof.
  destruct (getCredentials this (str "oracleDb")) as [e|cred] eqn:Hc.
  { rewrite (run_unresolved _ _ driver this w e) by auto. discriminate. }
  destruct (getNodeParameter_string this (str "operation") 0) as [e|op] eqn:Ho.
  { rewrite (run_unresolved _ _ driver this w e) by (right; exists cred; auto).
    discriminate. }
  destruct (getNodeParameter_object this (str "options") 0 []) as [e|opts] eqn:Hopt.
  { rewrite (run_unresolved _ _ driver this w e)
      by (right; exists cred; split; [exact Hc|]; right; exists op; auto).
    discriminate. }
  destruct (connected driver cred w) as [s1 [e|c]] eqn:Hconn.
  { rewrite (run_not_connected _ _ driver this w cred op opts s1 e Hc Ho Hopt Hconn).
    discriminate. }
  rewrite (run_connected _ _ driver this w cred op opts s1 c Hc Ho Hopt Hconn).
  destruct (connected_spec _ _ _ _ _ _ _ Hconn) as [_ [Hnil _]].
  destruct (loop driver this c op opts 0 (getInputData this) (assigned c s1))
    as [s' [e|[]]] eqn:Hl; cbn [snd]; intros H; [discriminate H|].
  inversion H; subst. exists cred, op, opts, s1, c, s'. auto 10.
Qed.

End Items.

(** X9.  What an invocation answers is one list of items, and every item
    is an object with the one field [json]: a returned row, a summary, or
    the error of a record. *)
Theorem items_have_json (World Connection : Type)
    (driver : Driver World Connection) (this : Host) (w : World)
    (result : list (list JsValue)) :
  snd (run driver this w) = ok result ->
  exists out,
    result = [out]
    /\ forall item, In item out ->
         exists payload, item = JsObject [(str "json", payload)].
Proof.
  intros H.
  destruct (run_answer World Connection driver this w result H)
    as [cred [op [opts [s [c [s' [_ [_ [_ [_ [Hnil [Hl ->]]]]]]]]]]]].
  exists (returnData s'). split; [reflexivity|].
  pose proof (loop_items World Connection driver this c op opts (getInputData this)
                0 (assigned c s)) as Hitems.
  rewrite Hl in Hitems. cbn [fst] in Hitems.
  assert (Hs : forallb is_item (returnData (assigned c s)) = true)
    by (simpl; rewrite Hnil; reflexivity).
  specialize (Hitems Hs). rewrite forallb_forall in Hitems.
  intros item Hin. specialize (Hitems item Hin).
  destruct item as [| | | | | | | | | | |[|[k payload] [|kv o]]|];
    try discriminate Hitems.
  simpl in Hitems. apply eqb_eq in Hitems. subst k. exists payload. reflexivity.
Qed.

(** A query that returns two rows. *)
Lemma items_have_json_witness :
  exists out,
    [[ Statement.row_item (JsObject Sample.employee);
       Statement.row_item (JsObject Sample.raise_of) ]] = [out]
    /\ forall item, In item out ->
         exists payload, item = JsObject [(str "json", payload)].
Proof.
  apply (items_have_json nat unit (Sample.driver true None Sample.two_rows true)
           Sample.query_host 0).
  reflexivity.
Defined.

(** ** An initialization of the client that fails *)

Section Data.

Variables World Connection : Type.
Variable driver : Driver World Connection.
Variable this : Host.

Lemma turn_same_data (c : Connection) (operation : jsstring) (options : IDataObject)
    (i : nat) (item : INodeExecutionData) (s1 s2 : State World Connection) :
  same_data s1 s2 ->
  let turn s := try_catch (process_item driver this c operation options i item)
                  (on_item_error this) s in
  snd (turn s1) = snd (turn s2) /\ same_data (fst (turn s1)) (fst (turn s2)).
Proof.
  intros [Hw [Hc Hr]]. cbv zeta. unfold try_catch.
  rewrite !(process_item_perform World Connection driver this). unfold perform.
  destruct (request this operation options i item) as [e|[rq|]].
  - unfold on_item_error, throw. destruct (continueOnFail this); simpl;
      unfold same_data; simpl; rewrite ?Hr; auto.
  - rewrite Hw.
    destruct (connection_execute driver c (req_sql rq) (req_binds rq)
                (req_options rq) (world s2)) as [w [e|result]].
    + unfold on_item_error, throw. destruct (continueOnFail this); simpl;
        unfold same_data; simpl; rewrite ?Hr; auto.
    + unfold same_data; simpl. rewrite Hr. auto.
  - unfold same_data. simpl. auto.
Qed.

(** The loop reads the world, the connection and the collected items, not
    the calls recorded so far. *)
Lemma loop_same_data (c : Connection) (operation : jsstring) (options : IDataObject)
    (items : list INodeExecutionData) :
  forall (i : nat) (s1 s2 : State World Connection),
    same_data s1 s2 ->
    snd (loop driver this c operation options i items s1)
    = snd (loop driver this c operation options i items s2)
    /\ same_data (fst (loop driver this c operation options i items s1))
                 (fst (loop driver this c operation options i items s2)).
Proof.
  induction items as [|item rest IH]; intros i s1 s2 Hs; [split; [reflexivity|exact Hs]|].
  rewrite !loop_cons.
  pose proof (turn_same_data c operation options i item s1 s2 Hs) as Hturn.
  cbv zeta in Hturn.
  destruct (try_catch (process_item driver this c operation options i item)
              (on_item_error this) s1) as [s1' [e1|[]]];
    destruct (try_catch (process_item driver this c operation options i item)
                (on_item_error this) s2) as [s2' [e2|[]]];
    cbn [fst snd] in Hturn; destruct Hturn as [Hr Hs']; try discriminate Hr.
  - split; [exact Hr|exact Hs'].
  - apply IH. exact Hs'.
Qed.

Lemma release_same_data (s1 s2 : State World Connection) :
  same_data s1 s2 ->
  same_data (fst (release driver s1)) (fst (release driver s2)).
Proof.
  intros [Hw [Hc Hr]]. unfold release, bind, get_connection. simpl.
  rewrite Hc. destruct (connection s2) as [c|] eqn:Ec;
    [|unfold same_data; simpl; repeat split; congruence].
  unfold try_catch, call_close. rewrite Hw.
  destruct (connection_close driver c (world s2)) as [w [e|]]; simpl;
    unfold same_data; simpl; repeat split; congruence.
Qed.

Lemma loop_with_init (init : World -> World * option Exn)
    (c : Connection) (operation : jsstring) (options : IDataObject)
    (items : list INodeExecutionData) :
  forall (i : nat) (s : State World Connection),
    loop (with_init driver init) this c operation options i items s
    = loop driver this c operation options i items s.
Proof.
  induction items as [|item rest IH]; intros i s; [reflexivity|].
  cbn [loop]. unfold bind.
  change (process_item (with_init driver init) this c operation options i item)
    with (process_item driver this c operation options i item).
  destruct (try_catch (process_item driver this c operation options i item)
              (on_item_error this) s) as [s1 [e|[]]]; [reflexivity|apply IH].
Qed.

End Data.

(** X10.  A failure of [initOracleClient] is skipped: whatever the
    initialization raises, the invocation answers or raises the same, and
    leaves the same world, as over any driver whose initialization does the
    same to the world. *)
Theorem init_failure_is_skipped (World Connection : Type)
    (driver : Driver World Connection) (this : Host)
    (init : World -> World * option Exn) (w : World) :
  fst (init w) = fst (initOracleClient driver w) ->
  snd (run (with_init driver init) this w) = snd (run driver this w)
  /\ world (fst (run (with_init driver init) this w))
     = world (fst (run driver this w)).
Proof.
  intros Hinit.
  destruct (getCredentials this (str "oracleDb")) as [e|cred] eqn:Hc.
  { rewrite !(run_unresolved _ _ _ this w e) by auto. repeat split. }
  destruct (getNodeParameter_string this (str "operation") 0) as [e|op] eqn:Ho.
  { rewrite !(run_unresolved _ _ _ this w e) by (right; exists cred; auto).
    repeat split. }
  destruct (getNodeParameter_object this (str "options") 0 []) as [e|opts] eqn:Hopt.
  { rewrite !(run_unresolved _ _ _ this w e)
      by (right; exists cred; split; [exact Hc|]; right; exists op; auto).
    repeat split. }
  assert (Hstarted : same_data (started (with_init driver init) w) (started driver w)).
  { unfold started, try_catch, call_initOracleClient. simpl.
    change (initOracleClient (with_init driver init) w) with (init w).
    destruct (init w) as [w1 r1]. destruct (initOracleClient driver w) as [w2 r2].
    cbn [fst] in Hinit. subst w2.
    destruct r1, r2; unfold same_data; simpl; auto. }
  destruct (connected (with_init driver init) cred w) as [s1 r1] eqn:E1.
  destruct (connected driver cred w) as [s2 r2] eqn:E2.
  assert (Hconn : r1 = r2 /\ same_data s1 s2).
  { unfold connected, call_getConnection in E1, E2.
    change (getConnection (with_init driver init)) with (getConnection driver) in E1.
    destruct Hstarted as [Hw [Hcn Hrd]]. rewrite Hw in E1.
    destruct (getConnection driver (connection_config cred)
                (world (started driver w))) as [w' r'].
    inversion E1; inversion E2; subst. unfold same_data. simpl. auto. }
  destruct Hconn as [<- Hs]. destruct r1 as [e|c].
  - rewrite (run_not_connected _ _ _ this w cred op opts s1 e Hc Ho Hopt E1).
    rewrite (run_not_connected _ _ _ this w cred op opts s2 e Hc Ho Hopt E2).
    split; [reflexivity|]. destruct Hs as [Hw _]. exact Hw.
  - rewrite (run_connected _ _ _ this w cred op opts s1 c Hc Ho Hopt E1).
    rewrite (run_connected _ _ _ this w cred op opts s2 c Hc Ho Hopt E2).
    rewrite loop_with_init.
    assert (Ha : same_data (assigned c s1) (assigned c s2)).
    { destruct Hs as [Hw [_ Hrd]]. unfold same_data. simpl. auto. }
    pose proof (loop_same_data World Connection driver this c op opts
                  (getInputData this) 0 _ _ Ha) as [Hr Hl].
    destruct (loop driver this c op opts 0 (getInputData this) (assigned c s1))
      as [s1' r1'].
    destruct (loop driver this c op opts 0 (getInputData this) (assigned c s2))
      as [s2' r2'].
    cbn [fst snd] in *. subst r2'.
    pose proof (release_same_data World Connection driver _ _ Hl) as [Hw' _].
    change (release (with_init driver init) s1') with (release driver s1').
    split; [|exact Hw'].
    destruct Hl as [_ [_ Hrd]]. rewrite Hrd. reflexivity.
Qed.

(** An initialization that raises on the sample driver. *)
Lemma init_failure_is_skipped_witness :
  snd (run (with_init (Sample.driver true None Sample.done true)
              (fun w => (w, Some (ErrorObject ClsError (str "NJS-077")))))
           (Sample.insert_host false) 0)
  = snd (run (Sample.driver true None Sample.done true) (Sample.insert_host false) 0)
  /\ world (fst (run (with_init (Sample.driver true None Sample.done true)
                        (fun w => (w, Some (ErrorObject ClsError (str "NJS-077")))))
                     (Sample.insert_host false) 0))
     = world (fst (run (Sample.driver true None Sample.done true)
                       (Sample.insert_host false) 0)).
Proof.
  apply (init_failure_is_skipped nat unit (Sample.driver true None Sample.done true)
           (Sample.insert_host false)
           (fun w => (w, Some (ErrorObject ClsError (str "NJS-077")))) 0).
  reflexivity.
Defined.

(** ** The parameters of executeQuery and executeProcedure *)

Ltac this_operation :=
  repeat match goal with
         | |- context [JsStr.eqb (str ?a) (str ?b)] =>
             let r := eval vm_compute in (JsStr.eqb (str a) (str b)) in
             change (JsStr.eqb (str a) (str b)) with r
         end;
  cbv iota.

(** X11.  Parameters given as a text that is not JSON fail the record with
    the error [Invalid JSON in Query Parameters] (or [... Procedure
    Parameters]), an [Error] whatever the parser raised, and nothing is
    executed for the record. *)
Theorem invalid_json_parameters (World Connection : Type)
    (driver : Driver World Connection) (this : Host) (c : Connection)
    (options : IDataObject) (i : nat) (item : INodeExecutionData)
    (s : State World Connection) (text : jsstring) (cause : Exn) :
  JSON.parse text = inl cause ->
  (forall query,
     getNodeParameter_string this (str "query") i = ok query ->
     getNodeParameter this (str "queryParams") i (JsObject []) = ok (JsString text) ->
     process_item driver this c (str "executeQuery") options i item s
     = (s, inl (ErrorObject ClsError (str "Invalid JSON in Query Parameters"))))
  /\ (forall procedure,
        getNodeParameter_string this (str "procedure") i = ok procedure ->
        getNodeParameter this (str "procedureParams") i (JsObject [])
        = ok (JsString text) ->
        process_item driver this c (str "executeProcedure") options i item s
        = (s, inl (ErrorObject ClsError
                     (str "Invalid JSON in Procedure Parameters")))).
Proof.
  intros Hparse. split.
  - intros query Hq Hp. rewrite process_item_perform. unfold request.
    this_operation. rewrite Hq. cbn [rbind ok]. rewrite Hp. cbn [rbind ok].
    unfold Statement.parse_if_string. rewrite Hparse. reflexivity.
  - intros procedure Hq Hp. rewrite process_item_perform. unfold request.
    this_operation. rewrite Hq. cbn [rbind ok]. rewrite Hp. cbn [rbind ok].
    unfold Statement.parse_if_string. rewrite Hparse. reflexivity.
Qed.

(** The text [{id: 1}], with a key that is not quoted. *)
Lemma invalid_json_parameters_witness :
  (forall query,
     getNodeParameter_string
       (with_parameter Sample.query_host (str "queryParams") (JsString (str "{id: 1}")))
       (str "query") 0 = ok query ->
     getNodeParameter
       (with_parameter Sample.query_host (str "queryParams") (JsString (str "{id: 1}")))
       (str "queryParams") 0 (JsObject []) = ok (JsString (str "{id: 1}")) ->
     process_item (Sample.driver true None Sample.done true)
       (with_parameter Sample.query_host (str "queryParams") (JsString (str "{id: 1}")))
       tt (str "executeQuery") [] 0 {| json := Sample.employee |} (initial unit 0)
     = (initial unit 0,
        inl (ErrorObject ClsError (str "Invalid JSON in Query Parameters"))))
  /\ (forall procedure,
        getNodeParameter_string
          (with_parameter Sample.query_host (str "queryParams")
             (JsString (str "{id: 1}")))
          (str "procedure") 0 = ok procedure ->
        getNodeParameter
          (with_parameter Sample.query_host (str "queryParams")
             (JsString (str "{id: 1}")))
          (str "procedureParams") 0 (JsObject []) = ok (JsString (str "{id: 1}")) ->
        process_item (Sample.driver true None Sample.done true)
          (with_parameter Sample.query_host (str "queryParams")
             (JsString (str "{id: 1}")))
          tt (str "executeProcedure") [] 0 {| json := Sample.employee |}
          (initial unit 0)
        = (initial unit 0,
           inl (ErrorObject ClsError (str "Invalid JSON in Procedure Parameters")))).
Proof.
  apply (invalid_json_parameters nat unit (Sample.driver true None Sample.done true)
           (with_parameter Sample.query_host (str "queryParams")
              (JsString (str "{id: 1}")))
           tt [] 0 {| json := Sample.employee |} (initial unit 0) (str "{id: 1}")
           (ErrorObject ClsSyntaxError (str "Unexpected token in JSON"))).
  reflexivity.
Defined.

Lemma parse_stringify (v : JsValue) (text : jsstring) :
  Spec.json_data v = true ->
  JSON.stringify v = ok (JsString text) ->
  JSON.parse text = ok v.
Proof.
  intros Hdata Hs.
  destruct (serialize_reads_back v Hdata) as [t [Et [_ [Hlen Hparse]]]].
  unfold JSON.stringify in Hs. rewrite Et in Hs. inversion Hs; subst t.
  unfold JSON.parse.
  specialize (Hparse (S (length text)) []
                (Nat.le_trans _ _ _ Hlen (Nat.le_succ_diag_r _)) eq_refl).
  rewrite app_nil_r in Hparse. rewrite Hparse. reflexivity.
Qed.

(** X12.  Parameters given as the JSON text of an object are handled as the
    object itself: the record is processed in the same way, for
    executeQuery and for executeProcedure. *)
Theorem parameters_as_text_or_object (World Connection : Type)
    (driver : Driver World Connection) (this : Host) (c : Connection)
    (options : IDataObject) (i : nat) (item : INodeExecutionData)
    (s : State World Connection) (params : IDataObject) (text : jsstring) :
  Spec.json_data (JsObject params) = true ->
  JSON.stringify (JsObject params) = ok (JsString text) ->
  process_item driver (with_parameter this (str "queryParams") (JsString text))
    c (str "executeQuery") options i item s
  = process_item driver (with_parameter this (str "queryParams") (JsObject params))
      c (str "executeQuery") options i item s
  /\ process_item driver
       (with_parameter this (str "procedureParams") (JsString text))
       c (str "executeProcedure") options i item s
     = process_item driver
         (with_parameter this (str "procedureParams") (JsObject params))
         c (str "executeProcedure") options i item s.
Proof.
  intros Hdata Hs. pose proof (parse_stringify _ _ Hdata Hs) as Hparse.
  split; rewrite !process_item_perform; f_equal; unfold request; this_operation;
    cbn [with_parameter getNodeParameter_string getNodeParameter];
    this_operation;
    match goal with
    | |- context [getNodeParameter_string this ?n i] =>
        destruct (getNodeParameter_string this n i) as [e|x]; [reflexivity|]
    end;
    cbn [rbind ok]; unfold Statement.parse_if_string; rewrite Hparse; reflexivity.
Qed.

(** The parameters [{"id":1}] of a query. *)
Lemma parameters_as_text_or_object_witness :
  process_item (Sample.driver true None Sample.two_rows true)
    (with_parameter Sample.query_host (str "queryParams")
       (JsString (str "{" ++ JSON.quote (str "id") ++ str ":1}")))
    tt (str "executeQuery") [] 0 {| json := Sample.employee |} (initial unit 0)
  = process_item (Sample.driver true None Sample.two_rows true)
      (with_parameter Sample.query_host (str "queryParams")
         (JsObject [(str "id", JsNumber (NInt 1))]))
      tt (str "executeQuery") [] 0 {| json := Sample.employee |} (initial unit 0)
  /\ process_item (Sample.driver true None Sample.two_rows true)
       (with_parameter Sample.query_host (str "procedureParams")
          (JsString (str "{" ++ JSON.quote (str "id") ++ str ":1}")))
       tt (str "executeProcedure") [] 0 {| json := Sample.employee |} (initial unit 0)
     = process_item (Sample.driver true None Sample.two_rows true)
         (with_parameter Sample.query_host (str "procedureParams")
            (JsObject [(str "id", JsNumber (NInt 1))]))
         tt (str "executeProcedure") [] 0 {| json := Sample.employee |}
         (initial unit 0).
Proof.
  apply (parameters_as_text_or_object nat unit
           (Sample.driver true None Sample.two_rows true) Sample.query_host tt [] 0
           {| json := Sample.employee |} (initial unit 0)
           [(str "id", JsNumber (NInt 1))]);
    reflexivity.
Defined.

(** ** executeQuery and delete *)

(** X13.  executeQuery executes the query text as it is given, with the
    binds of its parameters; when the execution answers rows as an array it
    emits one item per row, in the order of the array, and none for an
    empty array; otherwise it emits one summary, whose [rowsAffected] is 0
    when the execution answered none. *)
Theorem query_result_mapping (World Connection : Type)
    (driver : Driver World Connection) (this : Host) (c : Connection)
    (options : IDataObject) (i : nat) (item : INodeExecutionData)
    (s : State World Connection)
    (query : jsstring) (given params : JsValue) (entries binds : IDataObject)
    (w' : World) (result : ExecuteResult) :
  getNodeParameter_string this (str "query") i = ok query ->
  getNodeParameter this (str "queryParams") i (JsObject []) = ok given ->
  Statement.parse_if_string "Invalid JSON in Query Parameters" given = ok params ->
  JsObj.entries params = ok entries ->
  Statement.query_binds entries [] = ok binds ->
  connection_execute driver c query binds (Statement.query_options options)
    (world s) = (w', ok result) ->
  process_item driver this c (str "executeQuery") options i item s
  = (push_all
       (match rows result with
        | JsArray l => map (fun row => JsObject [(str "json", row)]) l
        | _ =>
            [ JsObject
                [ (str "json",
                   JsObject
                     [ (str "success", JsBool true);
                       (str "rowsAffected",
                        match rowsAffected result with
                        | JsUndefined | JsNull => JsNumber (NInt 0)
                        | n => n
                        end) ]) ] ]
        end)
       (with_world w'
          (emit (EvExecute query binds (Statement.query_options options)) s)),
     ok tt).
Proof.
  intros Hq Hg Hp He Hb Hx.
  rewrite process_item_perform. unfold request. this_operation.
  rewrite Hq. cbn [rbind ok]. rewrite Hg. cbn [rbind ok]. rewrite Hp.
  cbn [rbind ok]. rewrite He. cbn [rbind ok]. rewrite Hb. cbn [rbind ok].
  unfold perform, ok. cbn [req_sql req_binds req_options req_outputs].
  unfold ok in Hx. rewrite Hx. f_equal. f_equal.
  unfold query_outputs, Statement.summary, nullish.
  destruct (rows result); cbn [Array_isArray truthy andb];
    rewrite ?andb_false_r; try reflexivity;
    destruct (rowsAffected result); reflexivity.
Qed.

(** A query answered with two rows. *)
Lemma query_result_mapping_witness :
  process_item (Sample.driver true None Sample.two_rows true) Sample.query_host tt
    (str "executeQuery") [] 0 {| json := Sample.employee |} (initial unit 0)
  = (push_all
       [ JsObject [(str "json", JsObject Sample.employee)];
         JsObject [(str "json", JsObject Sample.raise_of)] ]
       (with_world 1
          (emit (EvExecute (str "SELECT * FROM employees") []
                   (Statement.query_options []))
             (initial unit 0))),
     ok tt).
Proof.
  apply (query_result_mapping nat unit (Sample.driver true None Sample.two_rows true)
           Sample.query_host tt [] 0 {| json := Sample.employee |} (initial unit 0)
           (str "SELECT * FROM employees") (JsObject []) (JsObject []) [] [] 1
           Sample.two_rows);
    reflexivity.
Defined.

(** X14.  delete executes [DELETE FROM table WHERE key = :deleteValue]
    with the one bind [deleteValue], the normalized value of the key field
    of the record (null when the record has no such field), with autoCommit
    alone, and emits one summary. *)
Theorem delete_statement (World Connection : Type)
    (driver : Driver World Connection) (this : Host) (c : Connection)
    (options : IDataObject) (i : nat) (item : INodeExecutionData)
    (s : State World Connection)
    (table deleteKey : jsstring) (v : JsValue) (w' : World)
    (result : ExecuteResult) :
  getNodeParameter_string this (str "table") i = ok table ->
  getNodeParameter_string this (str "deleteKey") i = ok deleteKey ->
  convertToOracleType (JsObj.get (json item) deleteKey) = ok v ->
  let deleteQuery :=
    str "DELETE FROM " ++ table ++ str " WHERE " ++ deleteKey
      ++ str " = :deleteValue" in
  connection_execute driver c deleteQuery [(str "deleteValue", v)]
    (Statement.commit_options options) (world s) = (w', ok result) ->
  process_item driver this c (str "delete") options i item s
  = (push_all [Statement.summary result]
       (with_world w'
          (emit (EvExecute deleteQuery [(str "deleteValue", v)]
                   (Statement.commit_options options)) s)),
     ok tt)
  /\ (JsObj.has_own (json item) deleteKey = false ->
      JsObj.Object_prototype deleteKey = JsUndefined ->
      v = JsNull)
  /\ oracle_type v = true.
Proof.
  intros Ht Hk Hv deleteQuery Hx. split; [|split].
  - rewrite process_item_perform. unfold request. this_operation.
    rewrite Ht. cbn [rbind ok]. rewrite Hk. cbn [rbind ok].
    unfold Statement.delete. rewrite Hv. cbn [rbind ok fst snd].
    unfold perform, ok. cbn [req_sql req_binds req_options req_outputs fst snd].
    fold deleteQuery. unfold ok in Hx. rewrite Hx. reflexivity.
  - intros Hown Hproto. unfold JsObj.get, JsObj.has_own in *.
    destruct (JsObj.own_property (json item) deleteKey); [discriminate Hown|].
    rewrite Hproto in Hv. inversion Hv. reflexivity.
  - exact (convertToOracleType_oracle_type _ _ Hv).
Qed.

(** A record without the key field [badge]: the bind is null. *)
Lemma delete_statement_witness :
  process_item (Sample.driver true None Sample.done true)
    (Sample.host "delete" [("table", "employees"); ("deleteKey", "badge")]%string
       (JsObject []) false [Sample.employee])
    tt (str "delete") [] 0 {| json := Sample.employee |} (initial unit 0)
  = (push_all [Statement.summary Sample.done]
       (with_world 1
          (emit (EvExecute (str "DELETE FROM employees WHERE badge = :deleteValue")
                   [(str "deleteValue", JsNull)] (Statement.commit_options []))
             (initial unit 0))),
     ok tt)
  /\ (JsObj.has_own Sample.employee (str "badge") = false ->
      JsObj.Object_prototype (str "badge") = JsUndefined ->
      JsNull = JsNull)
  /\ oracle_type JsNull = true.
Proof.
  apply (delete_statement nat unit (Sample.driver true None Sample.done true)
           (Sample.host "delete" [("table", "employees"); ("deleteKey", "badge")]%string
              (JsObject []) false [Sample.employee])
           tt [] 0 {| json := Sample.employee |} (initial unit 0)
           (str "employees") (str "badge") JsNull 1 Sample.done);
    reflexivity.
Defined.

(** ** The update of a record without fields, or without its key *)

Lemma update_text (table updateKey : jsstring) (itemData : IDataObject) :
  Statement.update table updateKey itemData
  = (let fields := updatable updateKey itemData in
     let n := length fields in
     let? xs := Spec.normalize_all (map snd fields) in
     let? k := convertToOracleType (JsObj.get itemData updateKey) in
     ok (str "UPDATE " ++ table ++ str " SET "
           ++ join (str ", ") (assignments (map fst fields) 1)
           ++ str " WHERE " ++ updateKey ++ str " = :key" ++ dec_nat (S n),
         combine (Spec.numbered "val" 1 n) xs
           ++ [(str "key" ++ dec_nat (S n), k)])).
Proof.
  cbv zeta. unfold Statement.update.
  rewrite update_fields_spec by (intros k []).
  destruct (Spec.normalize_all (map snd (updatable updateKey itemData)))
    as [e|xs] eqn:En; [reflexivity|].
  cbn [rbind app]. change (1 + ?n) with (S n).
  destruct (convertToOracleType (JsObj.get itemData updateKey)) as [e|k];
    [reflexivity|].
  cbn [rbind ok]. destruct (key_name_plain (dec_nat (S (length (updatable updateKey itemData)))))
    as [Hidx Hproto].
  rewrite set_new_key; [reflexivity|exact Hidx|exact Hproto|].
  pose proof (normalize_all_length _ _ En) as Hlen. rewrite length_map in Hlen.
  rewrite combine_fst; [|rewrite numbered_length; symmetry; exact Hlen].
  rewrite numbered_In. intros [j [_ E]]. discriminate E.
Qed.

Lemma updatable_all (updateKey : jsstring) (itemData : IDataObject) :
  JsObj.has_own itemData updateKey = false ->
  updatable updateKey itemData = itemData.
Proof.
  unfold JsObj.has_own, updatable.
  induction itemData as [|[k v] o IH]; simpl; [reflexivity|].
  destruct (JsStr.eqb k updateKey); [discriminate|]. simpl.
  intros H. rewrite (IH H). reflexivity.
Qed.

(** X15.  Two edges of update.  A record with no field other than the key
    gives a statement with an empty SET clause, [UPDATE table SET  WHERE
    key = :key1], which is built and executed all the same.  A record
    without the key field assigns all its fields and binds null to the key
    of the WHERE clause. *)
Theorem update_edge_cases (table updateKey : jsstring) (itemData : IDataObject) :
  (updatable updateKey itemData = [] ->
   Statement.update table updateKey itemData
   = (let? k := convertToOracleType (JsObj.get itemData updateKey) in
      ok (str "UPDATE " ++ table ++ str " SET  WHERE " ++ updateKey
            ++ str " = :key1",
          [(str "key1", k)])))
  /\ (JsObj.has_own itemData updateKey = false ->
      JsObj.Object_prototype updateKey = JsUndefined ->
      Statement.update table updateKey itemData
      = (let? xs := Spec.normalize_all (map snd itemData) in
         ok (str "UPDATE " ++ table ++ str " SET "
               ++ join (str ", ") (assignments (map fst itemData) 1)
               ++ str " WHERE " ++ updateKey ++ str " = :key"
               ++ dec_nat (S (length itemData)),
             combine (Spec.numbered "val" 1 (length itemData)) xs
               ++ [(str "key" ++ dec_nat (S (length itemData)), JsNull)]))).
Proof.
  split.
  - intros H. rewrite update_text. cbv zeta. rewrite H. cbn [map length rbind ok
      Spec.normalize_all assignments combine seq join app Spec.numbered].
    destruct (convertToOracleType (JsObj.get itemData updateKey)); reflexivity.
  - intros Hown Hproto. rewrite update_text. cbv zeta.
    rewrite (updatable_all _ _ Hown).
    destruct (Spec.normalize_all (map snd itemData)) as [e|xs]; [reflexivity|].
    cbn [rbind]. unfold JsObj.get. unfold JsObj.has_own in Hown.
    destruct (JsObj.own_property itemData updateKey); [discriminate Hown|].
    rewrite Hproto. reflexivity.
Qed.

(** The update of a record that holds its key only. *)
Example update_without_fields :
  Statement.update (str "employees") (str "employee_id")
    [(str "employee_id", JsNumber (NInt 1001))]
  = ok (str "UPDATE employees SET  WHERE employee_id = :key1",
        [(str "key1", JsNumber (NInt 1001))]).
Proof. reflexivity. Qed.

(** ** The columns of insert *)

Lemma split_single (sep : N) (p : jsstring) : ~ In sep p -> split sep p = [p].
Proof.
  induction p as [|c p IH]; intros H; [reflexivity|].
  cbn [split]. destruct (N.eqb_spec c sep) as [->|Hc]; [exfalso; apply H; left; reflexivity|].
  rewrite IH; [reflexivity|]. intros Hin. apply H. right. exact Hin.
Qed.

Lemma split_app (sep : N) (p s : jsstring) :
  ~ In sep p -> split sep (p ++ sep :: s) = p :: split sep s.
Proof.
  induction p as [|c p IH]; intros H.
  - cbn [app split]. rewrite N.eqb_refl. reflexivity.
  - cbn [app split]. destruct (N.eqb_spec c sep) as [->|Hc];
      [exfalso; apply H; left; reflexivity|].
    rewrite IH; [reflexivity|]. intros Hin. apply H. right. exact Hin.
Qed.

(** Splitting at the separator undoes joining pieces that are free of it. *)
Lemma split_join_pieces (sep : N) (pieces : list jsstring) :
  pieces <> [] -> Forall (fun p => ~ In sep p) pieces ->
  split sep (join [sep] pieces) = pieces.
Proof.
  intros Hne H. induction H as [|p pieces Hp Hps IH];
    [exfalso; apply Hne; reflexivity|].
  destruct pieces as [|q pieces].
  - cbn [join]. apply split_single. exact Hp.
  - rewrite join_cons2. cbn [app]. rewrite split_app by exact Hp.
    f_equal. apply IH. discriminate.
Qed.

Lemma trim_start_spaces (spaces s : jsstring) :
  forallb is_trim_space spaces = true -> trim_start (spaces ++ s) = trim_start s.
Proof.
  induction spaces as [|c sp IH]; simpl; [reflexivity|].
  rewrite andb_true_iff. intros [-> H]. apply IH. exact H.
Qed.

Lemma spaces_no_comma (spaces : jsstring) :
  forallb is_trim_space spaces = true -> ~ In 44%N spaces.
Proof.
  rewrite forallb_forall. intros H Hin. specialize (H _ Hin). discriminate H.
Qed.

Lemma trim_padded (before column after : jsstring) :
  forallb is_trim_space before = true ->
  forallb is_trim_space after = true ->
  is_trimmed column = true ->
  trim (padded before column after) = column.
Proof.
  intros Hb Ha Hc. unfold trim, trim_end, padded.
  rewrite trim_start_spaces by exact Hb.
  destruct column as [|x column].
  - cbn [app]. rewrite <- (app_nil_r after), trim_start_spaces by exact Ha.
    reflexivity.
  - cbn [is_trimmed] in Hc. apply andb_true_iff in Hc. destruct Hc as [Hx Hl].
    apply negb_true_iff in Hx. apply negb_true_iff in Hl.
    cbn [app trim_start]. rewrite Hx.
    change (x :: column ++ after) with ((x :: column) ++ after).
    rewrite rev_app_distr, trim_start_spaces
      by (rewrite forallb_forall in *; intros y Hy; apply Ha; apply in_rev; exact Hy).
    assert (E : rev (x :: column)
                = last (x :: column) x :: rev (removelast (x :: column))).
    { rewrite (app_removelast_last x (l := x :: column)) at 1 by discriminate.
      rewrite rev_app_distr. reflexivity. }
    rewrite E. cbn [trim_start]. rewrite Hl. rewrite <- E.
    apply rev_involutive.
Qed.

(** X16.  The columns of insert are read from the columns string whatever
    white space surrounds them: writing each column with white space before
    and after it, between the commas, gives the same columns, and the same
    statement, as writing them bare. *)
Theorem columns_round_trip (table : jsstring) (json : IDataObject)
    (written : list (jsstring * jsstring * jsstring)) :
  written <> [] ->
  Forall (fun bca =>
            forallb is_trim_space (fst (fst bca)) = true
            /\ forallb is_trim_space (snd bca) = true
            /\ is_trimmed (snd (fst bca)) = true
            /\ ~ In 44%N (snd (fst bca))) written ->
  let columns :=
    join (str ",")
      (map (fun bca => padded (fst (fst bca)) (snd (fst bca)) (snd bca)) written) in
  let bare := map (fun bca => snd (fst bca)) written in
  map trim (split 44%N columns) = bare
  /\ Statement.insert table columns json
     = Statement.insert table (join (str ",") bare) json.
Proof.
  intros Hne Hw columns bare.
  assert (H1 : map trim (split 44%N columns) = bare).
  { unfold columns. change (str ",") with [44%N].
    rewrite split_join_pieces.
    - rewrite map_map. unfold bare. apply map_ext_in. intros [[b c] a] Hin.
      rewrite Forall_forall in Hw. destruct (Hw _ Hin) as [Hb [Ha [Hc _]]].
      cbn [fst snd] in *. apply trim_padded; assumption.
    - destruct written; [exfalso; apply Hne; reflexivity|discriminate].
    - rewrite Forall_map. eapply Forall_impl; [|exact Hw].
      intros [[b c] a] [Hb [Ha [_ Hc]]]. cbn [fst snd] in *. unfold padded.
      intros Hin. apply in_app_or in Hin. destruct Hin as [Hin|Hin];
        [exact (spaces_no_comma _ Hb Hin)|].
      apply in_app_or in Hin. destruct Hin as [Hin|Hin];
        [exact (Hc Hin) | exact (spaces_no_comma _ Ha Hin)]. }
  assert (H2 : map trim (split 44%N (join (str ",") bare)) = bare).
  { change (str ",") with [44%N]. rewrite split_join_pieces.
    - rewrite <- (map_id bare) at 2. apply map_ext_in. intros c Hin.
      unfold bare in Hin. apply in_map_iff in Hin.
      destruct Hin as [[[b c'] a] [E Hin]]. cbn [fst snd] in E. subst c'.
      rewrite Forall_forall in Hw. destruct (Hw _ Hin) as [_ [_ [Hc _]]].
      cbn [fst snd] in Hc.
      pose proof (trim_padded [] c [] eq_refl eq_refl Hc) as Ht.
      unfold padded in Ht. rewrite app_nil_r in Ht. exact Ht.
    - unfold bare. destruct written; [exfalso; apply Hne; reflexivity|discriminate].
    - unfold bare. rewrite Forall_map. eapply Forall_impl; [|exact Hw].
      intros [[b c] a] [_ [_ [_ Hc]]]. exact Hc. }
  split; [exact H1|]. unfold Statement.insert. rewrite H1, H2. reflexivity.
Qed.

(** The columns [ id , name] are the columns [id,name]. *)
Lemma columns_round_trip_witness :
  map trim (split 44%N (str " employee_id , first_name"))
  = [str "employee_id"; str "first_name"]
  /\ Statement.insert (str "employees") (str " employee_id , first_name")
       Sample.employee
     = Statement.insert (str "employees") (str "employee_id,first_name")
         Sample.employee.
Proof.
  apply (columns_round_trip (str "employees") Sample.employee
           [ (str " ", str "employee_id", str " ");
             (str " ", str "first_name", []) ]).
  - discriminate.
  - repeat constructor; simpl; intuition discriminate.
Defined.

(** ** The node description and [execute] *)

(** X17.  The operations that the description offers are the operations
    that [execute] handles: a record asks something of the connection, or
    fails, exactly when the selected operation is one of the choices of the
    parameter [operation]; its default is one of them. *)
Theorem selectable_operations_are_handled (this : Host) (selected : jsstring)
    (opts : IDataObject) (i : nat) (item : INodeExecutionData) :
  (In selected (map option_value (options Description.operation))
   <-> request this selected opts i item <> ok None)
  /\ In (default Description.operation)
        (map (fun choice => JsString (option_value choice))
             (options Description.operation)).
Proof.
  split; [|left; reflexivity].
  destruct (is_known_operation selected) eqn:Hk.
  - split; [intros _; apply request_known; exact Hk|]. intros _.
    unfold is_known_operation in Hk. apply existsb_exists in Hk.
    destruct Hk as [k [Hin E]]. apply eqb_eq in E. subst k.
    simpl in Hin. simpl. tauto.
  - split.
    + intros Hin. exfalso.
      assert (Hk' : is_known_operation selected = true).
      { unfold is_known_operation. apply existsb_exists. exists selected.
        split; [|apply eqb_refl]. simpl in Hin. simpl. tauto. }
      congruence.
    + intros H. exfalso. apply H. apply request_unknown. exact Hk.
Qed.

Lemma get_app (o o' : IDataObject) (k : jsstring) :
  JsObj.get (o ++ o') k
  = match JsObj.own_property o k with
    | Some x => x
    | None => JsObj.get o' k
    end.
Proof.
  unfold JsObj.get. rewrite own_property_app.
  destruct (JsObj.own_property o k); reflexivity.
Qed.

(** X18.  The defaults that the description declares are those that
    [execute] falls back to: for every operation, filling in the declared
    default of each option that is not set changes nothing of the options
    of the execution; and the declared default of the two json parameters
    is the text of the empty object that [execute] falls back to. *)
Theorem declared_defaults_agree (operation : jsstring) (opts : IDataObject) :
  options_of operation opts
  = options_of operation (opts ++ Description.default_options)
  /\ Statement.parse_if_string "Invalid JSON in Query Parameters"
       (default Description.queryParams) = ok (JsObject [])
  /\ Statement.parse_if_string "Invalid JSON in Procedure Parameters"
       (default Description.procedureParams) = ok (JsObject []).
Proof.
  split; [|split; reflexivity].
  unfold options_of, Statement.query_options, Statement.commit_options.
  rewrite !get_app. unfold JsObj.get.
  destruct (JsObj.own_property opts (str "autoCommit")) as [a|];
    destruct (JsObj.own_property opts (str "fetchSize")) as [f|];
    destruct (JsObj.own_property opts (str "maxRows")) as [m|];
    reflexivity.
Qed.

(** X19.  [execute] reads, for a record, only parameters that the
    description displays for the selected operation: two hosts that resolve
    these parameters alike process the record alike. *)
Theorem reads_only_shown_parameters (World Connection : Type)
    (driver : Driver World Connection) (this other : Host) (c : Connection)
    (selected : jsstring) (opts : IDataObject) (i : nat)
    (item : INodeExecutionData) (s : State World Connection) :
  (forall p,
     In p Description.properties -> Description.shown selected p = true ->
     getNodeParameter_string this (name p) i = getNodeParameter_string other (name p) i
     /\ forall fallback,
          getNodeParameter this (name p) i fallback
          = getNodeParameter other (name p) i fallback) ->
  process_item driver this c selected opts i item s
  = process_item driver other c selected opts i item s.
Proof.
  intros H. rewrite !process_item_perform. f_equal.
  assert (Hp : forall p, In p Description.properties ->
                 existsb (JsStr.eqb selected)
                   (match displayOptions p with Some l => l | None => [] end) = true ->
                 getNodeParameter_string this (name p) i
                 = getNodeParameter_string other (name p) i
                 /\ forall fallback,
                      getNodeParameter this (name p) i fallback
                      = getNodeParameter other (name p) i fallback).
  { intros p Hin Hs. apply H; [exact Hin|]. unfold Description.shown.
    destruct (displayOptions p); [exact Hs|reflexivity]. }
  unfold request.
  destruct (JsStr.eqb selected (str "executeQuery")) eqn:E1.
  { destruct (Hp Description.query) as [Hq _];
      [simpl; tauto | simpl; rewrite E1; reflexivity|].
    destruct (Hp Description.queryParams) as [_ Hqp];
      [simpl; tauto | simpl; rewrite E1; reflexivity|].
    cbn [name Description.query Description.queryParams] in Hq, Hqp.
    rewrite Hq, Hqp. reflexivity. }
  destruct (JsStr.eqb selected (str "insert")) eqn:E2.
  { destruct (Hp Description.table) as [Ht _];
      [simpl; tauto | simpl; rewrite E2; reflexivity|].
    destruct (Hp Description.columns) as [Hc _];
      [simpl; tauto | simpl; rewrite E2; reflexivity|].
    cbn [name Description.table Description.columns] in Ht, Hc.
    rewrite Ht, Hc. reflexivity. }
  destruct (JsStr.eqb selected (str "update")) eqn:E3.
  { destruct (Hp Description.table) as [Ht _];
      [simpl; tauto | simpl; rewrite E3, orb_true_r; reflexivity|].
    destruct (Hp Description.updateKey) as [Hk _];
      [simpl; tauto | simpl; rewrite E3; reflexivity|].
    cbn [name Description.table Description.updateKey] in Ht, Hk.
    rewrite Ht, Hk. reflexivity. }
  destruct (JsStr.eqb selected (str "delete")) eqn:E4.
  { destruct (Hp Description.table) as [Ht _];
      [simpl; tauto | simpl; rewrite E4, !orb_true_r; reflexivity|].
    destruct (Hp Description.deleteKey) as [Hk _];
      [simpl; tauto | simpl; rewrite E4; reflexivity|].
    cbn [name Description.table Description.deleteKey] in Ht, Hk.
    rewrite Ht, Hk. reflexivity. }
  destruct (JsStr.eqb selected (str "executeProcedure")) eqn:E5; [|reflexivity].
  destruct (Hp Description.procedure) as [Hq _];
    [simpl; tauto | simpl; rewrite E5; reflexivity|].
  destruct (Hp Description.procedureParams) as [_ Hqp];
    [simpl; tauto | simpl; rewrite E5; reflexivity|].
  cbn [name Description.procedure Description.procedureParams] in Hq, Hqp.
  rewrite Hq, Hqp. reflexivity.
Qed.

(** Two insert hosts that differ in the query, which insert does not
    display. *)
Lemma reads_only_shown_parameters_witness :
  process_item (Sample.driver true None Sample.done true)
    (Sample.host "insert"
       [("table", "employees"); ("columns", "employee_id"); ("query", "SELECT 1")]%string
       (JsObject []) false [Sample.employee])
    tt (str "insert") [] 0 {| json := Sample.employee |} (initial unit 0)
  = process_item (Sample.driver true None Sample.done true)
      (Sample.host "insert"
         [("table", "employees"); ("columns", "employee_id"); ("query", "SELECT 2")]%string
         (JsObject []) false [Sample.employee])
      tt (str "insert") [] 0 {| json := Sample.employee |} (initial unit 0).
Proof.
  apply (reads_only_shown_parameters nat unit
           (Sample.driver true None Sample.done true)).
  intros p Hin Hs.
  repeat (destruct Hin as [<-|Hin]; [try discriminate Hs; split; reflexivity|]).
  destruct Hin.
Defined.

(** ** Batches of records *)

(** X20.  Processing a batch of records is processing its first part and
    then, unless a record of that part stopped the loop, the rest, with the
    record indices running on: a record is processed in the same way
    whatever the size of the batch it comes in. *)
Theorem loop_over_batches (World Connection : Type)
    (driver : Driver World Connection) (this : Host) (c : Connection)
    (operation : jsstring) (opts : IDataObject)
    (first rest : list INodeExecutionData) (i : nat) (s : State World Connection) :
  loop driver this c operation opts i (first ++ rest) s
  = match loop driver this c operation opts i first s with
    | (s', inl e) => (s', inl e)
    | (s', inr _) => loop driver this c operation opts (i + length first) rest s'
    end.
Proof.
  revert i s. induction first as [|item first IH]; intros i s.
  - simpl. rewrite Nat.add_0_r. reflexivity.
  - cbn [app length]. rewrite !loop_cons.
    destruct (try_catch (process_item driver this c operation opts i item)
                (on_item_error this) s) as [s1 [e|[]]]; [reflexivity|].
    rewrite IH, Nat.add_succ_r. reflexivity.
Qed.

Lemma loop_without_failure (World Connection : Type)
    (driver : Driver World Connection) (this : Host) (c : Connection)
    (operation : jsstring) (opts : IDataObject) (items : list INodeExecutionData) :
  forall (i : nat) (s s' : State World Connection),
    loop driver (with_continueOnFail this false) c operation opts i items s
    = (s', ok tt) ->
    loop driver (with_continueOnFail this true) c operation opts i items s
    = (s', ok tt).
Proof.
  induction items as [|item rest IH]; intros i s s' H; [exact H|].
  rewrite loop_cons in *. unfold try_catch in *.
  change (process_item driver (with_continueOnFail this true) c operation opts i item)
    with (process_item driver this c operation opts i item).
  change (process_item driver (with_continueOnFail this false) c operation opts i item)
    with (process_item driver this c operation opts i item) in H.
  destruct (process_item driver this c operation opts i item s) as [s1 [e|[]]].
  - unfold on_item_error in H. cbn [continueOnFail with_continueOnFail] in H.
    discriminate H.
  - apply IH. exact H.
Qed.

(** X21.  Continue-past-failure matters only when a record fails: an
    invocation that answers without it makes the same calls and answers the
    same items with it. *)
Theorem continue_matters_only_on_failure (World Connection : Type)
    (driver : Driver World Connection) (this : Host) (w : World)
    (result : list (list JsValue)) :
  snd (run driver (with_continueOnFail this false) w) = ok result ->
  run driver (with_continueOnFail this true) w
  = run driver (with_continueOnFail this false) w.
Proof.
  intros H.
  destruct (run_answer World Connection driver _ w result H)
    as [cred [op [opts [s [c [s' [Hc [Ho [Hopt [Hconn [_ [Hl _]]]]]]]]]]]].
  rewrite (run_connected _ _ driver (with_continueOnFail this false)
             w cred op opts s c Hc Ho Hopt Hconn).
  rewrite (run_connected _ _ driver (with_continueOnFail this true)
             w cred op opts s c Hc Ho Hopt Hconn).
  cbn [getInputData with_continueOnFail] in *.
  rewrite Hl, (loop_without_failure _ _ driver this c op opts _ _ _ _ Hl).
  reflexivity.
Qed.

(** Three inserts that succeed. *)
Lemma continue_matters_only_on_failure_witness :
  run (Sample.driver true None Sample.done true)
    (with_continueOnFail (Sample.insert_host false) true) 0
  = run (Sample.driver true None Sample.done true)
      (with_continueOnFail (Sample.insert_host false) false) 0.
Proof.
  apply (continue_matters_only_on_failure nat unit
           (Sample.driver true None Sample.done true) (Sample.insert_host false) 0
           [[ Statement.summary Sample.done; Statement.summary Sample.done;
              Statement.summary Sample.done ]]).
  reflexivity.
Defined.

(** X22.  An invocation without input records still initializes the
    client, connects and closes: it executes nothing and answers one empty
    list of items, whatever the operation. *)
Theorem empty_input (World Connection : Type)
    (driver : Driver World Connection) (this : Host) (w : World)
    (credentials : Credentials) (operation : jsstring) (opts : IDataObject)
    (s : State World Connection) (c : Connection) :
  getInputData this = [] ->
  getCredentials this (str "oracleDb") = ok credentials ->
  getNodeParameter_string this (str "operation") 0 = ok operation ->
  getNodeParameter_object this (str "options") 0 [] = ok opts ->
  connected driver credentials w = (s, inr c) ->
  snd (run driver this w) = ok [[]]
  /\ count is_execute (trace (fst (run driver this w))) = 0
  /\ count is_acquired (trace (fst (run driver this w))) = 1
  /\ count is_close (trace (fst (run driver this w))) = 1.
Proof.
  intros Hin Hc Ho Hopt Hconn.
  rewrite (run_connected _ _ driver this w credentials operation opts s c
             Hc Ho Hopt Hconn).
  rewrite Hin. cbn [loop]. unfold ret. cbn [fst snd].
  destruct (connected_spec _ _ _ _ _ _ _ Hconn) as [_ [Hnil Ht]].
  destruct (started_counts _ _ driver w) as [Hsc [Hsa Hse]].
  destruct (release_spec _ _ driver (assigned c s)) as [s' [Hrel [_ Hclose]]].
  simpl in Hclose. destruct Hclose as [tail [Ht' Htail]].
  rewrite Hrel. cbn [fst assigned returnData]. rewrite Hnil.
  split; [reflexivity|].
  rewrite Ht', Ht, !count_app, Hsc, Hsa, Hse.
  destruct Htail as [->|[e [_ ->]]]; repeat split; reflexivity.
Qed.

(** The sample driver and an insert host without items. *)
Lemma empty_input_witness :
  snd (run (Sample.driver true None Sample.done true)
           (Sample.host "insert" [] (JsObject []) false []) 0) = ok [[]]
  /\ count is_execute
       (trace (fst (run (Sample.driver true None Sample.done true)
                        (Sample.host "insert" [] (JsObject []) false []) 0))) = 0
  /\ count is_acquired
       (trace (fst (run (Sample.driver true None Sample.done true)
                        (Sample.host "insert" [] (JsObject []) false []) 0))) = 1
  /\ count is_close
       (trace (fst (run (Sample.driver true None Sample.done true)
                        (Sample.host "insert" [] (JsObject []) false []) 0))) = 1.
Proof.
  apply (empty_input nat unit (Sample.driver true None Sample.done true)
           (Sample.host "insert" [] (JsObject []) false []) 0
           Sample.credentials (str "insert") []
           (fst (connected (Sample.driver true None Sample.done true)
                   Sample.credentials 0)) tt);
    reflexivity.
Defined.
